(** * QuantizedModule: inference for a quantized model

    A shallow embedding of [concrete/ml/quantization/quantized_module.py]:
    the graph executor ([forward], [_forward]), the input quantization
    boundary ([quantize_input], [set_inputs_quantization_parameters]), the
    compilation driver ([compile], [_get_inputset_generator]), the backend
    invocation adapter ([forward_in_fhe]) and the bit-width and range
    reporter ([bitwidth_and_range_report]).

    Python exceptions are values of [exception] carried by [result]; the
    methods of the module object are functions of a [world] holding the
    module, the debug dictionaries that operations may point at, and the
    calls made to the compiler and to the compiled circuit. *)

From Stdlib Require Import ZArith Lia List String Ascii.
From stdpp Require Import base option list gmap strings pretty fin_maps.

Local Open Scope Z_scope.
Local Open Scope nat_scope.

(** ** Exceptions *)

Inductive error_type :=
| AssertionError | TypeError | ValueError | AttributeError | IndexError | KeyError.

Record exception := Raise { exc_type : error_type; exc_msg : string }.

Inductive result (A : Type) :=
| Ok (a : A)
| Err (e : exception).
Arguments Ok {A} a.
Arguments Err {A} e.

Definition bind_result {A B} (r : result A) (k : A -> result B) : result B :=
  match r with Ok a => k a | Err e => Err e end.

(** Left-to-right evaluation of a comprehension whose body may raise. *)
Fixpoint map_result {A B} (f : A -> result B) (l : list A) : result (list B) :=
  match l with
  | [] => Ok []
  | x :: rest =>
      match f x with
      | Err e => Err e
      | Ok y => match map_result f rest with
                | Err e => Err e
                | Ok ys => Ok (y :: ys)
                end
      end
  end.

(** Modelled from the spec: [assert_true] of [common/debugging] is not part
    of the sources at hand. Every failure the specification describes is
    the raising of the given error kind with the given message when the
    condition is false; a call without an explicit kind passes
    [AssertionError], the kind of a failed assertion. *)
Definition assert_true (condition : bool) (on_error_msg : string)
    (error_type : error_type) : result unit :=
  if condition then Ok tt else Err (Raise error_type on_error_msg).

(** ** Strings *)

Definition nl : string := String "010"%char EmptyString.

(** [sep.join(parts)] *)
Fixpoint join (sep : string) (parts : list string) : string :=
  match parts with
  | [] => ""
  | [p] => p
  | p :: rest => p +:+ sep +:+ join sep rest
  end.

(** [str(n)] for a non-negative count or position. *)
Definition str_of_nat (n : nat) : string := pretty n.

(** [msg] has [part] as a contiguous piece. *)
Definition mentions (msg part : string) : Prop :=
  exists before after, msg = before +:+ part +:+ after.

(** ** numpy arrays

    An array is its element type, its shape and its buffer in row-major
    order; an element is kept as the integer its bits encode, so that
    floating arrays need no arithmetic of their own. *)

Inductive DType :=
| bool_ | int8 | int16 | int32 | int64
| uint8 | uint16 | uint32 | uint64
| float16 | float32 | float64 | object_.

Global Instance DType_eq_dec : EqDecision DType.
Proof. solve_decision. Defined.

Definition dtype_name (d : DType) : string :=
  match d with
  | bool_ => "bool" | int8 => "int8" | int16 => "int16" | int32 => "int32"
  | int64 => "int64" | uint8 => "uint8" | uint16 => "uint16"
  | uint32 => "uint32" | uint64 => "uint64" | float16 => "float16"
  | float32 => "float32" | float64 => "float64" | object_ => "object"
  end.

(** [issubclass(d.type, numpy.integer)], also [numpy.issubdtype(d, numpy.integer)] *)
Definition is_integer (d : DType) : bool :=
  match d with
  | int8 | int16 | int32 | int64 | uint8 | uint16 | uint32 | uint64 => true
  | _ => false
  end.

Inductive dtype_kind :=
| KBool | KSigned (bits : nat) | KUnsigned (bits : nat) | KFloat (bits : nat) | KObject.

Definition kind_of (d : DType) : dtype_kind :=
  match d with
  | bool_ => KBool
  | int8 => KSigned 8 | int16 => KSigned 16 | int32 => KSigned 32 | int64 => KSigned 64
  | uint8 => KUnsigned 8 | uint16 => KUnsigned 16
  | uint32 => KUnsigned 32 | uint64 => KUnsigned 64
  | float16 => KFloat 16 | float32 => KFloat 32 | float64 => KFloat 64
  | object_ => KObject
  end.

Definition signed_of (bits : nat) : DType :=
  if bits <=? 8 then int8 else if bits <=? 16 then int16
  else if bits <=? 32 then int32 else int64.

Definition unsigned_of (bits : nat) : DType :=
  if bits <=? 8 then uint8 else if bits <=? 16 then uint16
  else if bits <=? 32 then uint32 else uint64.

Definition float_of (bits : nat) : DType :=
  if bits <=? 16 then float16 else if bits <=? 32 then float32 else float64.

(** Width of the smallest float holding every integer of [bits] bits. *)
Definition float_bits_for_int (bits : nat) : nat :=
  if bits <=? 8 then 16 else if bits <=? 16 then 32 else 64.

Definition mixed_sign (s u : nat) : DType :=
  if u <? s then signed_of s
  else if u <? 64 then signed_of (2 * u) else float64.

(** [numpy.promote_types] *)
Definition promote_types (a b : DType) : DType :=
  match kind_of a, kind_of b with
  | KObject, _ | _, KObject => object_
  | KBool, _ => b
  | _, KBool => a
  | KSigned x, KSigned y => signed_of (Nat.max x y)
  | KUnsigned x, KUnsigned y => unsigned_of (Nat.max x y)
  | KSigned s, KUnsigned u | KUnsigned u, KSigned s => mixed_sign s u
  | KFloat x, KFloat y => float_of (Nat.max x y)
  | KFloat f, KSigned i | KFloat f, KUnsigned i
  | KSigned i, KFloat f | KUnsigned i, KFloat f =>
      float_of (Nat.max f (float_bits_for_int i))
  end.

Record ndarray := Ndarray { dtype : DType; shape : list nat; data : list Z }.

(** Number of elements under a shape. *)
Definition size_of (s : list nat) : nat := fold_right Nat.mul 1 s.

(** The buffer has exactly the elements its shape announces. *)
Definition well_shaped (a : ndarray) : Prop := length (data a) = size_of (shape a).

(** [a.shape[0]] *)
Definition shape0 (a : ndarray) : result nat :=
  match shape a with
  | [] => Err (Raise IndexError "tuple index out of range")
  | n :: _ => Ok n
  end.

(** Sample [i] along the first axis, for an array whose shape is [n :: s]. *)
Definition row (a : ndarray) (s : list nat) (i : nat) : list Z :=
  take (size_of s) (drop (i * size_of s) (data a)).

Definition out_of_bounds (i n : nat) : exception :=
  Raise IndexError
    ("index " +:+ str_of_nat i +:+ " is out of bounds for axis 0 with size "
       +:+ str_of_nat n).

Definition too_many_indices : exception :=
  Raise IndexError
    "too many indices for array: array is 0-dimensional, but 1 were indexed".

(** [a[i]] for a position [i >= 0] *)
Definition getitem (a : ndarray) (i : nat) : result ndarray :=
  match shape a with
  | [] => Err too_many_indices
  | n :: s =>
      if i <? n then Ok (Ndarray (dtype a) s (row a s i))
      else Err (out_of_bounds i n)
  end.

(** [numpy.expand_dims(a, 0)] *)
Definition expand_dims0 (a : ndarray) : ndarray :=
  Ndarray (dtype a) (1 :: shape a) (data a).

(** [a[[i]]]: the one-sample batch made of sample [i] *)
Definition take_sample (a : ndarray) (i : nat) : result ndarray :=
  match shape a with
  | [] => Err too_many_indices
  | n :: s =>
      if i <? n then Ok (Ndarray (dtype a) (1 :: s) (row a s i))
      else Err (out_of_bounds i n)
  end.

(** [iter(a)]: the samples along the first axis, in order *)
Definition iter_rows (a : ndarray) : result (list ndarray) :=
  match shape a with
  | [] => Err (Raise TypeError "iteration over a 0-d array")
  | n :: s => Ok (map (fun i => Ndarray (dtype a) s (row a s i)) (seq 0 n))
  end.

(** The type number numpy gives a dtype: of two dtypes, the one with the
    higher number is the one that knows how to promote with the other. *)
Definition type_num (d : DType) : nat :=
  match d with
  | bool_ => 0 | int8 => 1 | uint8 => 2 | int16 => 3 | uint16 => 4
  | int32 => 5 | uint32 => 6 | int64 => 7 | uint64 => 8
  | float32 => 11 | float64 => 12 | object_ => 17 | float16 => 23
  end.

Definition more_knowledgeable (a b : DType) : DType :=
  if type_num a <? type_num b then b else a.

(** [numpy.result_type] of the dtypes of several arrays. The dtypes are
    promoted all at once and not two by two: each is first promoted with
    the most knowledgeable of them, which makes the order irrelevant
    ([int8], [uint8] and [float16] give [float16]). *)
Definition result_type (ds : list DType) (d0 : DType) : DType :=
  let main := fold_left more_knowledgeable ds d0 in
  fold_left (fun acc d => promote_types acc (promote_types main d)) (d0 :: ds) main.

(** First dimension, from [idim] on, at which two shapes differ. *)
Fixpoint first_mismatch (idim : nat) (s s' : list nat) : option (nat * nat * nat) :=
  match s, s' with
  | x :: s, y :: s' =>
      if x =? y then first_mismatch (S idim) s s' else Some (idim, x, y)
  | _, _ => None
  end.

Definition ndim_mismatch (ndim0 index ndim : nat) : exception :=
  Raise ValueError
    ("all the input arrays must have same number of dimensions, but the array at "
     +:+ "index 0 has " +:+ str_of_nat ndim0 +:+ " dimension(s) and the array at index "
     +:+ str_of_nat index +:+ " has " +:+ str_of_nat ndim +:+ " dimension(s)").

Definition dimension_mismatch (idim size0 index size : nat) : exception :=
  Raise ValueError
    ("all the input array dimensions except for the concatenation axis must match "
     +:+ "exactly, but along dimension " +:+ str_of_nat idim
     +:+ ", the array at index 0 has size " +:+ str_of_nat size0
     +:+ " and the array at index " +:+ str_of_nat index
     +:+ " has size " +:+ str_of_nat size).

(** Leading dimension of the array at [index], to be joined to a first
    array of trailing shape [s]. *)
Definition joinable (s : list nat) (index : nat) (a : ndarray) : result nat :=
  match shape a with
  | [] => Err (ndim_mismatch (S (length s)) index 0)
  | n :: s' =>
      if decide (length s' = length s) then
        match first_mismatch 1 s s' with
        | None => Ok n
        | Some (idim, size0, size) => Err (dimension_mismatch idim size0 index size)
        end
      else Err (ndim_mismatch (S (length s)) index (S (length s')))
  end.

Fixpoint joinable_from (s : list nat) (index : nat) (arrays : list ndarray)
  : result (list nat) :=
  match arrays with
  | [] => Ok []
  | a :: rest =>
      match joinable s index a with
      | Err e => Err e
      | Ok n => match joinable_from s (S index) rest with
                | Err e => Err e
                | Ok ns => Ok (n :: ns)
                end
      end
  end.

(** [numpy.concatenate(arrays, axis=0)] *)
Definition concatenate (arrays : list ndarray) : result ndarray :=
  match arrays with
  | [] => Err (Raise ValueError "need at least one array to concatenate")
  | a0 :: rest =>
      match shape a0 with
      | [] => Err (Raise ValueError "zero-dimensional arrays cannot be concatenated")
      | n0 :: s =>
          match joinable_from s 1 rest with
          | Err e => Err e
          | Ok ns =>
              Ok (Ndarray (result_type (map dtype rest) (dtype a0))
                          (fold_left Nat.add ns n0 :: s)
                          (concat (map data arrays)))
          end
      end
  end.

(** The dimensions two shapes start with in common. *)
Fixpoint common_prefix (s s' : list nat) : list nat :=
  match s, s' with
  | x :: s, y :: s' => if x =? y then x :: common_prefix s s' else []
  | _, _ => []
  end.

(** [repr] of a tuple of sizes *)
Definition tuple_repr (s : list nat) : string :=
  match s with
  | [] => "()"
  | [n] => "(" +:+ str_of_nat n +:+ ",)"
  | _ => "(" +:+ join ", " (map str_of_nat s) +:+ ")"
  end.

Definition inhomogeneous_shape (detected : list nat) : exception :=
  Raise ValueError
    ("setting an array element with a sequence. The requested array has an "
     +:+ "inhomogeneous shape after " +:+ str_of_nat (length detected)
     +:+ " dimensions. The detected shape was " +:+ tuple_repr detected
     +:+ " + inhomogeneous part.").

(** [numpy.array(arrays).dtype] for a tuple of arrays: an empty tuple gives a
    float array; arrays of one shape are stacked, their dtypes promoted
    one after the other as the elements are discovered; a ragged tuple is
    refused, as numpy does from its version 1.24 on, with the shape
    detected so far: the number of arrays and the dimensions all of them
    start with. *)
Definition stacked_dtype (arrays : list ndarray) : result DType :=
  match arrays with
  | [] => Ok float64
  | a0 :: rest =>
      if forallb (fun a => bool_decide (shape a = shape a0)) rest
      then Ok (fold_left promote_types (map dtype rest) (dtype a0))
      else Err (inhomogeneous_shape
                  (length arrays
                   :: fold_left common_prefix (map shape rest) (shape a0)))
  end.

(** [names[idx]] on a tuple, with Python's negative positions. *)
Definition py_index {A} (l : list A) (idx : Z) : result A :=
  let n := Z.of_nat (length l) in
  let pos := (if idx <? 0 then idx + n else idx)%Z in
  if ((0 <=? pos) && (pos <? n))%Z then
    match l !! Z.to_nat pos with
    | Some x => Ok x
    | None => Err (Raise IndexError "tuple index out of range")
    end
  else Err (Raise IndexError "tuple index out of range").

(** ** Collaborators: quantizers, quantized tensors, operations, circuits *)

(** Options, statistics and parameters of a quantizer are read and handed
    on, never inspected. *)
Definition payload : Type := list Z.

Record UniformQuantizer := {
  n_bits : Z;
  quant_options : payload;
  quant_stats : payload;
  quant_params : payload;
  quant : ndarray -> ndarray;
  dequant : ndarray -> ndarray;
}.

(** [QuantizedArray(n_bits, values, value_is_float=False, options, stats, params)] *)
Record QuantizedArray := {
  qa_n_bits : Z;
  qa_options : payload;
  qa_stats : payload;
  qa_params : payload;
  qvalues : ndarray;
}.

(** [Union[numpy.ndarray, QuantizedArray, None]] *)
Inductive ONNXOpInputOutputType :=
| NoneValue
| RawArray (a : ndarray)
| Quantized (q : QuantizedArray).

(** What [forward(debug=True)] hands back: operation names to the inputs
    the operation received. *)
Abbreviation debug_trace := (gmap string (list ONNXOpInputOutputType)).

(** A quantized operation. [kernel] is the numeric semantics of the
    operation: from its resolved inputs, its output and the positions of
    the inputs it found not to be quantized. The two slots are the
    per-call fields the executor installs; [debug_value_tracker] points
    at a dictionary of the world. *)
Record QuantizedOp := {
  op_type : string;
  op_instance_name : string;
  kernel : list ONNXOpInputOutputType -> ONNXOpInputOutputType * list Z;
  error_tracker : option (list Z);
  debug_value_tracker : option nat;
}.

Definition set_error_tracker (t : option (list Z)) (layer : QuantizedOp) : QuantizedOp :=
  {| op_type := op_type layer; op_instance_name := op_instance_name layer;
     kernel := kernel layer; error_tracker := t;
     debug_value_tracker := debug_value_tracker layer |}.

Definition set_debug_value_tracker (t : option nat) (layer : QuantizedOp) : QuantizedOp :=
  {| op_type := op_type layer; op_instance_name := op_instance_name layer;
     kernel := kernel layer; error_tracker := error_tracker layer;
     debug_value_tracker := t |}.

Record Graph := {
  integer_range : string -> option (Z * Z);
  maximum_integer_bit_width : string -> Z;
}.

Record Circuit := {
  simulate : list ndarray -> ndarray;
  encrypt_run_decrypt : list ndarray -> ndarray;
  graph : Graph;
}.

(** ** The module and its world *)

Abbreviation node := (string * (list string * QuantizedOp))%type.

(** A module built with its three constructor arguments; [quant_layers_dict]
    keeps the insertion order of the dictionary, which is the order of
    execution. *)
Record QuantizedModule := {
  ordered_module_input_names : list string;
  ordered_module_output_names : list string;
  quant_layers_dict : list node;
  input_quantizers : list UniformQuantizer;
  output_quantizers : list UniformQuantizer;
  fhe_circuit : option Circuit;
}.

Definition set_quant_layers_dict (d : list node) (m : QuantizedModule) : QuantizedModule :=
  {| ordered_module_input_names := ordered_module_input_names m;
     ordered_module_output_names := ordered_module_output_names m;
     quant_layers_dict := d;
     input_quantizers := input_quantizers m;
     output_quantizers := output_quantizers m;
     fhe_circuit := fhe_circuit m |}.

Definition set_input_quantizers (q : list UniformQuantizer) (m : QuantizedModule) : QuantizedModule :=
  {| ordered_module_input_names := ordered_module_input_names m;
     ordered_module_output_names := ordered_module_output_names m;
     quant_layers_dict := quant_layers_dict m;
     input_quantizers := q;
     output_quantizers := output_quantizers m;
     fhe_circuit := fhe_circuit m |}.

Definition set_fhe_circuit (c : option Circuit) (m : QuantizedModule) : QuantizedModule :=
  {| ordered_module_input_names := ordered_module_input_names m;
     ordered_module_output_names := ordered_module_output_names m;
     quant_layers_dict := quant_layers_dict m;
     input_quantizers := input_quantizers m;
     output_quantizers := output_quantizers m;
     fhe_circuit := c |}.

(** [Union[numpy.ndarray, Tuple[numpy.ndarray, ...]]] *)
Inductive array_or_tuple :=
| Single (a : ndarray)
| Tuple (arrays : list ndarray).

(** The input set is produced lazily: an element that cannot be built
    raises when it is asked for. *)
Abbreviation inputset := (list (result array_or_tuple)).

Inductive backend_event :=
| Simulate (sample : list ndarray)
| EncryptRunDecrypt (sample : list ndarray)
| CompilerCompile (samples : inputset).

Record world := {
  self : QuantizedModule;
  traces : list debug_trace;
  backend_calls : list backend_event;
}.

Definition with_self (m : QuantizedModule) (w : world) : world :=
  {| self := m; traces := traces w; backend_calls := backend_calls w |}.

Definition with_traces (t : list debug_trace) (w : world) : world :=
  {| self := self w; traces := t; backend_calls := backend_calls w |}.

Definition with_backend_calls (c : list backend_event) (w : world) : world :=
  {| self := self w; traces := traces w; backend_calls := c |}.

(** A method: it runs in a world, returns or raises, and leaves a world. *)
Definition M (A : Type) : Type := world -> result A * world.

Definition ret {A} (a : A) : M A := fun w => (Ok a, w).
Definition raise {A} (e : exception) : M A := fun w => (Err e, w).
Definition bind {A B} (c : M A) (k : A -> M B) : M B :=
  fun w => match c w with
           | (Ok a, w') => k a w'
           | (Err e, w') => (Err e, w')
           end.
Definition lift {A} (r : result A) : M A := fun w => (r, w).
Definition get_self : M QuantizedModule := fun w => (Ok (self w), w).

Notation "'do' x <- c ; k" := (bind c (fun x => k))
  (at level 10, x name, c at level 100, k at level 200).
Notation "'run' c ; k" := (bind c (fun _ => k))
  (at level 10, c at level 100, k at level 200).

(** ** Module-level helpers *)

Definition qat_line (info : string * string) : string :=
  "* Tensor " +:+ info.1 +:+ ", input of an " +:+ info.2 +:+ " operation".

Definition qat_message (bad_qat_ops : list (string * string)) : string :=
  "Error occurred during quantization aware training (QAT) import: "
  +:+ "The following tensors were expected to be quantized, but the values "
  +:+ "found during calibration do not appear to be quantized. " +:+ nl +:+ nl
  +:+ join nl (map qat_line bad_qat_ops)
  +:+ nl +:+ nl +:+ "Could not determine a unique scale for the quantization! "
  +:+ "Please check the ONNX graph of this model.".

Definition _raise_qat_import_error {A} (bad_qat_ops : list (string * string)) : result A :=
  Err (Raise ValueError (qat_message bad_qat_ops)).

(** Modelled from the spec: [to_tuple] of [common/utils] is not part of the
    sources at hand; a single array counts as the tuple of that array and
    a tuple is taken as it is. *)
Definition to_tuple (x : array_or_tuple) : list ndarray :=
  match x with
  | Single a => [a]
  | Tuple arrays => arrays
  end.

Definition _get_inputset_generator (q_inputs : array_or_tuple) : result inputset :=
  let q_inputs := to_tuple q_inputs in
  bind_result (assert_true (0 <? length q_inputs) "Inputset cannot be empty" AssertionError)
    (fun _ =>
       if 1 <? length q_inputs then
         match q_inputs with
         | [] => Err (Raise IndexError "tuple index out of range")
         | first :: _ =>
             bind_result (shape0 first) (fun n =>
               Ok (map (fun idx =>
                          bind_result
                            (map_result (fun q_input =>
                               bind_result (getitem q_input idx)
                                 (fun sample => Ok (expand_dims0 sample)))
                               q_inputs)
                            (fun t => Ok (Tuple t)))
                       (seq 0 n)))
         end
       else
         match q_inputs with
         | [] => Err (Raise IndexError "tuple index out of range")
         | first :: _ =>
             bind_result (iter_rows first) (fun rows =>
               Ok (map (fun q_input => Ok (Single (expand_dims0 q_input))) rows))
         end).

(** ** QuantizedModule methods *)

Definition not_compiled_message : string :=
  "The quantized module is not compiled. Please run compile(...) first before "
  +:+ "executing it in FHE.".

Definition check_model_is_compiled : M unit :=
  do m <- get_self;
  match fhe_circuit m with
  | None => raise (Raise AttributeError not_compiled_message)
  | Some _ => ret tt
  end.

(** [f"Got {n_values} inputs, expected {n_inputs}"] *)
Definition arity_message (n_values n_inputs : nat) : string :=
  "Got " +:+ str_of_nat n_values +:+ " inputs, expected " +:+ str_of_nat n_inputs.

(** [f'#{val[0]} ({val[1].dtype})'] *)
Definition invalid_input_item (val : nat * ndarray) : string :=
  "#" +:+ str_of_nat val.1 +:+ " (" +:+ dtype_name (dtype val.2) +:+ ")".

Definition not_integer_message (invalid_inputs : list (nat * ndarray)) : string :=
  "Inputs: " +:+ join ", " (map invalid_input_item invalid_inputs)
  +:+ " are not "
  +:+ "integer types. Make sure you quantize your input before calling forward.".

(** [enumerate(qvalues)] from position [start] *)
Fixpoint enumerate_from {A} (start : nat) (l : list A) : list (nat * A) :=
  match l with
  | [] => []
  | x :: rest => (start, x) :: enumerate_from (S start) rest
  end.

Definition invalid_inputs_of (qvalues : list ndarray) : list (nat * ndarray) :=
  List.filter (fun val => negb (is_integer (dtype val.2))) (enumerate_from 0 qvalues).

Definition make_q_input (quantizer : UniformQuantizer) (values : ndarray) : QuantizedArray :=
  {| qa_n_bits := n_bits quantizer;
     qa_options := quant_options quantizer;
     qa_stats := quant_stats quantizer;
     qa_params := quant_params quantizer;
     qvalues := values |}.

(** [dict(pairs)]: a later pair replaces an earlier one under the same key. *)
Definition dict_of_pairs {V} (pairs : list (string * V)) : gmap string V :=
  fold_left (fun d kv => <[kv.1 := kv.2]> d) pairs ∅.

(** [layer( *inputs )]: the kernel runs; the positions it reports go to the
    installed fault list, and the inputs go under the operation's name into
    the debug dictionary the operation points at, when there is one. *)
Definition call_layer (layer : QuantizedOp) (inputs : list ONNXOpInputOutputType)
    (dicts : list debug_trace)
  : ONNXOpInputOutputType * QuantizedOp * list debug_trace :=
  let '(output, faults) := kernel layer inputs in
  let layer' :=
    match error_tracker layer with
    | Some seen => set_error_tracker (Some (seen ++ faults)) layer
    | None => layer
    end in
  let dicts' :=
    match debug_value_tracker layer with
    | Some ref => alter (fun d => <[op_instance_name layer := inputs]> d) ref dicts
    | None => dicts
    end in
  (output, layer', dicts').

(** The pairs appended to [bad_qat_ops] for one operation. *)
Definition fault_records (input_names : list string) (op : string)
    (error_tracker : list Z) : result (list (string * string)) :=
  map_result
    (fun input_idx =>
       bind_result (py_index input_names input_idx) (fun name => Ok (name, op)))
    error_tracker.

(** [(layer_results.get(input_name, None) for input_name in input_names)] *)
Definition resolve_inputs (layer_results : gmap string ONNXOpInputOutputType)
    (input_names : list string) : list ONNXOpInputOutputType :=
  map (fun input_name => default NoneValue (layer_results !! input_name)) input_names.

(** The loop over [quant_layers_dict.items()]. It returns the operations as
    the loop leaves them besides its outcome. *)
Fixpoint run_layers (nodes : list node)
    (layer_results : gmap string ONNXOpInputOutputType)
    (bad_qat_ops : list (string * string)) (dicts : list debug_trace)
  : result (gmap string ONNXOpInputOutputType * list (string * string))
    * list node * list debug_trace :=
  match nodes with
  | [] => (Ok (layer_results, bad_qat_ops), [], dicts)
  | (output_name, (input_names, layer)) :: rest =>
      let inputs := resolve_inputs layer_results input_names in
      let '(output, layer, dicts) :=
        call_layer (set_error_tracker (Some []) layer) inputs dicts in
      let error_tracker_ := default [] (error_tracker layer) in
      let layer := set_error_tracker None layer in
      match fault_records input_names (op_type layer) error_tracker_ with
      | Err e => (Err e, (output_name, (input_names, layer)) :: rest, dicts)
      | Ok records =>
          let '(outcome, rest', dicts') :=
            run_layers rest (<[output_name := output]> layer_results)
                       (bad_qat_ops ++ records) dicts in
          (outcome, (output_name, (input_names, layer)) :: rest', dicts')
      end
  end.

(** What [_forward] does once the loop is over. *)
Definition graph_output (m : QuantizedModule)
    (layer_results : gmap string ONNXOpInputOutputType)
    (bad_qat_ops : list (string * string)) : result ndarray :=
  if 0 <? length bad_qat_ops then _raise_qat_import_error bad_qat_ops
  else
    bind_result
      (map_result
         (fun output_name =>
            match layer_results !! output_name with
            | Some v => Ok v
            | None => Err (Raise KeyError output_name)
            end)
         (ordered_module_output_names m))
      (fun outputs =>
         bind_result (assert_true (length outputs =? 1) "" AssertionError)
           (fun _ =>
              match outputs with
              | Quantized q :: _ => Ok (qvalues q)
              | _ => Err (Raise AssertionError "")
              end)).

(** [layer_results] as [_forward] seeds it: the declared input names bound
    to the inputs wrapped with their quantizers. *)
Definition initial_layer_results (m : QuantizedModule) (qvalues_ : list ndarray)
  : gmap string ONNXOpInputOutputType :=
  let q_inputs := zip_with make_q_input (input_quantizers m) qvalues_ in
  dict_of_pairs (zip (ordered_module_input_names m) (map Quantized q_inputs)).

Definition _forward (qvalues_ : list ndarray) : M ndarray := fun w =>
  let m := self w in
  let n_qinputs := length (input_quantizers m) in
  let n_qvalues := length qvalues_ in
  match assert_true (n_qvalues =? n_qinputs)
          (arity_message n_qvalues n_qinputs) TypeError with
  | Err e => (Err e, w)
  | Ok _ =>
      let '(outcome, layers, dicts) :=
        run_layers (quant_layers_dict m) (initial_layer_results m qvalues_) []
                   (traces w) in
      let w' := with_traces dicts (with_self (set_quant_layers_dict layers m) w) in
      match outcome with
      | Err e => (Err e, w')
      | Ok (layer_results, bad_qat_ops) =>
          (graph_output m layer_results bad_qat_ops, w')
      end
  end.

(** [for (_, layer) in self.quant_layers_dict.values(): layer.debug_value_tracker = t] *)
Definition install_debug_value_tracker (t : option nat) : M unit := fun w =>
  let m := self w in
  (Ok tt,
   with_self
     (set_quant_layers_dict
        (map (fun entry : node =>
                (entry.1, (entry.2.1, set_debug_value_tracker t entry.2.2)))
             (quant_layers_dict m))
        m)
     w).

(** [debug_value_tracker = {}]: a new dictionary, known by its position. *)
Definition new_dict : M nat := fun w =>
  (Ok (length (traces w)), with_traces (traces w ++ [∅]) w).

Definition read_dict (ref : nat) : M debug_trace := fun w =>
  (Ok (default ∅ (traces w !! ref)), w).

(** [Union[numpy.ndarray, Tuple[numpy.ndarray, Optional[Dict]]]] *)
Inductive forward_result :=
| Plain (result_ : ndarray)
| WithTrace (result_ : ndarray) (debug_value_tracker_ : debug_trace).

Definition forward (qvalues_ : list ndarray) (debug : bool) : M forward_result :=
  let invalid_inputs := invalid_inputs_of qvalues_ in
  run lift (assert_true (length invalid_inputs =? 0)
              (not_integer_message invalid_inputs) ValueError);
  if debug then
    do ref <- new_dict;
    run install_debug_value_tracker (Some ref);
    do result_ <- _forward qvalues_;
    run install_debug_value_tracker None;
    do debug_value_tracker_ <- read_dict ref;
    ret (WithTrace result_ debug_value_tracker_)
  else
    do result_ <- _forward qvalues_;
    ret (Plain result_).

(** One call to the compiled circuit, which the world records. *)
Definition backend_call (c : Circuit) (simulate_flag : bool)
    (q_value : list ndarray) : M ndarray := fun w =>
  if simulate_flag then
    (Ok (simulate c q_value),
     with_backend_calls (backend_calls w ++ [Simulate q_value]) w)
  else
    (Ok (encrypt_run_decrypt c q_value),
     with_backend_calls (backend_calls w ++ [EncryptRunDecrypt q_value]) w).

(** The loop over [range(qvalues[0].shape[0])]. *)
Fixpoint fhe_loop (c : Circuit) (simulate_flag : bool) (qvalues_ : list ndarray)
    (indices : list nat) (results_cnp_circuit_list : list ndarray)
  : M (list ndarray) :=
  match indices with
  | [] => ret results_cnp_circuit_list
  | i :: rest =>
      do q_value <- lift (map_result (fun q => take_sample q i) qvalues_);
      do q_result <- backend_call c simulate_flag q_value;
      fhe_loop c simulate_flag qvalues_ rest (results_cnp_circuit_list ++ [q_result])
  end.

Definition forward_in_fhe (qvalues_ : list ndarray) (simulate_flag : bool) : M ndarray :=
  do m <- get_self;
  run lift (assert_true (bool_decide (is_Some (fhe_circuit m)))
              not_compiled_message AssertionError);
  do first <- lift (py_index qvalues_ 0%Z);
  do n <- lift (shape0 first);
  match fhe_circuit m with
  | None => raise (Raise AssertionError "")
  | Some c =>
      do results_cnp_circuit_list <- fhe_loop c simulate_flag qvalues_ (seq 0 n) [];
      lift (concatenate results_cnp_circuit_list)
  end.

Definition quantize_input (values : list ndarray) : M array_or_tuple :=
  do m <- get_self;
  let n_q_inputs := length (input_quantizers m) in
  let n_values := length values in
  run lift (assert_true (n_values =? n_q_inputs)
              (arity_message n_values n_q_inputs) TypeError);
  let q_values := zip_with quant (input_quantizers m) values in
  do stacked <- lift (stacked_dtype q_values);
  run lift (assert_true (bool_decide (stacked = int64))
              "Inputs were not quantized to int64 values" AssertionError);
  ret (match q_values with
       | [q] => Single q
       | _ => Tuple q_values
       end).

Definition set_inputs_quantization_parameters
    (input_q_params : list UniformQuantizer) : M unit :=
  do m <- get_self;
  let n_inputs := length (ordered_module_input_names m) in
  let n_values := length input_q_params in
  run lift (assert_true (n_values =? n_inputs)
              (arity_message n_values n_inputs) TypeError);
  fun w => (Ok tt, with_self (set_input_quantizers ([] ++ input_q_params) (self w)) w).

(** ** Compilation driver *)

(** [all(input.shape[0] == ref_len for input in inputs)]: it stops at the
    first array of another length. *)
Fixpoint all_same_length (ref_len : nat) (inputs : list ndarray) : result bool :=
  match inputs with
  | [] => Ok true
  | input :: rest =>
      match shape0 input with
      | Err e => Err e
      | Ok n => if n =? ref_len then all_same_length ref_len rest else Ok false
      end
  end.

Definition already_quantized_message : string :=
  "Inputs used for compiling a QuantizedModule should only be floating points and not"
  +:+ "already-quantized values.".

(** The two requirements [compile] places on its calibration inputs. *)
Definition compile_checks (inputs : list ndarray) : result unit :=
  bind_result (py_index inputs 0%Z) (fun first =>
  bind_result (shape0 first) (fun ref_len =>
  bind_result (all_same_length ref_len inputs) (fun same =>
  bind_result (assert_true same "Mismatched dataset lengths" AssertionError) (fun _ =>
  assert_true (negb (existsb (fun input => is_integer (dtype input)) inputs))
    already_quantized_message AssertionError)))).

Section Compile.

(** The collaborators of [compile] that live outside this module: the
    configuration objects; the two helpers of [common/utils] on error
    probabilities, either of which may refuse; [generate_proxy_function],
    which wraps the module's [_forward] into a function of fixed arity and
    gives the names of its arguments; the [Compiler] built on that
    function, every argument marked as encrypted; and its [compile]
    method, which receives the input set and the options. *)
Variables Configuration DebugArtifacts Probability ProxyFunction CompilerObject : Type.

Record compile_options := {
  opt_configuration : option Configuration;
  opt_artifacts : option DebugArtifacts;
  opt_show_mlir : bool;
  opt_virtual : bool;
  opt_p_error : option Probability;
  opt_global_p_error : option Probability;
  opt_verbose : bool;
}.

Variable check_there_is_no_p_error_options_in_configuration :
  option Configuration -> result unit.
Variable manage_parameters_for_pbs_errors :
  option Probability -> option Probability ->
  result (option Probability * option Probability).
Variable generate_proxy_function :
  QuantizedModule -> list string -> ProxyFunction * list (string * string).
Variable Compiler : ProxyFunction -> list (string * string) -> CompilerObject.
Variable compiler_compile :
  CompilerObject -> inputset -> compile_options -> result Circuit.

(** [compiler.compile(inputset, ...)] *)
Definition invoke_compiler (compiler : CompilerObject) (samples : inputset)
    (options : compile_options) : M Circuit := fun w =>
  (compiler_compile compiler samples options,
   with_backend_calls (backend_calls w ++ [CompilerCompile samples]) w).

(** [Compiler(forward_proxy, {arg_name: "encrypted" for arg_name in
    orig_args_to_proxy_func_args.values()})] on the proxy of the module. *)
Definition compiler_of (m : QuantizedModule) : CompilerObject :=
  let proxy := generate_proxy_function m (ordered_module_input_names m) in
  let forward_proxy := proxy.1 in
  let orig_args_to_proxy_func_args := proxy.2 in
  Compiler forward_proxy
    (map (fun arg : string * string => (arg.2, "encrypted"))
         orig_args_to_proxy_func_args).

Definition compile (inputs : array_or_tuple)
    (configuration : option Configuration) (artifacts : option DebugArtifacts)
    (show_mlir use_virtual_lib : bool)
    (p_error global_p_error : option Probability) (verbose : bool) : M Circuit :=
  let inputs := to_tuple inputs in
  run lift (compile_checks inputs);
  do m <- get_self;
  let compiler := compiler_of m in
  do q_inputs <- quantize_input inputs;
  do samples <- lift (_get_inputset_generator q_inputs);
  run lift (check_there_is_no_p_error_options_in_configuration configuration);
  do errors <- lift (manage_parameters_for_pbs_errors p_error global_p_error);
  do circuit <- invoke_compiler compiler samples
       {| opt_configuration := configuration; opt_artifacts := artifacts;
          opt_show_mlir := show_mlir; opt_virtual := use_virtual_lib;
          opt_p_error := errors.1; opt_global_p_error := errors.2;
          opt_verbose := verbose |};
  run (fun w => (Ok tt, with_self (set_fhe_circuit (Some circuit) (self w)) w));
  ret circuit.

End Compile.

(** ** Bit-width and range report *)

Definition is_re_special (c : ascii) : bool :=
  existsb (Ascii.eqb c)
    (list_ascii_of_string "()[]{}?*+-|^$\.&~# "
     ++ ["009"; "010"; "013"; "011"; "012"]%char).

(** [re.escape] *)
Fixpoint re_escape (s : string) : string :=
  match s with
  | EmptyString => EmptyString
  | String c rest =>
      if is_re_special c then String "\" (String c (re_escape rest))
      else String c (re_escape rest)
  end.

(** The tag of an operation and all its sub-tags: [abc], [abc.cde], ... *)
Definition tag_pattern (op_instance_name_ : string) : string :=
  re_escape op_instance_name_ +:+ "(\..*)?".

(** [{"range": value_range, "bitwidth": bitwidth}] *)
Record report_entry := { range : Z * Z; bitwidth : Z }.

Definition report_step (c : Circuit) (op_names_to_report : gmap string report_entry)
    (entry : node) : gmap string report_entry :=
  let op_inst := entry.2.2 in
  let pattern := tag_pattern (op_instance_name op_inst) in
  let value_range := integer_range (graph c) pattern in
  let bitwidth_ := maximum_integer_bit_width (graph c) pattern in
  match value_range with
  | Some value_range =>
      if (0 <=? bitwidth_)%Z then
        <[op_instance_name op_inst :=
            {| range := value_range; bitwidth := bitwidth_ |}]> op_names_to_report
      else op_names_to_report
  | None => op_names_to_report
  end.

Definition bitwidth_and_range_report : M (option (gmap string report_entry)) :=
  do m <- get_self;
  match fhe_circuit m with
  | None => ret None
  | Some c => ret (Some (fold_left (report_step c) (quant_layers_dict m) ∅))
  end.

(** ** Reading a pass

    [Reported nodes layer_results info]: running [nodes] in order from
    [layer_results], some operation reports one of its inputs as not
    quantized, and [info] is the name of that input with the type of the
    operation. *)

Definition node_output (layer_results : gmap string ONNXOpInputOutputType)
    (entry : node) : ONNXOpInputOutputType :=
  (kernel entry.2.2 (resolve_inputs layer_results entry.2.1)).1.

Definition node_faults (layer_results : gmap string ONNXOpInputOutputType)
    (entry : node) : list Z :=
  (kernel entry.2.2 (resolve_inputs layer_results entry.2.1)).2.

Inductive Reported :
  list node -> gmap string ONNXOpInputOutputType -> string * string -> Prop :=
| reported_here entry rest layer_results input_idx name :
    In input_idx (node_faults layer_results entry) ->
    py_index entry.2.1 input_idx = Ok name ->
    Reported (entry :: rest) layer_results (name, op_type entry.2.2)
| reported_later entry rest layer_results info :
    Reported rest (<[entry.1 := node_output layer_results entry]> layer_results) info ->
    Reported (entry :: rest) layer_results info.

(** The debug slots of the operations, in graph order. *)
Definition debug_slots (m : QuantizedModule) : list (option nat) :=
  map (fun entry : node => debug_value_tracker entry.2.2) (quant_layers_dict m).

(** A position an operation may report: one that names an input of the
    operation, counted from the start or, negative, from the end. *)
Definition valid_position (n_inputs : nat) (input_idx : Z) : Prop :=
  (- Z.of_nat n_inputs <= input_idx < Z.of_nat n_inputs)%Z.

(** Along the pass, every operation reports positions of its own inputs. *)
Fixpoint valid_reports (nodes : list node)
    (layer_results : gmap string ONNXOpInputOutputType) : Prop :=
  match nodes with
  | [] => True
  | entry :: rest =>
      Forall (valid_position (length entry.2.1)) (node_faults layer_results entry)
      /\ valid_reports rest (<[entry.1 := node_output layer_results entry]> layer_results)
  end.

(** The records of one operation: the named inputs with its type. *)
Definition records_of (input_names : list string) (op : string)
    (positions : list Z) : list (string * string) :=
  omap (fun input_idx =>
          match py_index input_names input_idx with
          | Ok name => Some (name, op)
          | Err _ => None
          end)
       positions.

(** The records of a whole pass: those of each operation, in graph order,
    an operation being run on the results the operations before it left. *)
Fixpoint pass_records (nodes : list node)
    (layer_results : gmap string ONNXOpInputOutputType) : list (string * string) :=
  match nodes with
  | [] => []
  | entry :: rest =>
      records_of entry.2.1 (op_type entry.2.2) (node_faults layer_results entry)
      ++ pass_records rest
           (<[entry.1 := node_output layer_results entry]> layer_results)
  end.

(** ** Reading a batch *)

(** Sample [i] of [q] as a batch of one sample: what [q[[i]]] is when [q]
    has a sample [i]. *)
Definition one_sample (q : ndarray) (i : nat) : ndarray :=
  Ndarray (dtype q) (1 :: tail (shape q)) (row q (tail (shape q)) i).

(** Sample [i] of every input. *)
Definition sample_at (qvalues_ : list ndarray) (i : nat) : list ndarray :=
  map (fun q => one_sample q i) qvalues_.

(** [q] has a first axis with at least [n] samples. *)
Definition has_samples (n : nat) (q : ndarray) : Prop :=
  exists k s, shape q = k :: s /\ n <= k.

(** The backend entry point a mode is routed to, and the call it leaves
    in the world. *)
Definition circuit_call (c : Circuit) (simulate_flag : bool)
  : list ndarray -> ndarray :=
  if simulate_flag then simulate c else encrypt_run_decrypt c.

Definition backend_event_of (simulate_flag : bool) (q_value : list ndarray)
  : backend_event :=
  if simulate_flag then Simulate q_value else EncryptRunDecrypt q_value.

(** One-sample results of one type and one trailing shape. *)
Definition single_sample_result (d : DType) (t : list nat) (r : ndarray) : Prop :=
  dtype r = d /\ shape r = 1 :: t /\ well_shaped r.

(** Sample [i] of [q]: what [q[i]] is when [q] has a sample [i]. *)
Definition nth_sample (q : ndarray) (i : nat) : ndarray :=
  Ndarray (dtype q) (tail (shape q)) (row q (tail (shape q)) i).

(** What a report entry must hold for an operation name: the range and the
    bit-width the circuit gives for the pattern of that name, the range
    being present and the bit-width not negative. *)
Definition reported_by (c : Circuit) (name : string) (entry : report_entry) : Prop :=
  integer_range (graph c) (tag_pattern name) = Some (range entry)
  /\ maximum_integer_bit_width (graph c) (tag_pattern name) = bitwidth entry
  /\ (0 <= bitwidth entry)%Z.

(** [name] is the instance name of an operation of the graph. *)
Definition names_operation (nodes : list node) (name : string) : Prop :=
  exists entry : node, In entry nodes /\ op_instance_name entry.2.2 = name.

(** ** The rest of the module: construction, calls, dequantization *)

(** [self.quant_layers_dict[output_name]] *)
Definition dict_getitem (d : list node) (name : string)
  : result (list string * QuantizedOp) :=
  match list_find (fun entry : node => entry.1 = name) d with
  | Some (_, entry) => Ok entry.2
  | None => Err (Raise KeyError name)
  end.

(** Truth value of an optional tuple or dictionary: [None] and the empty
    one are false. *)
Definition truthy {A} (x : option (list A)) : bool :=
  match x with
  | Some (_ :: _) => true
  | _ => false
  end.

(** [f"{QuantizedModule.__class__.__name__} only supports a single output for
    now, got {num_outputs}"]: the class of a class is [type]. *)
Definition single_output_message (num_outputs : nat) : string :=
  "type only supports a single output for now, " +:+ "got "
  +:+ str_of_nat num_outputs.

Section Construction.

(** The quantizer [QuantizedArray] builds for an operation from its
    [n_bits] and its calibrated output statistics and parameters:
    [QuantizedArray(layer.n_bits, values=None, value_is_float=False,
    stats=layer.output_quant_stats, params=layer.output_quant_params).quantizer]. *)
Variable output_quantizer_of : QuantizedOp -> UniformQuantizer.

Definition _set_output_quantizers (output_names : list string) (d : list node)
  : result (list UniformQuantizer) :=
  map_result
    (fun output_name =>
       bind_result (dict_getitem d output_name)
         (fun entry => Ok (output_quantizer_of entry.2)))
    output_names.

(** [QuantizedModule(...)]. [Ok None] is the bare module the constructor
    leaves when an argument is missing or empty: no circuit, no
    quantizers, and neither names nor graph. *)
Definition __init__
    (ordered_module_input_names_ ordered_module_output_names_ : option (list string))
    (quant_layers_dict_ : option (list node)) : result (option QuantizedModule) :=
  if negb (truthy ordered_module_input_names_
           && truthy ordered_module_output_names_
           && truthy quant_layers_dict_)
  then Ok None
  else
    match ordered_module_input_names_, ordered_module_output_names_,
          quant_layers_dict_ with
    | Some input_names, Some output_names, Some d =>
        let num_outputs := length output_names in
        bind_result
          (assert_true (num_outputs =? 1) (single_output_message num_outputs)
             AssertionError)
          (fun _ =>
             bind_result (_set_output_quantizers output_names d)
               (fun quantizers =>
                  Ok (Some {| ordered_module_input_names := input_names;
                              ordered_module_output_names := output_names;
                              quant_layers_dict := d;
                              input_quantizers := [];
                              output_quantizers := quantizers;
                              fhe_circuit := None |})))
    | _, _, _ => Ok None
    end.

End Construction.

(** [post_processing]: there is no post-processing step. *)
Definition post_processing (values : ndarray) : M ndarray := ret values.

(** [self(x...)] *)
Definition __call__ (x : list ndarray) : M forward_result := forward x false.

Definition dequantize_output (q_values : ndarray) : M ndarray :=
  do m <- get_self;
  let real_values :=
    map (fun output_quantizer => dequant output_quantizer q_values)
        (output_quantizers m) in
  run lift (assert_true (length real_values =? 1) "" AssertionError);
  lift (py_index real_values 0%Z).

(** The array of what [forward] returned. *)
Definition prediction (r : forward_result) : ndarray :=
  match r with
  | Plain result_ => result_
  | WithTrace result_ _ => result_
  end.

(** [forward] is called without debug capture, so [q_out] is an array. *)
Definition forward_and_dequant (q_x : list ndarray) : M ndarray :=
  do q_out <- forward q_x false;
  dequantize_output (prediction q_out).

(** ** Reading a module after a pass *)

(** What [_forward] may touch in an operation is its fault slot only. *)
Definition same_operation (a b : QuantizedOp) : Prop :=
  op_type a = op_type b
  /\ op_instance_name a = op_instance_name b
  /\ kernel a = kernel b
  /\ debug_value_tracker a = debug_value_tracker b.

Definition same_node (a b : node) : Prop :=
  a.1 = b.1 /\ a.2.1 = b.2.1 /\ same_operation a.2.2 b.2.2.

(** The fault slots of the operations, in graph order. *)
Definition error_slots (m : QuantizedModule) : list (option (list Z)) :=
  map (fun entry : node => error_tracker entry.2.2) (quant_layers_dict m).

(** Everything of a module but its graph. *)
Definition same_boundary (a b : QuantizedModule) : Prop :=
  ordered_module_input_names a = ordered_module_input_names b
  /\ ordered_module_output_names a = ordered_module_output_names b
  /\ input_quantizers a = input_quantizers b
  /\ output_quantizers a = output_quantizers b
  /\ fhe_circuit a = fhe_circuit b.

(** Two graphs that compute the same: same names, same operation types
    and kernels, whatever their slots hold. *)
Definition same_computation (a b : node) : Prop :=
  a.1 = b.1 /\ a.2.1 = b.2.1
  /\ op_type a.2.2 = op_type b.2.2 /\ kernel a.2.2 = kernel b.2.2.

(** What a caller gets from [forward] once the trace is set aside. *)
Definition outcome_of (r : result forward_result) : result ndarray :=
  bind_result r (fun x => Ok (prediction x)).

(** ** Regular expressions

    The part of the syntax of Python's [re] that the patterns of this
    module are written in: characters, escaped punctuation, [.], groups,
    [*] and [?]. *)

#[warnings="-register-all"] Inductive regex :=
| Lit (c : ascii)
| AnyChar
| Seq (rs : list regex)
| Star (r : regex)
| Opt (r : regex).

Definition is_quantified (r : regex) : bool :=
  match r with
  | Star _ | Opt _ => true
  | _ => false
  end.

(** Reading of a pattern from left to right. [current] holds, last first,
    the items of the sequence being read, and [enclosing] the sequences
    left open by the groups around it. *)
Fixpoint parse_from (pattern : string) (escaped : bool) (current : list regex)
    (enclosing : list (list regex)) : option regex :=
  match pattern with
  | EmptyString =>
      if escaped then None
      else match enclosing with
           | [] => Some (Seq (rev current))
           | _ => None
           end
  | String c rest =>
      if escaped then
        if is_re_special c then parse_from rest false (Lit c :: current) enclosing
        else None
      else if Ascii.eqb c "\" then parse_from rest true current enclosing
      else if Ascii.eqb c "(" then parse_from rest false [] (current :: enclosing)
      else if Ascii.eqb c ")" then
        match enclosing with
        | outer :: enclosing' =>
            parse_from rest false (Seq (rev current) :: outer) enclosing'
        | [] => None
        end
      else if Ascii.eqb c "*" then
        match current with
        | r :: current' =>
            if is_quantified r then None
            else parse_from rest false (Star r :: current') enclosing
        | [] => None
        end
      else if Ascii.eqb c "?" then
        match current with
        | r :: current' =>
            if is_quantified r then None
            else parse_from rest false (Opt r :: current') enclosing
        | [] => None
        end
      else if Ascii.eqb c "." then parse_from rest false (AnyChar :: current) enclosing
      else if is_re_special c then None
      else parse_from rest false (Lit c :: current) enclosing
  end.

(** [re.compile(pattern)], for a pattern in the syntax above. *)
Definition re_compile (pattern : string) : option regex :=
  parse_from pattern false [] [].

(** The texts a regular expression matches from end to end; [.] is any
    character but a line feed. *)
Inductive matches : regex -> string -> Prop :=
| matches_lit c : matches (Lit c) (String c EmptyString)
| matches_any c : c <> "010"%char -> matches AnyChar (String c EmptyString)
| matches_seq_nil : matches (Seq []) EmptyString
| matches_seq_cons r rs s1 s2 :
    matches r s1 -> matches (Seq rs) s2 -> matches (Seq (r :: rs)) (s1 +:+ s2)
| matches_star_nil r : matches (Star r) EmptyString
| matches_star_cons r s1 s2 :
    matches r s1 -> matches (Star r) s2 -> matches (Star r) (s1 +:+ s2)
| matches_opt_none r : matches (Opt r) EmptyString
| matches_opt_some r s : matches r s -> matches (Opt r) s.

(** [re.compile(pattern).fullmatch(tag) is not None] *)
Definition fullmatch (pattern tag : string) : Prop :=
  exists r, re_compile pattern = Some r /\ matches r tag.

(** A text without line feed. *)
Fixpoint one_line (s : string) : Prop :=
  match s with
  | EmptyString => True
  | String c rest => c <> "010"%char /\ one_line rest
  end.

(** ** A small module

    One input [x], one identity operation producing [y], a quantizer that
    keeps the values and retypes them, and a circuit that hands back its
    first argument. *)
Module Sample.

Definition quantizer : UniformQuantizer :=
  {| n_bits := 8; quant_options := []; quant_stats := []; quant_params := [1; 0]%Z;
     quant := fun a => Ndarray int64 (shape a) (data a);
     dequant := fun a => Ndarray float64 (shape a) (data a) |}.

Definition identity : QuantizedOp :=
  {| op_type := "Identity"; op_instance_name := "identity_0";
     kernel := fun inputs => (default NoneValue (head inputs), []);
     error_tracker := None; debug_value_tracker := None |}.

(** An operation that finds its first input not to be quantized. *)
Definition suspicious : QuantizedOp :=
  {| op_type := "Gemm"; op_instance_name := "gemm_1";
     kernel := fun inputs => (default NoneValue (head inputs), [0%Z]);
     error_tracker := None; debug_value_tracker := None |}.

Definition first_argument (args : list ndarray) : ndarray :=
  default (Ndarray int64 [1] [0%Z]) (head args).

Definition circuit : Circuit :=
  {| simulate := first_argument;
     encrypt_run_decrypt := first_argument;
     graph :=
       {| integer_range := fun pattern =>
            if String.eqb pattern (tag_pattern "identity_0")
            then Some (0, 255)%Z else None;
          maximum_integer_bit_width := fun pattern =>
            if String.eqb pattern (tag_pattern "identity_0") then 8%Z else (-1)%Z |} |}.

Definition qmodule : QuantizedModule :=
  {| ordered_module_input_names := ["x"];
     ordered_module_output_names := ["y"];
     quant_layers_dict := [("y", (["x"], identity))];
     input_quantizers := [quantizer];
     output_quantizers := [quantizer];
     fhe_circuit := None |}.

(** Two operations, the second of which reports a fault on [y]. *)
Definition faulty_qmodule : QuantizedModule :=
  {| ordered_module_input_names := ["x"];
     ordered_module_output_names := ["z"];
     quant_layers_dict := [("y", (["x"], identity)); ("z", (["y"], suspicious))];
     input_quantizers := [quantizer];
     output_quantizers := [quantizer];
     fhe_circuit := None |}.

(** Two operations that each report a fault, on [x] and then on [y]. *)
Definition twice_faulty_qmodule : QuantizedModule :=
  {| ordered_module_input_names := ["x"];
     ordered_module_output_names := ["z"];
     quant_layers_dict := [("y", (["x"], suspicious)); ("z", (["y"], suspicious))];
     input_quantizers := [quantizer];
     output_quantizers := [quantizer];
     fhe_circuit := None |}.

Definition fresh (m : QuantizedModule) : world :=
  {| self := m; traces := []; backend_calls := [] |}.

Definition compiled : world := fresh (set_fhe_circuit (Some circuit) qmodule).

(** Three samples of one value each: codes and raw values. *)
Definition batch : ndarray := Ndarray int64 [3] [1; 2; 3]%Z.
Definition raw_batch : ndarray := Ndarray float64 [3] [1; 2; 3]%Z.
Definition empty_batch : ndarray := Ndarray int64 [0] [].

(** A second input aligned with [batch]: three samples of two values each. *)
Definition wide_batch : ndarray := Ndarray int64 [3; 2] [10; 11; 20; 21; 30; 31]%Z.

(** Collaborators of [compile]: no configuration conflict; error
    probabilities kept as given, both at once being refused; a proxy that
    keeps the names; a compiler that always answers [circuit]. *)
Definition no_conflict (configuration : option unit) : result unit := Ok tt.
Definition keep_errors (p_error global_p_error : option nat)
  : result (option nat * option nat) :=
  match p_error, global_p_error with
  | Some _, Some _ =>
      Err (Raise ValueError "Please only set one of (p_error, global_p_error) values")
  | _, _ => Ok (p_error, global_p_error)
  end.
Definition proxy_of (m : QuantizedModule) (names : list string)
  : list string * list (string * string) :=
  (names, map (fun name => (name, name)) names).
Definition compiler_on (forward_proxy : list string) (roles : list (string * string))
  : list (string * string) := roles.
Definition compiler (on : list (string * string)) (samples : inputset)
    (options : compile_options unit unit nat) : result Circuit := Ok circuit.


(** Every operation is given [quantizer] for its output. *)
Definition quantizer_of (layer : QuantizedOp) : UniformQuantizer := quantizer.

(** [qmodule] as the constructor leaves it: no input quantizer yet. *)
Definition constructed : QuantizedModule := set_input_quantizers [] qmodule.

End Sample.

(** * Properties *)

(** ** Strings and messages *)

Lemma string_app_assoc (a b c : string) : (a +:+ b) +:+ c = a +:+ b +:+ c.
Proof.
  induction a as [|x a IH]; [reflexivity|].
  unfold String.app in *; simpl. by rewrite IH.
Qed.

Lemma string_app_nil_r (a : string) : a +:+ "" = a.
Proof.
  induction a as [|x a IH]; [reflexivity|].
  unfold String.app in *; simpl. by rewrite IH.
Qed.

Lemma mentions_here (part after : string) : mentions (part +:+ after) part.
Proof. exists "", after. reflexivity. Qed.

Lemma mentions_self (part : string) : mentions part part.
Proof. exists "", "". unfold String.app; simpl. symmetry. apply string_app_nil_r. Qed.

Lemma mentions_app_r (before msg part : string) :
  mentions msg part -> mentions (before +:+ msg) part.
Proof.
  intros (b & a & ->). exists (before +:+ b), a.
  by rewrite string_app_assoc.
Qed.

Lemma mentions_app_l (msg after part : string) :
  mentions msg part -> mentions (msg +:+ after) part.
Proof.
  intros (b & a & ->). exists b, (a +:+ after).
  by rewrite !string_app_assoc.
Qed.

(** A joined text has every one of its parts. *)
Lemma join_mentions (sep : string) (parts : list string) (p : string) :
  In p parts -> mentions (join sep parts) p.
Proof.
  induction parts as [|x parts IH]; [intros []|].
  intros [->|Hin].
  - destruct parts as [|y parts]; simpl.
    + apply mentions_self.
    + apply mentions_here.
  - destruct parts as [|y parts]; [destruct Hin|].
    change (join sep (x :: y :: parts)) with (x +:+ sep +:+ join sep (y :: parts)).
    apply mentions_app_r, mentions_app_r, IH, Hin.
Qed.

Lemma arity_message_counts (n_values n_inputs : nat) :
  mentions (arity_message n_values n_inputs) (str_of_nat n_values)
  /\ mentions (arity_message n_values n_inputs) (str_of_nat n_inputs).
Proof.
  unfold arity_message. split.
  - apply mentions_app_r, mentions_here.
  - apply mentions_app_r, mentions_app_r, mentions_app_r, mentions_self.
Qed.

Lemma qat_message_mentions (bad_qat_ops : list (string * string)) (info : string * string) :
  In info bad_qat_ops -> mentions (qat_message bad_qat_ops) (qat_line info).
Proof.
  intros Hin. unfold qat_message.
  do 5 apply mentions_app_r. apply mentions_app_l.
  apply join_mentions, in_map, Hin.
Qed.

(** ** Arity checks *)

Lemma eqb_length_ne (a b : nat) : a <> b -> (a =? b) = false.
Proof. apply Nat.eqb_neq. Qed.

(** C6. A call to [quantize_input], [_forward] or
    [set_inputs_quantization_parameters] with a number of arguments other
    than the declared one (the number of input quantizers for the first
    two, of declared input names for the third) raises a [TypeError] whose
    message gives the number received and the number expected, and the
    world, hence the module, is as before the call. *)
Theorem arity_mismatch_raises_type_error
    (w : world) (values qvalues_ : list ndarray)
    (input_q_params : list UniformQuantizer) :
  (length values <> length (input_quantizers (self w)) ->
   quantize_input values w
   = (Err (Raise TypeError
             (arity_message (length values) (length (input_quantizers (self w))))), w))
  /\ (length qvalues_ <> length (input_quantizers (self w)) ->
      _forward qvalues_ w
      = (Err (Raise TypeError
                (arity_message (length qvalues_)
                               (length (input_quantizers (self w))))), w))
  /\ (length input_q_params <> length (ordered_module_input_names (self w)) ->
      set_inputs_quantization_parameters input_q_params w
      = (Err (Raise TypeError
                (arity_message (length input_q_params)
                               (length (ordered_module_input_names (self w))))), w))
  /\ (forall n_values n_inputs,
        mentions (arity_message n_values n_inputs) (str_of_nat n_values)
        /\ mentions (arity_message n_values n_inputs) (str_of_nat n_inputs)).
Proof.
  repeat split.
  - intros Hne. unfold quantize_input, bind, get_self, lift.
    by rewrite (eqb_length_ne _ _ Hne).
  - intros Hne. unfold _forward.
    by rewrite (eqb_length_ne _ _ Hne).
  - intros Hne. unfold set_inputs_quantization_parameters, bind, get_self, lift.
    by rewrite (eqb_length_ne _ _ Hne).
  - apply arity_message_counts.
  - apply arity_message_counts.
Qed.

(** ** The compiled-circuit precondition *)

(** C5. On a module without a compiled circuit, [forward_in_fhe] fails
    with the not-compiled state failure, whose message tells the caller to
    run [compile] first, and the world is untouched: no call has reached
    the backend. The failure is raised through [assert_true] without an
    explicit kind; [check_model_is_compiled] raises the same message as an
    [AttributeError]. *)
Theorem forward_in_fhe_not_compiled
    (w : world) (qvalues_ : list ndarray) (simulate_flag : bool) :
  fhe_circuit (self w) = None ->
  forward_in_fhe qvalues_ simulate_flag w
  = (Err (Raise AssertionError not_compiled_message), w)
  /\ check_model_is_compiled w
     = (Err (Raise AttributeError not_compiled_message), w)
  /\ mentions not_compiled_message "Please run compile(...) first"
  /\ backend_calls (forward_in_fhe qvalues_ simulate_flag w).2 = backend_calls w.
Proof.
  intros Hnone.
  assert (Hrun : forward_in_fhe qvalues_ simulate_flag w
                 = (Err (Raise AssertionError not_compiled_message), w)).
  { unfold forward_in_fhe, bind, get_self, lift. rewrite Hnone. reflexivity. }
  repeat split.
  - exact Hrun.
  - unfold check_model_is_compiled, bind, get_self, raise. by rewrite Hnone.
  - exists "The quantized module is not compiled. ", " before executing it in FHE.".
    reflexivity.
  - by rewrite Hrun.
Qed.

(** ** The integer check of [forward] *)

Lemma enumerate_from_lookup {A} (l : list A) (start i : nat) (x : A) :
  In (i, x) (enumerate_from start l) <-> start <= i /\ l !! (i - start) = Some x.
Proof.
  revert start. induction l as [|y l IH]; intros start; simpl.
  - split; [intros []|intros [_ H]; discriminate H].
  - rewrite IH. split.
    + intros [Heq|[Hle Hl]].
      * injection Heq as -> ->. rewrite Nat.sub_diag. split; [lia|reflexivity].
      * split; [lia|]. replace (i - start) with (S (i - S start)) by lia. exact Hl.
    + intros [Hle Hl]. destruct (decide (i = start)) as [->|Hne].
      * left. rewrite Nat.sub_diag in Hl. simpl in Hl. by injection Hl as ->.
      * right. split; [lia|].
        replace (i - start) with (S (i - S start)) in Hl by lia. exact Hl.
Qed.

Lemma invalid_inputs_of_spec (qvalues_ : list ndarray) (i : nat) (q : ndarray) :
  In (i, q) (invalid_inputs_of qvalues_)
  <-> qvalues_ !! i = Some q /\ is_integer (dtype q) = false.
Proof.
  unfold invalid_inputs_of. rewrite filter_In, enumerate_from_lookup, Nat.sub_0_r.
  simpl. rewrite negb_true_iff. split; [intros [[_ ?] ?]|intros [? ?]]; auto with lia.
Qed.

Lemma invalid_inputs_nonempty (qvalues_ : list ndarray) :
  (exists i q, qvalues_ !! i = Some q /\ is_integer (dtype q) = false)
  <-> invalid_inputs_of qvalues_ <> [].
Proof.
  split.
  - intros (i & q & Hq). apply invalid_inputs_of_spec in Hq.
    intros Hnil. rewrite Hnil in Hq. destruct Hq.
  - destruct (invalid_inputs_of qvalues_) as [|[i q] rest] eqn:Hinv; [done|].
    intros _. exists i, q. apply invalid_inputs_of_spec. rewrite Hinv. by left.
Qed.

Lemma not_integer_message_mentions (invalid_inputs : list (nat * ndarray))
    (val : nat * ndarray) :
  In val invalid_inputs ->
  mentions (not_integer_message invalid_inputs) (invalid_input_item val).
Proof.
  intros Hin. unfold not_integer_message.
  apply mentions_app_r, mentions_app_l, join_mentions, in_map, Hin.
Qed.

(** The failures the loop over the graph can end in. *)
Lemma fault_records_error (input_names : list string) (op : string)
    (error_tracker_ : list Z) (e : exception) :
  fault_records input_names op error_tracker_ = Err e -> exc_type e = IndexError.
Proof.
  unfold fault_records. induction error_tracker_ as [|idx rest IH]; simpl; [done|].
  unfold py_index at 1.
  repeat case_match; simplify_eq/=; try done; intros; simplify_eq/=; auto.
Qed.

Lemma run_layers_error (nodes : list node)
    (layer_results : gmap string ONNXOpInputOutputType)
    (bad_qat_ops : list (string * string)) (dicts : list debug_trace)
    (e : exception) (nodes' : list node) (dicts' : list debug_trace) :
  run_layers nodes layer_results bad_qat_ops dicts = (Err e, nodes', dicts') ->
  exc_type e = IndexError.
Proof.
  revert layer_results bad_qat_ops dicts nodes' dicts'.
  induction nodes as [|[output_name [input_names layer]] rest IH];
    intros layer_results bad_qat_ops dicts nodes' dicts'; simpl; [done|].
  destruct (call_layer _ _ _) as [[output layer1] dicts1].
  destruct (fault_records _ _ _) as [records|e'] eqn:Hrec.
  - destruct (run_layers rest _ _ _) as [[outcome rest'] dicts2] eqn:Hrun.
    intros Heq. injection Heq as -> _ _. eapply IH, Hrun.
  - intros Heq. injection Heq as -> _ _. eapply fault_records_error, Hrec.
Qed.

Lemma graph_output_error (m : QuantizedModule)
    (layer_results : gmap string ONNXOpInputOutputType)
    (bad_qat_ops : list (string * string)) (e : exception) :
  graph_output m layer_results bad_qat_ops = Err e ->
  (bad_qat_ops <> [] /\ e = Raise ValueError (qat_message bad_qat_ops))
  \/ (bad_qat_ops = [] /\ (exc_type e = KeyError \/ exc_type e = AssertionError)).
Proof.
  unfold graph_output. destruct bad_qat_ops as [|info rest]; simpl.
  - intros Herr. right. split; [done|].
    destruct (map_result _ _) as [outputs|e'] eqn:Hmap; simpl in Herr.
    + right. unfold assert_true in Herr.
      destruct (length outputs =? 1); simpl in Herr; [|by injection Herr as <-].
      repeat case_match; by simplify_eq/=.
    + left. injection Herr as <-. clear -Hmap.
      induction (ordered_module_output_names m) as [|name names IH] in Hmap |- *;
        simpl in Hmap; [done|].
      repeat case_match; simplify_eq/=; eauto.
  - intros Herr. left. split; [done|]. by injection Herr as <-.
Qed.

Lemma _forward_error (qvalues_ : list ndarray) (w w' : world) (e : exception) :
  _forward qvalues_ w = (Err e, w') ->
  exc_type e <> ValueError \/ exists bad_qat_ops, e = Raise ValueError (qat_message bad_qat_ops).
Proof.
  unfold _forward, assert_true. destruct (_ =? _).
  - destruct (run_layers _ _ _ _) as [[outcome layers] dicts] eqn:Hrun.
    destruct outcome as [[layer_results bad_qat_ops]|e'].
    + intros Heq. injection Heq as Hout _.
      apply graph_output_error in Hout as [[_ ->]|[_ [Hk|Hk]]]; eauto;
        left; rewrite Hk; done.
    + intros Heq. injection Heq as -> _. apply run_layers_error in Hrun.
      left. by rewrite Hrun.
  - intros Heq. injection Heq as <- _. by left.
Qed.

Lemma qat_message_not_integer_message (bad_qat_ops : list (string * string))
    (invalid_inputs : list (nat * ndarray)) :
  qat_message bad_qat_ops <> not_integer_message invalid_inputs.
Proof. unfold qat_message, not_integer_message. intros H. discriminate H. Qed.

(** A pass whose inputs are all integral does not end in the
    non-integer failure. *)
Lemma forward_passes_integer_check (qvalues_ : list ndarray) (debug : bool)
    (w w' : world) (invalid_inputs : list (nat * ndarray)) :
  invalid_inputs_of qvalues_ = [] ->
  forward qvalues_ debug w
  <> (Err (Raise ValueError (not_integer_message invalid_inputs)), w').
Proof.
  intros Hnil Heq. unfold forward in Heq. rewrite Hnil in Heq.
  unfold bind, lift, ret in Heq; simpl in Heq.
  destruct debug.
  - unfold new_dict, install_debug_value_tracker, read_dict in Heq.
    destruct (_forward _ _) as [[out|e] w1] eqn:Hpass; [done|].
    injection Heq as -> _.
    apply _forward_error in Hpass as [Hk|[bad Hbad]]; [done|].
    apply (f_equal exc_msg) in Hbad. simpl in Hbad. symmetry in Hbad.
    by apply qat_message_not_integer_message in Hbad.
  - destruct (_forward _ _) as [[out|e] w1] eqn:Hpass; [done|].
    injection Heq as -> _.
    apply _forward_error in Hpass as [Hk|[bad Hbad]]; [done|].
    apply (f_equal exc_msg) in Hbad. simpl in Hbad. symmetry in Hbad.
    by apply qat_message_not_integer_message in Hbad.
Qed.

(** C2. For a call to [forward] with as many inputs as the module
    declares, the call fails its integer check, a [ValueError] raised
    before anything else is done, if and only if some input array has an
    element type that is not integral; the message of that failure gives,
    for every such input, its position and its actual element type. *)
Theorem forward_integer_check
    (w : world) (qvalues_ : list ndarray) (debug : bool) :
  length qvalues_ = length (input_quantizers (self w)) ->
  ((exists i q, qvalues_ !! i = Some q /\ is_integer (dtype q) = false)
   <-> forward qvalues_ debug w
       = (Err (Raise ValueError (not_integer_message (invalid_inputs_of qvalues_))), w))
  /\ (forall i q, qvalues_ !! i = Some q -> is_integer (dtype q) = false ->
        mentions (not_integer_message (invalid_inputs_of qvalues_))
                 ("#" +:+ str_of_nat i +:+ " (" +:+ dtype_name (dtype q) +:+ ")")).
Proof.
  intros _. split; [split|].
  - intros Hbad. apply invalid_inputs_nonempty in Hbad.
    unfold forward, bind, lift.
    destruct (invalid_inputs_of qvalues_) as [|val rest]; [done|]. reflexivity.
  - intros Hfail. apply invalid_inputs_nonempty. intros Hnil.
    by apply forward_passes_integer_check in Hfail.
  - intros i q Hq Hint.
    apply (not_integer_message_mentions _ (i, q)), invalid_inputs_of_spec. auto.
Qed.

(** ** Aggregation of QAT faults *)

Lemma fault_records_spec (input_names : list string) (op : string)
    (error_tracker_ : list Z) (records : list (string * string)) :
  fault_records input_names op error_tracker_ = Ok records ->
  forall info, In info records
    <-> exists input_idx name,
          In input_idx error_tracker_
          /\ py_index input_names input_idx = Ok name /\ info = (name, op).
Proof.
  unfold fault_records. revert records.
  induction error_tracker_ as [|idx rest IH]; intros records; simpl.
  - intros [= <-] info. split; [intros []|intros (? & ? & [] & _)].
  - destruct (py_index input_names idx) as [name|e] eqn:Hidx; simpl; [|done].
    destruct (map_result _ rest) as [records'|e]; [|done].
    intros [= <-] info. simpl. rewrite (IH records' eq_refl info). split.
    + intros [<-|(i & n & Hin & Hn & ->)].
      * exists idx, name. auto.
      * exists i, n. auto.
    + intros (i & n & [->|Hin] & Hn & ->).
      * left. congruence.
      * right. exists i, n. auto.
Qed.

Lemma call_layer_kernel (layer : QuantizedOp) (seen : list Z)
    (inputs : list ONNXOpInputOutputType) (dicts : list debug_trace) :
  exists dicts',
    call_layer (set_error_tracker (Some seen) layer) inputs dicts
    = ((kernel layer inputs).1,
       set_error_tracker (Some (seen ++ (kernel layer inputs).2)) layer, dicts').
Proof.
  unfold call_layer; simpl. destruct (kernel layer inputs) as [output faults]; simpl.
  eexists. reflexivity.
Qed.

(** The pairs the loop has gathered are those it started with and those
    the operations reported, no more and no less. *)
Lemma run_layers_collects (nodes : list node)
    (layer_results : gmap string ONNXOpInputOutputType)
    (bad_qat_ops : list (string * string)) (dicts : list debug_trace)
    (layer_results' : gmap string ONNXOpInputOutputType)
    (bad_qat_ops' : list (string * string))
    (nodes' : list node) (dicts' : list debug_trace) :
  run_layers nodes layer_results bad_qat_ops dicts
  = (Ok (layer_results', bad_qat_ops'), nodes', dicts') ->
  forall info, In info bad_qat_ops'
    <-> In info bad_qat_ops \/ Reported nodes layer_results info.
Proof.
  revert layer_results bad_qat_ops dicts nodes' dicts'.
  induction nodes as [|[output_name [input_names layer]] rest IH];
    intros layer_results bad_qat_ops dicts nodes' dicts'; simpl.
  - intros [= <- <- _ _] info. split; [auto|]. intros [?|Hrep]; [done|]. inversion Hrep.
  - destruct (call_layer_kernel layer [] (resolve_inputs layer_results input_names) dicts)
      as [dicts1 ->]. simpl.
    destruct (fault_records _ _ _) as [records|e] eqn:Hrec; [|done].
    destruct (run_layers rest _ _ _) as [[outcome rest'] dicts2] eqn:Hrun.
    intros [= -> _ _] info.
    rewrite (IH _ _ _ _ _ Hrun info), in_app_iff, (fault_records_spec _ _ _ _ Hrec info).
    split.
    + intros [[?|(i & n & Hin & Hn & ->)]|Hrep]; auto.
      * right. by eapply (reported_here (output_name, (input_names, layer))).
      * right. by apply (reported_later (output_name, (input_names, layer))).
    + intros [?|Hrep]; [auto|].
      inversion Hrep as [? ? ? i n Hin Hn|? ? ? ? Hlater]; subst; simpl in *.
      * left. right. exists i, n. auto.
      * right. exact Hlater.
Qed.

(** When the loop ends normally, every operation has run: its output is
    among the results. *)
Lemma run_layers_results (nodes : list node)
    (layer_results : gmap string ONNXOpInputOutputType)
    (bad_qat_ops : list (string * string)) (dicts : list debug_trace)
    (layer_results' : gmap string ONNXOpInputOutputType)
    (bad_qat_ops' : list (string * string))
    (nodes' : list node) (dicts' : list debug_trace) :
  run_layers nodes layer_results bad_qat_ops dicts
  = (Ok (layer_results', bad_qat_ops'), nodes', dicts') ->
  (forall name, is_Some (layer_results !! name) -> is_Some (layer_results' !! name))
  /\ (forall entry : node, In entry nodes -> is_Some (layer_results' !! entry.1)).
Proof.
  revert layer_results bad_qat_ops dicts nodes' dicts'.
  induction nodes as [|[output_name [input_names layer]] rest IH];
    intros layer_results bad_qat_ops dicts nodes' dicts'; simpl.
  - intros [= <- _ _ _]. split; [auto|intros ? []].
  - destruct (call_layer _ _ _) as [[output layer1] dicts1].
    destruct (fault_records _ _ _) as [records|e]; [|done].
    destruct (run_layers rest _ _ _) as [[outcome rest'] dicts2] eqn:Hrun.
    intros [= -> _ _]. destruct (IH _ _ _ _ _ Hrun) as [Hkeep Hrest]. split.
    + intros name Hname. apply Hkeep.
      destruct (decide (output_name = name)) as [->|Hne].
      * rewrite lookup_insert_eq. eauto.
      * by rewrite lookup_insert_ne.
    + intros entry [<-|Hin]; [|by apply Hrest].
      apply Hkeep. simpl. rewrite lookup_insert_eq. eauto.
Qed.

(** A position that names an input is one the tuple of input names
    answers. *)
Lemma py_index_valid {A} (l : list A) (idx : Z) :
  valid_position (length l) idx -> exists x, py_index l idx = Ok x.
Proof.
  unfold valid_position, py_index. intros Hidx.
  set (pos := (if (idx <? 0)%Z then (idx + Z.of_nat (length l))%Z else idx)).
  assert (Hpos : (0 <= pos < Z.of_nat (length l))%Z).
  { subst pos. destruct (Z.ltb_spec idx 0); lia. }
  assert (Hin : ((0 <=? pos)%Z && (pos <? Z.of_nat (length l))%Z) = true).
  { apply andb_true_iff. split; [apply Z.leb_le|apply Z.ltb_lt]; lia. }
  rewrite Hin.
  destruct (lookup_lt_is_Some_2 l (Z.to_nat pos)) as [x ->]; [lia|]. eauto.
Qed.

Lemma fault_records_valid (input_names : list string) (op : string)
    (positions : list Z) :
  Forall (valid_position (length input_names)) positions ->
  fault_records input_names op positions
  = Ok (records_of input_names op positions).
Proof.
  unfold fault_records, records_of.
  induction 1 as [|input_idx rest Hidx _ IH]; [done|].
  destruct (py_index_valid _ _ Hidx) as [name Hname].
  simpl. rewrite Hname. simpl. by rewrite IH.
Qed.

(** When every operation reports positions of its own inputs, the loop
    runs over all the operations and ends with the records of the whole
    pass after those it started with. *)
Lemma run_layers_completes (nodes : list node)
    (layer_results : gmap string ONNXOpInputOutputType)
    (bad_qat_ops : list (string * string)) (dicts : list debug_trace) :
  valid_reports nodes layer_results ->
  exists layer_results' nodes' dicts',
    run_layers nodes layer_results bad_qat_ops dicts
    = (Ok (layer_results', bad_qat_ops ++ pass_records nodes layer_results),
       nodes', dicts').
Proof.
  revert layer_results bad_qat_ops dicts.
  induction nodes as [|[output_name [input_names layer]] rest IH];
    intros layer_results bad_qat_ops dicts; simpl.
  - intros _. exists layer_results, [], dicts. by rewrite app_nil_r.
  - intros [Hhere Hrest]. unfold node_faults, node_output in *. simpl in *.
    destruct (call_layer_kernel layer [] (resolve_inputs layer_results input_names) dicts)
      as [dicts1 ->]. simpl.
    rewrite (fault_records_valid _ _ _ Hhere).
    destruct (IH _ (bad_qat_ops
                    ++ records_of input_names (op_type layer)
                         (kernel layer (resolve_inputs layer_results input_names)).2)
                dicts1 Hrest)
      as (layer_results' & rest' & dicts2 & ->).
    rewrite <- app_assoc. eauto.
Qed.

(** C1. In a forward pass over the graph (as many inputs as input
    quantizers, every operation reporting positions of its own inputs),
    the fault records are gathered over all the operations before anything
    is raised: the loop runs to its end, every operation has run, and the
    list it leaves is the records of each operation in graph order, which
    is exactly what the operations reported; if the list is not empty,
    [_forward] raises one [ValueError] whose message is built from the
    whole list and has a line for every reported (tensor name, operation
    type) pair; if it is empty, [_forward] raises no [ValueError] at
    all. *)
Theorem forward_aggregates_qat_faults
    (w : world) (qvalues_ : list ndarray) :
  length qvalues_ = length (input_quantizers (self w)) ->
  valid_reports (quant_layers_dict (self w))
                (initial_layer_results (self w) qvalues_) ->
  (exists layer_results nodes' dicts',
     run_layers (quant_layers_dict (self w))
                (initial_layer_results (self w) qvalues_) [] (traces w)
     = (Ok (layer_results,
            pass_records (quant_layers_dict (self w))
                         (initial_layer_results (self w) qvalues_)),
        nodes', dicts')
     /\ forall entry : node,
          In entry (quant_layers_dict (self w)) ->
          is_Some (layer_results !! entry.1))
  /\ (forall info,
        In info (pass_records (quant_layers_dict (self w))
                              (initial_layer_results (self w) qvalues_))
        <-> Reported (quant_layers_dict (self w))
                     (initial_layer_results (self w) qvalues_) info)
  /\ (pass_records (quant_layers_dict (self w))
                   (initial_layer_results (self w) qvalues_) <> [] ->
      (_forward qvalues_ w).1
      = Err (Raise ValueError
               (qat_message
                  (pass_records (quant_layers_dict (self w))
                                (initial_layer_results (self w) qvalues_))))
      /\ forall info,
           Reported (quant_layers_dict (self w))
                    (initial_layer_results (self w) qvalues_) info ->
           mentions
             (qat_message
                (pass_records (quant_layers_dict (self w))
                              (initial_layer_results (self w) qvalues_)))
             ("* Tensor " +:+ info.1 +:+ ", input of an " +:+ info.2 +:+ " operation"))
  /\ (pass_records (quant_layers_dict (self w))
                   (initial_layer_results (self w) qvalues_) = [] ->
      forall msg, (_forward qvalues_ w).1 <> Err (Raise ValueError msg)).
Proof.
  intros Harity Hvalid.
  destruct (run_layers_completes _ _ [] (traces w) Hvalid)
    as (layer_results & nodes' & dicts' & Hrun).
  simpl in Hrun.
  set (bad_qat_ops := pass_records _ _) in *.
  assert (Hall : forall info,
             In info bad_qat_ops
             <-> Reported (quant_layers_dict (self w))
                          (initial_layer_results (self w) qvalues_) info).
  { intros info. rewrite (run_layers_collects _ _ _ _ _ _ _ _ Hrun info).
    split; [intros [[]|?]|]; auto. }
  assert (Hpass : (_forward qvalues_ w).1
                  = graph_output (self w) layer_results bad_qat_ops).
  { unfold _forward. rewrite Harity, Nat.eqb_refl. simpl. by rewrite Hrun. }
  split.
  { exists layer_results, nodes', dicts'. split; [exact Hrun|].
    apply (run_layers_results _ _ _ _ _ _ _ _ Hrun). }
  split; [exact Hall|]. split.
  - intros Hbad. split.
    + rewrite Hpass. unfold graph_output. by destruct bad_qat_ops.
    + intros info Hrep. apply (qat_message_mentions _ info), Hall, Hrep.
  - intros Hnil msg. rewrite Hpass, Hnil. intros Herr.
    apply graph_output_error in Herr as [[Hne _]|[_ [Hk|Hk]]]; done.
Qed.

(** ** Scope of the debug trace *)

Lemma run_layers_debug_slots (nodes : list node)
    (layer_results : gmap string ONNXOpInputOutputType)
    (bad_qat_ops : list (string * string)) (dicts : list debug_trace) :
  map (fun entry : node => debug_value_tracker entry.2.2)
      (run_layers nodes layer_results bad_qat_ops dicts).1.2
  = map (fun entry : node => debug_value_tracker entry.2.2) nodes.
Proof.
  revert layer_results bad_qat_ops dicts.
  induction nodes as [|[output_name [input_names layer]] rest IH];
    intros layer_results bad_qat_ops dicts; simpl; [done|].
  destruct (call_layer_kernel layer [] (resolve_inputs layer_results input_names) dicts)
    as [dicts1 ->]. simpl.
  destruct (fault_records _ _ _) as [records|e]; simpl; [|done].
  specialize (IH (<[output_name := (kernel layer (resolve_inputs layer_results input_names)).1]>
                    layer_results) (bad_qat_ops ++ records) dicts1).
  destruct (run_layers rest _ _ _) as [[outcome rest'] dicts2]; simpl in *.
  by rewrite IH.
Qed.

Lemma _forward_debug_slots (qvalues_ : list ndarray) (w : world) :
  debug_slots (self (_forward qvalues_ w).2) = debug_slots (self w).
Proof.
  unfold _forward, assert_true. destruct (_ =? _); [|done].
  pose proof (run_layers_debug_slots (quant_layers_dict (self w))
                (initial_layer_results (self w) qvalues_) [] (traces w)) as Hslots.
  destruct (run_layers _ _ _ _) as [[outcome layers] dicts]; simpl in Hslots.
  by destruct outcome as [[layer_results bad_qat_ops]|e].
Qed.

Lemma install_debug_value_tracker_slots (t : option nat) (w : world) :
  Forall (fun slot => slot = t)
         (debug_slots (self (install_debug_value_tracker t w).2)).
Proof.
  unfold install_debug_value_tracker, debug_slots; simpl.
  induction (quant_layers_dict (self w)) as [|entry rest IH]; simpl; auto.
Qed.

(** C9, as the code has it. A [forward] call with debug capture that
    returns has cleared the trace from every operation before returning; a
    call stopped by the integer check has installed nothing and leaves the
    world as it was; a call without debug capture installs no trace: every
    operation keeps the debug slot it had. Nothing is said here of a debug
    call whose pass fails after the trace was installed. *)
Theorem forward_debug_trace_scope (w : world) (qvalues_ : list ndarray) :
  (forall out w', forward qvalues_ true w = (Ok out, w') ->
     Forall (fun slot => slot = None) (debug_slots (self w')))
  /\ (invalid_inputs_of qvalues_ <> [] ->
      forall debug, (forward qvalues_ debug w).2 = w)
  /\ debug_slots (self (forward qvalues_ false w).2) = debug_slots (self w).
Proof.
  split; [|split].
  - intros out w'. unfold forward, bind, lift, ret, assert_true.
    destruct (_ =? 0); [|done]. simpl.
    destruct (_forward _ _) as [[result_|e] w1]; [|done].
    unfold read_dict. intros [= _ <-].
    exact (install_debug_value_tracker_slots None w1).
  - intros Hbad debug. unfold forward, bind, lift.
    by destruct (invalid_inputs_of qvalues_).
  - unfold forward, bind, lift, ret, assert_true.
    destruct (_ =? 0); [|done]. simpl.
    pose proof (_forward_debug_slots qvalues_ w) as Hslots.
    by destruct (_forward _ _) as [[result_|e] w1].
Qed.

(** C9 as stated does not hold: a debug call whose pass fails (here, no
    argument where one is declared) leaves the trace installed on the
    operation, and the next call, made without debug capture, writes its
    inputs into that dictionary. *)
Lemma forward_debug_trace_survives_failure :
  exists e w',
    forward [] true (Sample.fresh Sample.qmodule) = (Err e, w')
    /\ e = Raise TypeError "Got 0 inputs, expected 1"
    /\ debug_slots (self w') = [Some 0]
    /\ traces w' !! 0 = Some ∅
    /\ traces (forward [Sample.batch] false w').2 !! 0
       = Some {[ "identity_0" :=
                   [Quantized (make_q_input Sample.quantizer Sample.batch)] ]}.
Proof.
  eexists _, _. split; [vm_compute; reflexivity|].
  repeat split; vm_compute; reflexivity.
Qed.

(** ** Batches through the compiled circuit *)

Lemma map_result_ok {A B} (f : A -> result B) (g : A -> B) (l : list A) :
  (forall x, In x l -> f x = Ok (g x)) -> map_result f l = Ok (map g l).
Proof.
  induction l as [|x l IH]; intros Hf; simpl; [done|].
  rewrite (Hf x) by (by left). rewrite IH; [done|].
  intros y Hy. apply Hf. by right.
Qed.

Lemma take_sample_ok (n : nat) (q : ndarray) (i : nat) :
  has_samples n q -> i < n -> take_sample q i = Ok (one_sample q i).
Proof.
  intros (k & s & Hshape & Hle) Hi. unfold take_sample, one_sample.
  rewrite Hshape; simpl.
  destruct (Nat.ltb_spec i k); [done|lia].
Qed.

Lemma sample_at_ok (n : nat) (qvalues_ : list ndarray) (i : nat) :
  Forall (has_samples n) qvalues_ -> i < n ->
  map_result (fun q => take_sample q i) qvalues_ = Ok (sample_at qvalues_ i).
Proof.
  intros Hall Hi. apply map_result_ok. intros q Hq.
  apply (take_sample_ok n); [|done].
  rewrite Forall_forall in Hall. apply Hall. by apply list_elem_of_In.
Qed.

Lemma with_backend_calls_nil (w : world) :
  with_backend_calls (backend_calls w ++ []) w = w.
Proof. destruct w. unfold with_backend_calls; simpl. by rewrite app_nil_r. Qed.

(** The loop calls the backend once per position, in order, on the sample
    at that position. *)
Lemma fhe_loop_ok (c : Circuit) (simulate_flag : bool) (qvalues_ : list ndarray)
    (n : nat) (indices : list nat) (results : list ndarray) (w : world) :
  Forall (has_samples n) qvalues_ ->
  Forall (fun i => i < n) indices ->
  fhe_loop c simulate_flag qvalues_ indices results w
  = (Ok (results
         ++ map (fun i => circuit_call c simulate_flag (sample_at qvalues_ i)) indices),
     with_backend_calls
       (backend_calls w
        ++ map (fun i => backend_event_of simulate_flag (sample_at qvalues_ i)) indices)
       w).
Proof.
  intros Hall. revert results w.
  induction indices as [|i rest IH]; intros results w Hidx; simpl.
  - unfold ret. by rewrite app_nil_r, with_backend_calls_nil.
  - apply Forall_cons in Hidx as [Hi Hrest].
    unfold bind, lift. rewrite (sample_at_ok n) by done.
    unfold backend_call, circuit_call, backend_event_of.
    destruct simulate_flag; rewrite IH by done; simpl;
      by rewrite <- !app_assoc.
Qed.

Lemma promote_types_same (d : DType) : promote_types d d = d.
Proof. by destruct d. Qed.

Lemma result_type_same (d : DType) (ds : list DType) :
  Forall (fun d' => d' = d) ds -> result_type ds d = d.
Proof.
  intros Hsame. unfold result_type.
  assert (Hmain : fold_left more_knowledgeable ds d = d).
  { induction Hsame as [|d' ds' -> _ IH]; simpl; [done|].
    unfold more_knowledgeable at 2. by rewrite Nat.ltb_irrefl. }
  rewrite Hmain. simpl. rewrite !promote_types_same.
  induction Hsame as [|d' ds' -> _ IH]; simpl; [done|].
  rewrite !promote_types_same. apply IH.
  clear -Hmain. simpl in Hmain. unfold more_knowledgeable at 2 in Hmain.
  by rewrite Nat.ltb_irrefl in Hmain.
Qed.

Lemma fold_add_ones (l : list nat) (start : nat) :
  Forall (fun k => k = 1) l -> fold_left Nat.add l start = start + length l.
Proof.
  revert start. induction l as [|k l IH]; intros start; simpl; [lia|].
  intros [-> Hl]%Forall_cons. rewrite IH by done. lia.
Qed.

Lemma first_mismatch_same (idim : nat) (s : list nat) : first_mismatch idim s s = None.
Proof.
  revert idim. induction s as [|x s IH]; intros idim; simpl; [done|].
  by rewrite Nat.eqb_refl.
Qed.

Lemma concatenate_single_samples (d : DType) (t : list nat) (results : list ndarray) :
  results <> [] ->
  Forall (single_sample_result d t) results ->
  concatenate results
  = Ok (Ndarray d (length results :: t) (concat (map data results))).
Proof.
  destruct results as [|r0 rest]; [done|]. intros _ Hall.
  apply Forall_cons in Hall as [(Hd0 & Hs0 & _) Hrest].
  unfold concatenate. rewrite Hs0.
  assert (Hjoin : forall index,
             joinable_from t index rest = Ok (map (fun _ => 1) rest)).
  { clear -Hrest. induction Hrest as [|r rest' (_ & Hs & _) _ IH]; intros index;
      simpl; [done|].
    unfold joinable. rewrite Hs, decide_True by done.
    rewrite first_mismatch_same. by rewrite IH. }
  rewrite Hjoin. f_equal. f_equal.
  - rewrite Hd0. apply result_type_same.
    clear Hjoin.
    induction Hrest as [|r rest' (Hd & _) _ IH]; simpl; constructor; auto.
  - f_equal. rewrite fold_add_ones.
    + rewrite length_map. simpl. lia.
    + clear. induction rest; simpl; constructor; auto.
Qed.

(** In a concatenation of blocks of [k] elements, block [i] sits at
    offset [i * k]. *)
Lemma concat_block {A} (k : nat) (blocks : list (list A)) (i : nat) (b : list A) :
  Forall (fun block => length block = k) blocks ->
  blocks !! i = Some b ->
  take k (drop (i * k) (concat blocks)) = b.
Proof.
  revert i. induction blocks as [|b0 blocks IH]; intros i Hall Hi; [done|].
  apply Forall_cons in Hall as [Hb0 Hall].
  destruct i as [|i]; simpl in *.
  - injection Hi as ->. rewrite drop_0, take_app_length'; done.
  - rewrite drop_app_ge by lia.
    replace (k + i * k - length b0) with (i * k) by lia. by apply IH.
Qed.

Lemma take_sample_concatenated (d : DType) (t : list nat) (results : list ndarray)
    (i : nat) (r : ndarray) :
  Forall (single_sample_result d t) results ->
  results !! i = Some r ->
  take_sample (Ndarray d (length results :: t) (concat (map data results))) i = Ok r.
Proof.
  intros Hall Hi. unfold take_sample; simpl.
  pose proof (lookup_lt_Some _ _ _ Hi) as Hlt.
  destruct (Nat.ltb_spec i (length results)); [|lia].
  rewrite Forall_forall in Hall.
  destruct (Hall r) as (Hd & Hs & Hw); [by eapply list_elem_of_lookup_2|].
  unfold row; simpl.
  rewrite (concat_block (size_of t) (map data results) i (data r)).
  - destruct r as [dr sr ar]; simpl in *. by subst.
  - apply Forall_map, Forall_forall. intros r' Hr'.
    destruct (Hall r' Hr') as (_ & Hs' & Hw').
    unfold well_shaped in Hw'. rewrite Hw', Hs'. simpl. lia.
  - by rewrite list_lookup_fmap, Hi.
Qed.

(** C3, as the code has it. On a compiled module and a batch of at least
    one sample (every input having the samples of the first, the circuit
    answering each sample with a one-sample result of one type and shape),
    [forward_in_fhe] returns, in either mode, a result with as many
    samples as the batch, whose sample [i] is what the circuit returned for
    sample [i] of the inputs; the backend was called once per sample, in
    order, through [simulate] in one mode and through
    [encrypt_run_decrypt] in the other, and nothing else differs. *)
Theorem forward_in_fhe_batch_aligned
    (w : world) (c : Circuit) (qvalues_ : list ndarray) (simulate_flag : bool)
    (first : ndarray) (n : nat) (d : DType) (t : list nat) :
  fhe_circuit (self w) = Some c ->
  qvalues_ !! 0 = Some first ->
  shape0 first = Ok n ->
  0 < n ->
  Forall (has_samples n) qvalues_ ->
  (forall i, i < n ->
     single_sample_result d t (circuit_call c simulate_flag (sample_at qvalues_ i))) ->
  exists out,
    forward_in_fhe qvalues_ simulate_flag w
    = (Ok out,
       with_backend_calls
         (backend_calls w
          ++ map (fun i => backend_event_of simulate_flag (sample_at qvalues_ i))
                 (seq 0 n))
         w)
    /\ shape0 out = Ok n
    /\ (forall i, i < n ->
          map_result (fun q => take_sample q i) qvalues_ = Ok (sample_at qvalues_ i)
          /\ take_sample out i
             = Ok (circuit_call c simulate_flag (sample_at qvalues_ i))).
Proof.
  intros Hc Hfirst Hn Hpos Hall Hres.
  set (results := map (fun i => circuit_call c simulate_flag (sample_at qvalues_ i))
                      (seq 0 n)).
  assert (Hlen : length results = n) by (unfold results; by rewrite length_map, length_seq).
  assert (Hsingle : Forall (single_sample_result d t) results).
  { unfold results. apply Forall_map, Forall_forall. intros i Hi.
    apply Hres. apply elem_of_seq in Hi. lia. }
  exists (Ndarray d (n :: t) (concat (map data results))).
  split; [|split].
  - unfold forward_in_fhe, bind, get_self, lift. rewrite Hc. simpl.
    unfold py_index. destruct qvalues_ as [|q0 qs]; [done|].
    injection Hfirst as ->. simpl. rewrite Hn.
    rewrite (fhe_loop_ok c simulate_flag (first :: qs) n); [|done|].
    + cbn [fst snd]. fold results. rewrite app_nil_l.
      rewrite concatenate_single_samples with (d := d) (t := t).
      * rewrite <- Hlen. reflexivity.
      * intros Hnil. rewrite Hnil in Hlen. simpl in Hlen. lia.
      * done.
    + apply Forall_forall. intros i Hi. apply elem_of_seq in Hi. lia.
  - reflexivity.
  - intros i Hi. split; [by apply (sample_at_ok n)|].
    rewrite <- Hlen at 1. apply take_sample_concatenated; [done|].
    unfold results. rewrite list_lookup_fmap, lookup_seq_lt by done. reflexivity.
Qed.

(** C3 as stated does not hold for every batch: on a batch without
    samples no call is made and the concatenation of no result raises,
    where a result without samples was announced. *)
Lemma forward_in_fhe_empty_batch :
  shape0 Sample.empty_batch = Ok 0
  /\ forward_in_fhe [Sample.empty_batch] true Sample.compiled
     = (Err (Raise ValueError "need at least one array to concatenate"),
        Sample.compiled)
  /\ forward_in_fhe [Sample.empty_batch] false Sample.compiled
     = (Err (Raise ValueError "need at least one array to concatenate"),
        Sample.compiled).
Proof. repeat split; vm_compute; reflexivity. Qed.

(** ** The compilation input set *)

Lemma getitem_ok (n : nat) (q : ndarray) (i : nat) :
  has_samples n q -> i < n -> getitem q i = Ok (nth_sample q i).
Proof.
  intros (k & s & Hshape & Hle) Hi. unfold getitem, nth_sample.
  rewrite Hshape; simpl.
  destruct (Nat.ltb_spec i k); [done|lia].
Qed.

Lemma shape0_has_samples (q : ndarray) (n : nat) :
  shape0 q = Ok n -> has_samples n q.
Proof.
  unfold shape0, has_samples. destruct (shape q) as [|k s]; [done|].
  intros [= ->]. eauto.
Qed.

(** C4. The input set built from the quantized calibration inputs has one
    element per sample of the first input. For a single input, element
    [i] is sample [i] of that input with a leading dimension of size 1
    put back; for several inputs (each with at least the samples of the
    first), element [i] is the tuple of sample [i] of every input, each
    with a leading dimension of size 1 put back. *)
Theorem inputset_generator_elements
    (q_inputs : array_or_tuple) (first : ndarray) (others : list ndarray) (n : nat) :
  to_tuple q_inputs = first :: others ->
  shape0 first = Ok n ->
  Forall (has_samples n) others ->
  exists samples,
    _get_inputset_generator q_inputs = Ok samples
    /\ length samples = n
    /\ forall i, i < n ->
         Forall (fun q => getitem q i = Ok (nth_sample q i)
                          /\ shape0 (expand_dims0 (nth_sample q i)) = Ok 1)
                (first :: others)
         /\ (others = [] ->
             samples !! i = Some (Ok (Single (expand_dims0 (nth_sample first i)))))
         /\ (others <> [] ->
             samples !! i
             = Some (Ok (Tuple (map (fun q => expand_dims0 (nth_sample q i))
                                    (first :: others))))).
Proof.
  intros Htuple Hn Hothers.
  pose proof (shape0_has_samples _ _ Hn) as Hfirst.
  assert (Hall : Forall (has_samples n) (first :: others)) by (by constructor).
  assert (Hitems : forall i, i < n ->
            Forall (fun q => getitem q i = Ok (nth_sample q i)
                             /\ shape0 (expand_dims0 (nth_sample q i)) = Ok 1)
                   (first :: others)).
  { intros i Hi. eapply Forall_impl; [exact Hall|].
    intros q Hq. split; [by apply (getitem_ok n)|reflexivity]. }
  unfold _get_inputset_generator. rewrite Htuple.
  destruct others as [|second others].
  - simpl. unfold iter_rows. unfold shape0 in Hn.
    destruct (shape first) as [|k s] eqn:Hshape; [done|]. injection Hn as ->.
    simpl. eexists. split; [reflexivity|].
    split; [by rewrite !length_map, length_seq|].
    intros i Hi. split; [by apply Hitems|]. split; [|done]. intros _.
    rewrite !list_lookup_fmap, lookup_seq_lt by done. simpl.
    unfold nth_sample. by rewrite Hshape.
  - cbn -[map_result]. rewrite Hn. cbn -[map_result].
    eexists. split; [reflexivity|].
    split; [by rewrite length_map, length_seq|].
    intros i Hi. split; [by apply Hitems|]. split; [done|]. intros _.
    rewrite list_lookup_fmap, lookup_seq_lt by done. cbn -[map_result].
    rewrite (map_result_ok _ (fun q => expand_dims0 (nth_sample q i))); [done|].
    intros q Hq. rewrite (getitem_ok n); [done| |done].
    rewrite Forall_forall in Hall. apply Hall. by apply list_elem_of_In.
Qed.

(** ** Requirements on the calibration inputs *)

Lemma all_same_length_true (ref_len : nat) (inputs : list ndarray) :
  all_same_length ref_len inputs = Ok true
  <-> Forall (fun input => head (shape input) = Some ref_len) inputs.
Proof.
  induction inputs as [|input rest IH]; simpl.
  - split; [constructor|done].
  - rewrite Forall_cons. unfold shape0.
    destruct (shape input) as [|k s]; simpl.
    + split; [done|intros [? _]; done].
    + destruct (Nat.eqb_spec k ref_len) as [->|Hne].
      * rewrite IH. tauto.
      * split; [done|]. intros [[= ?] _]. done.
Qed.

Lemma shape0_head_agree (a : ndarray) (ref_len n : nat) :
  shape0 a = Ok ref_len -> head (shape a) = Some n -> ref_len = n.
Proof. unfold shape0. destruct (shape a); simpl; congruence. Qed.

Lemma compile_checks_ok (inputs : list ndarray) :
  compile_checks inputs = Ok tt
  <-> inputs <> []
      /\ (exists n, Forall (fun input => head (shape input) = Some n) inputs)
      /\ Forall (fun input => is_integer (dtype input) = false) inputs.
Proof.
  unfold compile_checks, py_index.
  destruct inputs as [|first rest]; [simpl; split; [done|intros [? _]; done]|].
  replace (length (first :: rest)) with (S (length rest)) by reflexivity.
  assert (Hfirst : (first :: rest) !! Z.to_nat 0 = Some first) by reflexivity.
  destruct (_ <? _)%Z eqn:Hneg; [lia|].
  destruct ((0 <=? 0)%Z && (0 <? Z.of_nat (S (length rest)))%Z) eqn:Hin;
    [|apply andb_false_iff in Hin as [?|?%Z.ltb_ge]; lia].
  rewrite Hfirst. cbn [bind_result].
  destruct (shape0 first) as [ref_len|e] eqn:Hlen; cbn [bind_result].
  - destruct (all_same_length ref_len (first :: rest)) as [same|e] eqn:Hsame;
      cbn [bind_result].
    + destruct same; cbn [assert_true bind_result].
      * apply all_same_length_true in Hsame.
        destruct (existsb _ _) eqn:Hex; cbn [negb].
        -- split; [done|]. intros (_ & _ & Hnone).
           apply existsb_exists in Hex as (a & Ha & Hint).
           rewrite Forall_forall in Hnone.
           rewrite (Hnone a) in Hint; [done|by apply list_elem_of_In].
        -- split; [|done]. intros _. split; [done|]. split; [eauto|].
           apply Forall_forall. intros a Ha.
           destruct (is_integer (dtype a)) eqn:Hint; [|done].
           assert (existsb (fun input => is_integer (dtype input)) (first :: rest) = true)
             as Hyes by (apply existsb_exists; exists a; split;
                         [by apply list_elem_of_In|done]).
           congruence.
      * split; [done|]. intros (_ & (n & Hn) & _).
        assert (all_same_length ref_len (first :: rest) = Ok true) as Hyes; [|congruence].
        apply all_same_length_true.
        by rewrite (shape0_head_agree _ _ _ Hlen (Forall_inv Hn)).
    + split; [done|]. intros (_ & (n & Hn) & _).
      assert (all_same_length ref_len (first :: rest) = Ok true) as Hyes; [|congruence].
      apply all_same_length_true.
      by rewrite (shape0_head_agree _ _ _ Hlen (Forall_inv Hn)).
  - split; [done|]. intros (_ & (n & Hn) & _).
    pose proof (Forall_inv Hn) as Hhead. unfold shape0 in Hlen.
    simpl in Hhead. by destruct (shape first).
Qed.

(** C7. [compile] fails before the compiler is invoked, leaving the world
    as it was (no compiler call, no circuit stored), whenever its
    calibration inputs break one of the two requirements: some input has a
    leading dimension other than that of the first input, or some input
    already has an integral element type. When the inputs share their
    leading dimension and none is integral, the two checks pass. *)
Theorem compile_checks_calibration_inputs
    (Configuration DebugArtifacts Probability ProxyFunction CompilerObject : Type)
    (check_configuration : option Configuration -> result unit)
    (manage_errors :
       option Probability -> option Probability ->
       result (option Probability * option Probability))
    (generate_proxy_function :
       QuantizedModule -> list string -> ProxyFunction * list (string * string))
    (Compiler : ProxyFunction -> list (string * string) -> CompilerObject)
    (compiler_compile :
       CompilerObject -> inputset ->
       compile_options Configuration DebugArtifacts Probability -> result Circuit)
    (w : world) (inputs : array_or_tuple)
    (configuration : option Configuration) (artifacts : option DebugArtifacts)
    (show_mlir use_virtual_lib : bool)
    (p_error global_p_error : option Probability) (verbose : bool) :
  ((exists first input,
      to_tuple inputs !! 0 = Some first /\ In input (to_tuple inputs)
      /\ head (shape input) <> head (shape first))
   \/ (exists input, In input (to_tuple inputs) /\ is_integer (dtype input) = true) ->
   exists e,
     compile_checks (to_tuple inputs) = Err e
     /\ compile Configuration DebugArtifacts Probability ProxyFunction CompilerObject
          check_configuration manage_errors generate_proxy_function Compiler
          compiler_compile inputs configuration artifacts
          show_mlir use_virtual_lib p_error global_p_error verbose w
        = (Err e, w))
  /\ (to_tuple inputs <> [] ->
      (exists n, Forall (fun input => head (shape input) = Some n) (to_tuple inputs)) ->
      Forall (fun input => is_integer (dtype input) = false) (to_tuple inputs) ->
      compile_checks (to_tuple inputs) = Ok tt).
Proof.
  split.
  - intros Hbroken.
    destruct (compile_checks (to_tuple inputs)) as [[]|e] eqn:Hchecks.
    + exfalso. apply compile_checks_ok in Hchecks as (_ & (n & Hn) & Hnone).
      rewrite Forall_forall in Hn, Hnone.
      destruct Hbroken as [(first & input & Hfirst & Hin & Hne)|(input & Hin & Hint)].
      * apply Hne. rewrite (Hn input) by (by apply list_elem_of_In).
        rewrite (Hn first); [done|]. by eapply list_elem_of_lookup_2.
      * rewrite (Hnone input) in Hint; [done|by apply list_elem_of_In].
    + exists e. split; [done|].
      unfold compile, bind, lift. by rewrite Hchecks.
  - intros Hne Hsame Hnone. apply compile_checks_ok. auto.
Qed.

(** ** The report *)

Lemma reported_by_unique (c : Circuit) (name : string) (e1 e2 : report_entry) :
  reported_by c name e1 -> reported_by c name e2 -> e1 = e2.
Proof.
  intros (Hr1 & Hb1 & _) (Hr2 & Hb2 & _).
  destruct e1 as [r1 b1], e2 as [r2 b2]; simpl in *. congruence.
Qed.

Lemma report_step_lookup (c : Circuit) (report : gmap string report_entry)
    (entry : node) (name : string) (e : report_entry) :
  (forall k v, report !! k = Some v -> reported_by c k v) ->
  report_step c report entry !! name = Some e
  <-> (op_instance_name entry.2.2 = name /\ reported_by c name e)
      \/ report !! name = Some e.
Proof.
  intros Hcons. unfold report_step.
  destruct (integer_range (graph c) (tag_pattern (op_instance_name entry.2.2)))
    as [value_range|] eqn:Hrange.
  - destruct (Z.leb_spec 0 (maximum_integer_bit_width (graph c)
                (tag_pattern (op_instance_name entry.2.2)))) as [Hbw|Hbw].
    + destruct (decide (op_instance_name entry.2.2 = name)) as [<-|Hne].
      * rewrite lookup_insert_eq. split.
        -- intros [= <-]. left. split; [done|]. by repeat split.
        -- intros [[_ Hrep]|Hold]; f_equal.
           ++ eapply reported_by_unique; [|exact Hrep]. by repeat split.
           ++ eapply reported_by_unique; [|by apply Hcons]. by repeat split.
      * rewrite lookup_insert_ne by done. split; [auto|]. intros [[? _]|?]; done.
    + split; [auto|]. intros [[<- (_ & Hb & Hpos)]|?]; [lia|done].
  - split; [auto|]. intros [[<- (Hr & _)]|?]; [congruence|done].
Qed.

Lemma report_step_consistent (c : Circuit) (report : gmap string report_entry)
    (entry : node) :
  (forall k v, report !! k = Some v -> reported_by c k v) ->
  forall k v, report_step c report entry !! k = Some v -> reported_by c k v.
Proof.
  intros Hcons k v Hk. apply report_step_lookup in Hk as [[_ ?]|?]; auto.
Qed.

Lemma report_fold_lookup (c : Circuit) (nodes : list node)
    (report : gmap string report_entry) (name : string) (e : report_entry) :
  (forall k v, report !! k = Some v -> reported_by c k v) ->
  fold_left (report_step c) nodes report !! name = Some e
  <-> (names_operation nodes name /\ reported_by c name e)
      \/ report !! name = Some e.
Proof.
  revert report. induction nodes as [|entry rest IH]; intros report Hcons; simpl.
  - split; [auto|]. intros [[(? & [] & _) _]|?]; done.
  - rewrite IH by (by apply report_step_consistent).
    rewrite report_step_lookup by done. unfold names_operation. split.
    + intros [[(nd & Hin & Hname) Hrep]|[[Hname Hrep]|Hold]]; auto.
      * left. split; [|done]. exists nd. simpl. auto.
      * left. split; [|done]. exists entry. simpl. auto.
    + intros [[(nd & [<-|Hin] & Hname) Hrep]|Hold]; auto.
      left. split; [|done]. exists nd. auto.
Qed.

(** ** The language of a tag pattern *)

Lemma string_app_cons (c : ascii) (a b : string) :
  String c a +:+ b = String c (a +:+ b).
Proof. reflexivity. Qed.

Lemma not_special_not (c x : ascii) :
  is_re_special x = true -> is_re_special c = false -> Ascii.eqb c x = false.
Proof.
  intros Hx Hc. destruct (Ascii.eqb_spec c x) as [->|]; [congruence|done].
Qed.

(** An escaped name is read as the sequence of its characters. *)
Lemma parse_from_escape (name rest : string) (current : list regex)
    (enclosing : list (list regex)) :
  parse_from (re_escape name +:+ rest) false current enclosing
  = parse_from rest false
      (rev (map Lit (list_ascii_of_string name)) ++ current) enclosing.
Proof.
  revert current. induction name as [|c name IH]; intros current; [done|].
  cbn [re_escape list_ascii_of_string map rev].
  rewrite <- app_assoc. cbn [app].
  destruct (is_re_special c) eqn:Hc.
  - rewrite !string_app_cons. cbn [parse_from]. rewrite Hc.
    change (Ascii.eqb "\" "\") with true. cbn iota. apply IH.
  - rewrite string_app_cons. cbn [parse_from].
    rewrite (not_special_not c "\"), (not_special_not c "("),
      (not_special_not c ")"), (not_special_not c "*"),
      (not_special_not c "?"), (not_special_not c "."), Hc by done.
    apply IH.
Qed.

Lemma re_compile_tag_pattern (name : string) :
  re_compile (tag_pattern name)
  = Some (Seq (map Lit (list_ascii_of_string name)
               ++ [Opt (Seq [Lit "."; Star AnyChar])])).
Proof.
  unfold re_compile, tag_pattern. rewrite parse_from_escape, app_nil_r.
  cbn. by rewrite rev_involutive.
Qed.

Lemma matches_literals (l : list ascii) (rs : list regex) (s : string) :
  matches (Seq (map Lit l ++ rs)) s
  <-> exists s', s = string_of_list_ascii l +:+ s' /\ matches (Seq rs) s'.
Proof.
  revert s. induction l as [|c l IH]; intros s; cbn [map app string_of_list_ascii].
  - split; [intros H; by exists s|by intros (s' & -> & H)].
  - split.
    + intros H. inversion H as [| | |r rs' s1 s2 Hhead Htail| | | |]; subst.
      inversion Hhead; subst.
      apply (proj1 (IH _)) in Htail as (s' & -> & Htail).
      exists s'. by rewrite !string_app_cons.
    + intros (s' & -> & Htail). rewrite string_app_cons.
      change (String c (string_of_list_ascii l +:+ s'))
        with (String c "" +:+ (string_of_list_ascii l +:+ s')).
      apply matches_seq_cons; [constructor|]. apply IH. eauto.
Qed.

Lemma matches_seq_one (r : regex) (s : string) :
  matches (Seq [r]) s <-> matches r s.
Proof.
  split.
  - intros H. inversion H as [| | |r' rs' s1 s2 Hhead Htail| | | |]; subst.
    inversion Htail; subst. by rewrite string_app_nil_r.
  - intros H. rewrite <- (string_app_nil_r s).
    apply matches_seq_cons; [done|constructor].
Qed.

Lemma matches_any_star (s : string) : matches (Star AnyChar) s <-> one_line s.
Proof.
  split.
  - intros H. remember (Star AnyChar) as r eqn:Hr.
    induction H as [| | | | |r' s1 s2 Hhead _ Htail IH| |]; try done.
    injection Hr as ->. inversion Hhead; subst.
    rewrite string_app_cons. cbn [one_line]. split; [done|]. by apply IH.
  - induction s as [|c s IH]; [constructor|].
    intros [Hc Hs]. change (String c s) with (String c "" +:+ s).
    apply matches_star_cons; [by constructor|by apply IH].
Qed.

(** The texts a tag pattern matches from end to end: the name itself, or
    the name, a period and anything on one line. *)
Lemma fullmatch_tag_pattern (name tag : string) :
  fullmatch (tag_pattern name) tag
  <-> tag = name \/ exists sub, tag = name +:+ "." +:+ sub /\ one_line sub.
Proof.
  unfold fullmatch. rewrite re_compile_tag_pattern. split.
  - intros (r & [= <-] & Hmatch).
    apply matches_literals in Hmatch as (s' & -> & Hmatch).
    rewrite string_of_list_ascii_of_string.
    apply (proj1 (matches_seq_one _ _)) in Hmatch.
    inversion Hmatch as [| | | | | |r'|r' s Hgroup]; subst.
    + left. apply string_app_nil_r.
    + right.
      apply (proj1 (matches_literals ["."%char] [Star AnyChar] _)) in Hgroup
        as (sub & -> & Hsub).
      apply (proj1 (matches_seq_one _ _)), (proj1 (matches_any_star _)) in Hsub.
      by exists sub.
  - intros Htag. eexists. split; [reflexivity|].
    apply matches_literals. rewrite string_of_list_ascii_of_string.
    destruct Htag as [->|(sub & -> & Hsub)].
    + exists "". split; [by rewrite string_app_nil_r|].
      apply matches_seq_one. constructor.
    + exists ("." +:+ sub). split; [done|].
      apply matches_seq_one, matches_opt_some.
      apply (matches_literals ["."%char] [Star AnyChar]).
      exists sub. split; [done|]. by apply matches_seq_one, matches_any_star.
Qed.

(** C8. Without a compiled circuit, [bitwidth_and_range_report] returns
    [None] and raises nothing. With a compiled circuit it returns a
    mapping in which a name is bound if and only if it is the instance
    name of an operation of the graph for whose tag pattern the circuit
    gives a range that is present and a maximal bit-width that is not
    negative; the entry holds exactly that range and that bit-width. The
    tag pattern of a name is a regular expression that matches, from end
    to end, the name itself and the name followed by a period and any
    sub-tag on one line, and nothing else. *)
Theorem bitwidth_and_range_report_entries (w : world) :
  (fhe_circuit (self w) = None -> bitwidth_and_range_report w = (Ok None, w))
  /\ (forall c, fhe_circuit (self w) = Some c ->
        exists report,
          bitwidth_and_range_report w = (Ok (Some report), w)
          /\ forall name entry,
               report !! name = Some entry
               <-> names_operation (quant_layers_dict (self w)) name
                   /\ integer_range (graph c) (tag_pattern name) = Some (range entry)
                   /\ maximum_integer_bit_width (graph c) (tag_pattern name)
                      = bitwidth entry
                   /\ (0 <= bitwidth entry)%Z)
  /\ (forall name tag,
        fullmatch (tag_pattern name) tag
        <-> tag = name
            \/ exists sub, tag = name +:+ "." +:+ sub /\ one_line sub).
Proof.
  unfold bitwidth_and_range_report, bind, get_self, ret. split; [|split].
  - by intros ->.
  - intros c ->. eexists. split; [reflexivity|].
    intros name entry. rewrite report_fold_lookup.
    + rewrite lookup_empty. unfold reported_by. split; [intros [?|?]|]; auto; done.
    + intros k v. by rewrite lookup_empty.
  - apply fullmatch_tag_pattern.
Qed.

(** ** The result of [quantize_input] *)


(** * The statements at work on the small module *)

Lemma arity_mismatch_raises_type_error_witness :
  quantize_input [] (Sample.fresh Sample.qmodule)
  = (Err (Raise TypeError (arity_message 0 1)), Sample.fresh Sample.qmodule)
  /\ _forward [] (Sample.fresh Sample.qmodule)
     = (Err (Raise TypeError (arity_message 0 1)), Sample.fresh Sample.qmodule)
  /\ set_inputs_quantization_parameters
       [Sample.quantizer; Sample.quantizer] (Sample.fresh Sample.qmodule)
     = (Err (Raise TypeError (arity_message 2 1)), Sample.fresh Sample.qmodule)
  /\ arity_message 2 1 = "Got 2 inputs, expected 1".
Proof.
  destruct (arity_mismatch_raises_type_error (Sample.fresh Sample.qmodule) [] []
              [Sample.quantizer; Sample.quantizer]) as (Hq & Hf & Hs & _).
  split; [apply Hq; simpl; lia|].
  split; [apply Hf; simpl; lia|].
  split; [apply Hs; simpl; lia|].
  vm_compute; reflexivity.
Defined.

Lemma forward_in_fhe_not_compiled_witness :
  fhe_circuit (self (Sample.fresh Sample.qmodule)) = None
  /\ forward_in_fhe [Sample.batch] false (Sample.fresh Sample.qmodule)
     = (Err (Raise AssertionError not_compiled_message), Sample.fresh Sample.qmodule).
Proof.
  split; [reflexivity|].
  apply (forward_in_fhe_not_compiled (Sample.fresh Sample.qmodule) [Sample.batch] false).
  reflexivity.
Defined.

Lemma forward_integer_check_witness :
  forward [Sample.raw_batch] false (Sample.fresh Sample.qmodule)
  = (Err (Raise ValueError (not_integer_message [(0, Sample.raw_batch)])),
     Sample.fresh Sample.qmodule)
  /\ not_integer_message [(0, Sample.raw_batch)]
     = "Inputs: #0 (float64) are not integer types. Make sure you quantize your input before calling forward.".
Proof.
  split; [|vm_compute; reflexivity].
  apply (forward_integer_check (Sample.fresh Sample.qmodule) [Sample.raw_batch] false).
  - reflexivity.
  - exists 0, Sample.raw_batch. split; reflexivity.
Defined.

Lemma forward_aggregates_qat_faults_witness :
  pass_records (quant_layers_dict Sample.twice_faulty_qmodule)
    (initial_layer_results Sample.twice_faulty_qmodule [Sample.batch])
  = [("x", "Gemm"); ("y", "Gemm")]
  /\ (_forward [Sample.batch] (Sample.fresh Sample.twice_faulty_qmodule)).1
     = Err (Raise ValueError (qat_message [("x", "Gemm"); ("y", "Gemm")]))
  /\ mentions (qat_message [("x", "Gemm"); ("y", "Gemm")])
       "* Tensor x, input of an Gemm operation"
  /\ mentions (qat_message [("x", "Gemm"); ("y", "Gemm")])
       "* Tensor y, input of an Gemm operation".
Proof.
  assert (Hbad : pass_records (quant_layers_dict Sample.twice_faulty_qmodule)
                   (initial_layer_results Sample.twice_faulty_qmodule [Sample.batch])
                 = [("x", "Gemm"); ("y", "Gemm")]) by (vm_compute; reflexivity).
  split; [exact Hbad|].
  destruct (forward_aggregates_qat_faults (Sample.fresh Sample.twice_faulty_qmodule)
              [Sample.batch]) as (_ & Hall & Hraise & _).
  - reflexivity.
  - simpl. repeat split; repeat constructor; unfold valid_position; simpl; lia.
  - simpl self in *. rewrite Hbad in *.
    destruct Hraise as [Hraise Hlines]; [discriminate|].
    split; [exact Hraise|]. split.
    + apply (Hlines ("x", "Gemm")), Hall. by left.
    + apply (Hlines ("y", "Gemm")), Hall. right. by left.
Defined.

Lemma forward_debug_trace_scope_witness :
  Forall (fun slot => slot = None)
    (debug_slots (self (forward [Sample.batch] true (Sample.fresh Sample.qmodule)).2)).
Proof.
  eapply (proj1 (forward_debug_trace_scope (Sample.fresh Sample.qmodule) [Sample.batch])).
  vm_compute. reflexivity.
Defined.

Lemma forward_in_fhe_batch_aligned_witness :
  exists out,
    (forward_in_fhe [Sample.batch] true Sample.compiled).1 = Ok out
    /\ shape0 out = Ok 3
    /\ take_sample out 1 = Ok (Ndarray int64 [1] [2%Z]).
Proof.
  destruct (forward_in_fhe_batch_aligned Sample.compiled Sample.circuit
              [Sample.batch] true Sample.batch 3 int64 [])
    as (out & Hrun & Hshape & Hsamples).
  - reflexivity.
  - reflexivity.
  - reflexivity.
  - lia.
  - repeat constructor. exists 3, []. split; [reflexivity|lia].
  - intros i Hi. destruct i as [|[|[|i]]]; [| | |lia];
      repeat split; vm_compute; reflexivity.
  - exists out. split; [by rewrite Hrun|]. split; [exact Hshape|].
    destruct (Hsamples 1) as [_ Hone]; [lia|]. exact Hone.
Defined.

Lemma inputset_generator_elements_witness :
  exists samples,
    _get_inputset_generator (Tuple [Sample.batch; Sample.wide_batch]) = Ok samples
    /\ length samples = 3
    /\ samples !! 2
       = Some (Ok (Tuple [Ndarray int64 [1] [3%Z]; Ndarray int64 [1; 2] [30; 31]%Z])).
Proof.
  destruct (inputset_generator_elements (Tuple [Sample.batch; Sample.wide_batch])
              Sample.batch [Sample.wide_batch] 3)
    as (samples & Hgen & Hlen & Hitems).
  - reflexivity.
  - reflexivity.
  - repeat constructor. exists 3, [2]. split; [reflexivity|lia].
  - exists samples. split; [exact Hgen|]. split; [exact Hlen|].
    destruct (Hitems 2) as (_ & _ & Htuple); [lia|].
    rewrite Htuple by discriminate. vm_compute. reflexivity.
Defined.

Lemma compile_checks_calibration_inputs_witness :
  compile unit unit nat (list string) (list (string * string))
    Sample.no_conflict Sample.keep_errors Sample.proxy_of Sample.compiler_on
    Sample.compiler
    (Single Sample.batch) None None false false None None false
    (Sample.fresh Sample.qmodule)
  = (Err (Raise AssertionError already_quantized_message), Sample.fresh Sample.qmodule)
  /\ compile_checks (to_tuple (Tuple [Sample.raw_batch; Sample.raw_batch])) = Ok tt.
Proof.
  split.
  - destruct (proj1 (compile_checks_calibration_inputs unit unit nat
                       (list string) (list (string * string))
                       Sample.no_conflict Sample.keep_errors Sample.proxy_of
                       Sample.compiler_on Sample.compiler
                       (Sample.fresh Sample.qmodule) (Single Sample.batch)
                       None None false false None None false))
      as (e & Hchecks & Hcompile).
    + right. exists Sample.batch. split; [by left|reflexivity].
    + rewrite Hcompile. vm_compute in Hchecks. by injection Hchecks as <-.
  - apply (proj2 (compile_checks_calibration_inputs unit unit nat
                    (list string) (list (string * string))
                    Sample.no_conflict Sample.keep_errors Sample.proxy_of
                    Sample.compiler_on Sample.compiler
                    (Sample.fresh Sample.qmodule)
                    (Tuple [Sample.raw_batch; Sample.raw_batch])
                    None None false false None None false)).
    + discriminate.
    + exists 3. repeat constructor.
    + repeat constructor.
Defined.

Lemma bitwidth_and_range_report_entries_witness :
  (exists report,
     bitwidth_and_range_report Sample.compiled = (Ok (Some report), Sample.compiled)
     /\ report !! "identity_0" = Some {| range := (0, 255)%Z; bitwidth := 8 |})
  /\ bitwidth_and_range_report (Sample.fresh Sample.qmodule)
     = (Ok None, Sample.fresh Sample.qmodule)
  /\ tag_pattern "identity_0" = "identity_0(\..*)?"
  /\ fullmatch (tag_pattern "identity_0") "identity_0"
  /\ fullmatch (tag_pattern "identity_0") "identity_0.bias.add"
  /\ ~ fullmatch (tag_pattern "identity_0") "identity_01".
Proof.
  split; [|split; [|split; [reflexivity|split; [|split]]]].
  - destruct (proj1 (proj2 (bitwidth_and_range_report_entries Sample.compiled))
                Sample.circuit)
      as (report & Hrun & Hentries); [reflexivity|].
    exists report. split; [exact Hrun|].
    apply Hentries. split.
    + exists ("y", (["x"], Sample.identity)). split; [by left|reflexivity].
    + repeat split; vm_compute; try reflexivity. discriminate.
  - apply (proj1 (bitwidth_and_range_report_entries (Sample.fresh Sample.qmodule))).
    reflexivity.
  - apply (proj2 (proj2 (bitwidth_and_range_report_entries Sample.compiled))
             "identity_0" "identity_0").
    by left.
  - apply (proj2 (proj2 (bitwidth_and_range_report_entries Sample.compiled))
             "identity_0" "identity_0.bias.add").
    right. exists "bias.add". split; [reflexivity|].
    simpl. repeat split; discriminate.
  - intros Hmatch.
    apply (proj2 (proj2 (bitwidth_and_range_report_entries Sample.compiled))
             "identity_0" "identity_01") in Hmatch.
    destruct Hmatch as [Hsame|(sub & Hsub & _)]; discriminate.
Defined.


(** * Further properties of the module *)

(** ** What a pass leaves behind *)

Lemma call_layer_dicts_length (layer : QuantizedOp)
    (inputs : list ONNXOpInputOutputType) (dicts : list debug_trace) :
  length (call_layer layer inputs dicts).2 = length dicts.
Proof.
  unfold call_layer. destruct (kernel layer inputs) as [output faults].
  destruct (debug_value_tracker layer); simpl; [apply length_alter|done].
Qed.

Lemma same_node_refl (entry : node) : same_node entry entry.
Proof. by repeat split. Qed.

(** The loop keeps the graph: names, input names and operations, up to
    the fault slots; the dictionaries stay as many as they were. *)
Lemma run_layers_frame (nodes : list node)
    (layer_results : gmap string ONNXOpInputOutputType)
    (bad_qat_ops : list (string * string)) (dicts : list debug_trace) :
  Forall2 same_node nodes (run_layers nodes layer_results bad_qat_ops dicts).1.2
  /\ length (run_layers nodes layer_results bad_qat_ops dicts).2 = length dicts.
Proof.
  revert layer_results bad_qat_ops dicts.
  induction nodes as [|[output_name [input_names layer]] rest IH];
    intros layer_results bad_qat_ops dicts; simpl; [by split|].
  pose proof (call_layer_dicts_length (set_error_tracker (Some []) layer)
                (resolve_inputs layer_results input_names) dicts) as Hlen.
  destruct (call_layer_kernel layer [] (resolve_inputs layer_results input_names) dicts)
    as [dicts1 Hcall]. rewrite Hcall in Hlen |- *. simpl in Hlen |- *.
  destruct (fault_records _ _ _) as [records|e]; simpl.
  - specialize (IH (<[output_name := (kernel layer (resolve_inputs layer_results input_names)).1]>
                      layer_results) (bad_qat_ops ++ records) dicts1).
    destruct (run_layers rest _ _ _) as [[outcome rest'] dicts2]; simpl in *.
    destruct IH as [Hnodes Hdicts]. split; [|congruence].
    constructor; [by repeat split|done].
  - split; [|done]. constructor; [by repeat split|].
    apply Forall2_same_length_lookup_2; [done|].
    intros i x y Hx Hy. rewrite Hx in Hy. injection Hy as <-. apply same_node_refl.
Qed.

(** When the loop runs to its end, no operation keeps a fault list. *)
Lemma run_layers_clears (nodes : list node)
    (layer_results : gmap string ONNXOpInputOutputType)
    (bad_qat_ops : list (string * string)) (dicts : list debug_trace)
    (final : gmap string ONNXOpInputOutputType * list (string * string))
    (nodes' : list node) (dicts' : list debug_trace) :
  run_layers nodes layer_results bad_qat_ops dicts = (Ok final, nodes', dicts') ->
  Forall (fun entry : node => error_tracker entry.2.2 = None) nodes'.
Proof.
  revert layer_results bad_qat_ops dicts nodes' dicts'.
  induction nodes as [|[output_name [input_names layer]] rest IH];
    intros layer_results bad_qat_ops dicts nodes' dicts'; simpl.
  - intros [= _ <- _]. constructor.
  - destruct (call_layer _ _ _) as [[output layer1] dicts1].
    destruct (fault_records _ _ _) as [records|e]; [|done].
    destruct (run_layers rest _ _ _) as [[outcome rest'] dicts2] eqn:Hrun.
    intros [= -> <- _]. constructor; [done|]. eapply IH, Hrun.
Qed.

(** What [_forward] does, read on the loop: the arity check, then the
    loop, then the reading of the output. *)
Lemma _forward_unfold (qvalues_ : list ndarray) (w : world) :
  length qvalues_ = length (input_quantizers (self w)) ->
  _forward qvalues_ w
  = let pass := run_layers (quant_layers_dict (self w))
                  (initial_layer_results (self w) qvalues_) [] (traces w) in
    (match pass.1.1 with
     | Err e => Err e
     | Ok final => graph_output (self w) final.1 final.2
     end,
     with_traces pass.2 (with_self (set_quant_layers_dict pass.1.2 (self w)) w)).
Proof.
  intros Hlen. unfold _forward. rewrite Hlen, Nat.eqb_refl. simpl.
  destruct (run_layers _ _ _ _) as [[outcome layers] dicts]; simpl.
  by destruct outcome as [[layer_results bad_qat_ops]|e].
Qed.

Lemma _forward_arity (qvalues_ : list ndarray) (w : world) :
  length qvalues_ <> length (input_quantizers (self w)) ->
  _forward qvalues_ w
  = (Err (Raise TypeError
            (arity_message (length qvalues_) (length (input_quantizers (self w))))), w).
Proof. intros Hne. unfold _forward. by rewrite (eqb_length_ne _ _ Hne). Qed.

(** X1. Whatever its outcome, [_forward] changes nothing of the world but
    the fault slots of the operations and the contents of the debug
    dictionaries: names, quantizers and circuit are as before, the graph
    has the same entries in the same order with the same operation types,
    instance names, kernels and debug slots, no backend call is made and
    no dictionary is created or dropped. *)
Theorem _forward_frame (qvalues_ : list ndarray) (w : world) :
  same_boundary (self (_forward qvalues_ w).2) (self w)
  /\ Forall2 same_node (quant_layers_dict (self w))
             (quant_layers_dict (self (_forward qvalues_ w).2))
  /\ backend_calls (_forward qvalues_ w).2 = backend_calls w
  /\ length (traces (_forward qvalues_ w).2) = length (traces w).
Proof.
  destruct (decide (length qvalues_ = length (input_quantizers (self w)))) as [Hlen|Hne].
  - rewrite (_forward_unfold _ _ Hlen). cbn [fst snd].
    destruct (run_layers_frame (quant_layers_dict (self w))
                (initial_layer_results (self w) qvalues_) [] (traces w))
      as [Hnodes Hdicts].
    split; [by repeat split|]. by repeat split.
  - rewrite (_forward_arity _ _ Hne). cbn [fst snd].
    split; [by repeat split|]. split; [|done].
    apply Forall2_same_length_lookup_2; [done|].
    intros i x y Hx Hy. rewrite Hx in Hy. injection Hy as <-. apply same_node_refl.
Qed.

(** X2. When [_forward] returns, or raises the aggregated QAT error, the
    loop has run to its end and every operation of the graph has its
    fault slot back to [None], whatever the slot held before the call. *)
Theorem _forward_clears_error_trackers
    (qvalues_ : list ndarray) (w w' : world) (r : result ndarray) :
  _forward qvalues_ w = (r, w') ->
  (exists out, r = Ok out) \/ (exists msg, r = Err (Raise ValueError msg)) ->
  Forall (fun slot => slot = None) (error_slots (self w')).
Proof.
  intros Hrun Hr.
  destruct (decide (length qvalues_ = length (input_quantizers (self w)))) as [Hlen|Hne].
  - rewrite (_forward_unfold _ _ Hlen) in Hrun. cbn zeta in Hrun.
    destruct (run_layers _ _ _ _) as [[outcome layers] dicts] eqn:Hloop.
    cbn [fst snd] in Hrun. injection Hrun as <- <-.
    destruct outcome as [final|e].
    + unfold error_slots. simpl. apply Forall_map.
      eapply run_layers_clears, Hloop.
    + apply run_layers_error in Hloop.
      destruct Hr as [[out [=]]|[msg [= ->]]]. done.
  - rewrite (_forward_arity _ _ Hne) in Hrun. injection Hrun as <- <-.
    destruct Hr as [[out [=]]|[msg [=]]].
Qed.

(** X3. [_forward] returns only when the module declares exactly one
    output name, no operation reported a fault, and the value the loop
    left under that name is a quantized array; what it returns is the
    integer codes of that array. *)
Theorem _forward_returns_the_single_output
    (qvalues_ : list ndarray) (w w' : world) (out : ndarray) :
  _forward qvalues_ w = (Ok out, w') ->
  length qvalues_ = length (input_quantizers (self w))
  /\ exists name layer_results nodes' dicts' q,
       ordered_module_output_names (self w) = [name]
       /\ run_layers (quant_layers_dict (self w))
            (initial_layer_results (self w) qvalues_) [] (traces w)
          = (Ok (layer_results, []), nodes', dicts')
       /\ layer_results !! name = Some (Quantized q)
       /\ out = qvalues q.
Proof.
  intros Hrun.
  destruct (decide (length qvalues_ = length (input_quantizers (self w)))) as [Hlen|Hne];
    [|by rewrite (_forward_arity _ _ Hne) in Hrun].
  split; [done|]. rewrite (_forward_unfold _ _ Hlen) in Hrun. cbn zeta in Hrun.
  destruct (run_layers _ _ _ _) as [[outcome layers] dicts] eqn:Hloop.
  cbn [fst snd] in Hrun. injection Hrun as Hout _.
  destruct outcome as [[layer_results bad_qat_ops]|e]; [|done].
  cbn [fst snd] in Hout. unfold graph_output in Hout.
  destruct bad_qat_ops as [|info bad]; [|done]. cbn [length Nat.ltb Nat.leb] in Hout.
  destruct (ordered_module_output_names (self w)) as [|name [|name2 names]] eqn:Hnames.
  - done.
  - cbn [map_result] in Hout.
    destruct (layer_results !! name) as [v|] eqn:Hv; [|done].
    cbn in Hout. destruct v as [|a|q]; try done.
    injection Hout as <-. by exists name, layer_results, layers, dicts, q.
  - cbn [map_result] in Hout.
    destruct (layer_results !! name) as [v|]; [|done].
    destruct (layer_results !! name2) as [v2|]; [|done].
    destruct (map_result _ names) as [vs|e]; [|done]. done.
Qed.

(** ** Debug capture *)

(** The outcome of the loop depends on the computation only: neither on
    what the slots of the operations hold nor on the dictionaries. *)
Lemma run_layers_outcome_independent (nodes1 nodes2 : list node)
    (layer_results : gmap string ONNXOpInputOutputType)
    (bad_qat_ops : list (string * string)) (dicts1 dicts2 : list debug_trace) :
  Forall2 same_computation nodes1 nodes2 ->
  (run_layers nodes1 layer_results bad_qat_ops dicts1).1.1
  = (run_layers nodes2 layer_results bad_qat_ops dicts2).1.1.
Proof.
  intros Hsame. revert layer_results bad_qat_ops dicts1 dicts2.
  induction Hsame as [|[name1 [ins1 layer1]] [name2 [ins2 layer2]] rest1 rest2
                        (Hname & Hins & Hop & Hkernel) _ IH];
    intros layer_results bad_qat_ops dicts1 dicts2; [done|].
  simpl in Hname, Hins, Hop, Hkernel. subst name2 ins2. simpl.
  destruct (call_layer_kernel layer1 [] (resolve_inputs layer_results ins1) dicts1)
    as [dicts1' ->].
  destruct (call_layer_kernel layer2 [] (resolve_inputs layer_results ins1) dicts2)
    as [dicts2' ->].
  simpl. rewrite <- Hkernel, <- Hop.
  destruct (fault_records _ _ _) as [records|e]; [|done].
  specialize (IH (<[name1 := (kernel layer1 (resolve_inputs layer_results ins1)).1]>
                    layer_results) (bad_qat_ops ++ records) dicts1' dicts2').
  destruct (run_layers rest1 _ _ _) as [[outcome1 rest1'] d1].
  destruct (run_layers rest2 _ _ _) as [[outcome2 rest2'] d2].
  exact IH.
Qed.

Lemma _forward_outcome_independent (qvalues_ : list ndarray) (w1 w2 : world) :
  ordered_module_input_names (self w1) = ordered_module_input_names (self w2) ->
  ordered_module_output_names (self w1) = ordered_module_output_names (self w2) ->
  input_quantizers (self w1) = input_quantizers (self w2) ->
  Forall2 same_computation (quant_layers_dict (self w1)) (quant_layers_dict (self w2)) ->
  (_forward qvalues_ w1).1 = (_forward qvalues_ w2).1.
Proof.
  intros Hins Houts Hq Hgraph.
  destruct (decide (length qvalues_ = length (input_quantizers (self w2)))) as [Hlen|Hne].
  - rewrite (_forward_unfold qvalues_ w2 Hlen).
    rewrite (_forward_unfold qvalues_ w1) by (by rewrite Hq).
    cbn [fst snd].
    assert (Hinit : initial_layer_results (self w1) qvalues_
                    = initial_layer_results (self w2) qvalues_)
      by (unfold initial_layer_results; by rewrite Hins, Hq).
    rewrite Hinit.
    rewrite (run_layers_outcome_independent _ _ _ _ (traces w1) (traces w2) Hgraph).
    destruct (run_layers (quant_layers_dict (self w2)) _ _ _).1.1 as [final|e]; [|done].
    unfold graph_output. by rewrite Houts.
  - rewrite (_forward_arity qvalues_ w2 Hne).
    rewrite (_forward_arity qvalues_ w1) by (by rewrite Hq).
    by rewrite Hq.
Qed.

Lemma install_same_computation (t : option nat) (nodes : list node) :
  Forall2 same_computation
    (map (fun entry : node =>
            (entry.1, (entry.2.1, set_debug_value_tracker t entry.2.2))) nodes)
    nodes.
Proof. induction nodes as [|entry rest IH]; simpl; constructor; [by repeat split|done]. Qed.

(** X4. Debug capture does not change what [forward] computes: with and
    without it the call returns the same array, or raises the same
    exception. *)
Theorem forward_debug_same_outcome (qvalues_ : list ndarray) (w : world) :
  outcome_of (forward qvalues_ true w).1 = outcome_of (forward qvalues_ false w).1.
Proof.
  unfold forward, bind, lift, ret, assert_true.
  destruct (_ =? 0); [|done]. cbn [fst snd].
  unfold new_dict. cbn [fst snd].
  pose proof (_forward_outcome_independent qvalues_
                (install_debug_value_tracker (Some (length (traces w)))
                   (with_traces (traces w ++ [∅]) w)).2 w
                eq_refl eq_refl eq_refl (install_same_computation _ _)) as Hsame.
  unfold install_debug_value_tracker in *. cbn [fst snd] in *.
  destruct (_forward qvalues_ (with_self _ _)) as [[out1|e1] w1];
    destruct (_forward qvalues_ w) as [[out2|e2] w2]; simpl in *; congruence.
Qed.

Lemma call_layer_dicts (layer : QuantizedOp)
    (inputs : list ONNXOpInputOutputType) (dicts : list debug_trace) :
  (call_layer layer inputs dicts).2
  = match debug_value_tracker layer with
    | Some ref => alter (fun d => <[op_instance_name layer := inputs]> d) ref dicts
    | None => dicts
    end.
Proof. unfold call_layer. by destruct (kernel layer inputs). Qed.

(** With one dictionary installed on every operation, a loop that runs to
    its end has added to it the instance name of every operation. *)
Lemma run_layers_records_names (nodes : list node)
    (layer_results : gmap string ONNXOpInputOutputType)
    (bad_qat_ops : list (string * string)) (dicts : list debug_trace)
    (ref : nat) (d : debug_trace)
    (final : gmap string ONNXOpInputOutputType * list (string * string))
    (nodes' : list node) (dicts' : list debug_trace) :
  Forall (fun entry : node => debug_value_tracker entry.2.2 = Some ref) nodes ->
  dicts !! ref = Some d ->
  run_layers nodes layer_results bad_qat_ops dicts = (Ok final, nodes', dicts') ->
  exists d',
    dicts' !! ref = Some d'
    /\ forall name, is_Some (d' !! name)
         <-> is_Some (d !! name) \/ names_operation nodes name.
Proof.
  revert layer_results bad_qat_ops dicts d nodes' dicts'.
  induction nodes as [|[output_name [input_names layer]] rest IH];
    intros layer_results bad_qat_ops dicts d nodes' dicts' Hslots Hd; simpl.
  - intros [= _ _ <-]. exists d. split; [done|]. intros name.
    split; [auto|]. intros [?|(? & [] & _)]; done.
  - apply Forall_cons in Hslots as [Hslot Hslots]. simpl in Hslot.
    pose proof (call_layer_dicts (set_error_tracker (Some []) layer)
                  (resolve_inputs layer_results input_names) dicts) as Hdicts.
    destruct (call_layer _ _ _) as [[output layer1] dicts1].
    simpl in Hdicts. rewrite Hslot in Hdicts.
    destruct (fault_records _ _ _) as [records|e]; [|done].
    destruct (run_layers rest _ _ _) as [[outcome rest'] dicts2] eqn:Hrun.
    intros [= -> _ <-].
    assert (Hd1 : dicts1 !! ref
                  = Some (<[op_instance_name layer
                            := resolve_inputs layer_results input_names]> d)).
    { rewrite Hdicts, list_lookup_alter_eq, Hd. done. }
    destruct (IH _ _ _ _ _ _ Hslots Hd1 Hrun) as (d' & Hd' & Hkeys).
    exists d'. split; [done|]. intros name. rewrite Hkeys.
    unfold names_operation. split.
    + intros [Hin|(entry & Hentry & Hname)].
      * destruct (decide (op_instance_name layer = name)) as [<-|Hne].
        -- right. exists (output_name, (input_names, layer)). split; [by left|done].
        -- rewrite lookup_insert_ne in Hin by done. by left.
      * right. exists entry. split; [by right|done].
    + intros [Hin|(entry & [<-|Hentry] & Hname)].
      * left. destruct (decide (op_instance_name layer = name)) as [<-|Hne].
        -- rewrite lookup_insert_eq. eauto.
        -- by rewrite lookup_insert_ne.
      * left. simpl in Hname. rewrite <- Hname, lookup_insert_eq. eauto.
      * right. exists entry. auto.
Qed.

Lemma install_names_operation (t : option nat) (nodes : list node) (name : string) :
  names_operation
    (map (fun entry : node =>
            (entry.1, (entry.2.1, set_debug_value_tracker t entry.2.2))) nodes) name
  <-> names_operation nodes name.
Proof.
  unfold names_operation. split.
  - intros (entry & Hin & Hname). apply in_map_iff in Hin as (entry0 & <- & Hin0).
    exists entry0. auto.
  - intros (entry & Hin & Hname).
    exists (entry.1, (entry.2.1, set_debug_value_tracker t entry.2.2)).
    split; [|done]. apply in_map_iff. exists entry. auto.
Qed.

(** X5. A [forward] call with debug capture that returns hands back a
    trace whose keys are exactly the instance names of the operations of
    the graph: every operation has recorded its inputs and nothing else
    was written. The trace is the dictionary the call created. *)
Theorem forward_debug_trace_keys
    (qvalues_ : list ndarray) (w w' : world) (r : forward_result) :
  forward qvalues_ true w = (Ok r, w') ->
  exists out trace_,
    r = WithTrace out trace_
    /\ traces w' !! length (traces w) = Some trace_
    /\ forall name, is_Some (trace_ !! name)
         <-> names_operation (quant_layers_dict (self w)) name.
Proof.
  unfold forward, bind, lift, ret, assert_true.
  destruct (_ =? 0); [|done]. cbn [fst snd].
  unfold new_dict, install_debug_value_tracker at 1. cbn [fst snd].
  set (ref := length (traces w)).
  set (w2 := with_self _ _).
  assert (Hsize : length qvalues_ = length (input_quantizers (self w2))
                  \/ length qvalues_ <> length (input_quantizers (self w2))) by lia.
  destruct Hsize as [Hlen|Hne]; [|by rewrite (_forward_arity _ _ Hne)].
  rewrite (_forward_unfold _ _ Hlen). cbn zeta.
  destruct (run_layers _ _ _ _) as [[outcome layers] dicts] eqn:Hloop.
  cbn [fst snd]. destruct outcome as [final|e]; [|done].
  destruct (graph_output _ _ _) as [out|e]; [|done].
  unfold install_debug_value_tracker, read_dict. cbn [fst snd].
  intros [= <- <-]. cbn [traces with_self with_traces self].
  assert (Hslots : Forall (fun entry : node => debug_value_tracker entry.2.2 = Some ref)
                     (quant_layers_dict (self w2))).
  { unfold w2. cbn [self with_self quant_layers_dict set_quant_layers_dict].
    apply Forall_map, Forall_forall. done. }
  assert (Hempty : traces w2 !! ref = Some (∅ : debug_trace)).
  { unfold w2. cbn [traces with_self with_traces]. by apply list_lookup_middle. }
  destruct (run_layers_records_names _ _ _ _ ref ∅ _ _ _ Hslots Hempty Hloop)
    as (d' & Hd' & Hkeys).
  exists out, d'. rewrite Hd'. split; [done|]. split; [done|].
  intros name. rewrite Hkeys, lookup_empty.
  unfold w2. cbn [self with_self with_traces quant_layers_dict set_quant_layers_dict].
  rewrite install_names_operation. split; [intros [[? [=]]|?]|]; auto.
Qed.

(** ** Input quantizers *)

Lemma _forward_same_boundary (qvalues_ : list ndarray) (w : world) :
  same_boundary (self (_forward qvalues_ w).2) (self w).
Proof.
  destruct (decide (length qvalues_ = length (input_quantizers (self w)))) as [Hlen|Hne].
  - rewrite (_forward_unfold _ _ Hlen). by repeat split.
  - rewrite (_forward_arity _ _ Hne). by repeat split.
Qed.

(** Past its arity check, [_forward] raises no [TypeError]. *)
Lemma _forward_error_kind (qvalues_ : list ndarray) (w : world) (e : exception) :
  length qvalues_ = length (input_quantizers (self w)) ->
  (_forward qvalues_ w).1 = Err e ->
  exc_type e <> TypeError.
Proof.
  intros Hlen. rewrite (_forward_unfold _ _ Hlen). cbn zeta.
  destruct (run_layers _ _ _ _) as [[outcome layers] dicts] eqn:Hloop. cbn [fst snd].
  destruct outcome as [final|e'].
  - intros Hout. apply graph_output_error in Hout as [[_ ->]|[_ [Hk|Hk]]];
      [done|by rewrite Hk..].
  - intros [= ->]. apply run_layers_error in Hloop. by rewrite Hloop.
Qed.

(** X6. [set_inputs_quantization_parameters] called with one quantizer per
    declared input name replaces the input quantizers by the given ones,
    whatever list was there before, and touches nothing else. From then
    on the arity that [quantize_input] and [_forward] check is the number
    of declared input names. *)
Theorem set_inputs_quantization_parameters_replaces
    (w : world) (input_q_params : list UniformQuantizer) :
  length input_q_params = length (ordered_module_input_names (self w)) ->
  exists w',
    set_inputs_quantization_parameters input_q_params w = (Ok tt, w')
    /\ input_quantizers (self w') = input_q_params
    /\ ordered_module_input_names (self w') = ordered_module_input_names (self w)
    /\ ordered_module_output_names (self w') = ordered_module_output_names (self w)
    /\ quant_layers_dict (self w') = quant_layers_dict (self w)
    /\ output_quantizers (self w') = output_quantizers (self w)
    /\ fhe_circuit (self w') = fhe_circuit (self w)
    /\ traces w' = traces w
    /\ backend_calls w' = backend_calls w
    /\ (forall values,
          length values <> length (ordered_module_input_names (self w)) ->
          (quantize_input values w').1
          = Err (Raise TypeError
                   (arity_message (length values)
                      (length (ordered_module_input_names (self w))))))
    /\ (forall qvalues_ e,
          length qvalues_ = length (ordered_module_input_names (self w)) ->
          (_forward qvalues_ w').1 = Err e -> exc_type e <> TypeError).
Proof.
  intros Hlen. eexists. split.
  { unfold set_inputs_quantization_parameters, bind, get_self, lift.
    rewrite Hlen, Nat.eqb_refl. reflexivity. }
  cbn [self with_self input_quantizers set_input_quantizers app
       ordered_module_input_names ordered_module_output_names quant_layers_dict
       output_quantizers fhe_circuit traces backend_calls].
  repeat (split; [reflexivity|]). split.
  - intros values Hne. unfold quantize_input, bind, get_self, lift.
    cbn [self with_self input_quantizers set_input_quantizers app fst].
    rewrite Hlen. by rewrite (eqb_length_ne _ _ Hne).
  - intros qvalues_ e Hq. apply _forward_error_kind.
    cbn [self with_self input_quantizers set_input_quantizers app]. congruence.
Qed.

Lemma quantize_input_world (values : list ndarray) (w : world) :
  (quantize_input values w).2 = w.
Proof.
  unfold quantize_input, bind, get_self, lift, ret, assert_true.
  destruct (_ =? _); [|done]. cbn [fst snd].
  destruct (stacked_dtype _) as [stacked|e]; [|done]. cbn [fst snd].
  by destruct (bool_decide _).
Qed.

(** X7. Whatever the number of inputs, [to_tuple] gives back the tuple that
    [quantize_input] folded into its result: a returning call has
    quantized value [i] with quantizer [i], for every input. Such a call
    had at least one input, and for a module with a single input the array
    it returns has type [int64] and passes the integer check of [forward]. *)
Theorem quantize_input_to_tuple
    (w w' : world) (values : list ndarray) (r : array_or_tuple) :
  quantize_input values w = (Ok r, w') ->
  to_tuple r = zip_with quant (input_quantizers (self w)) values
  /\ values <> []
  /\ length (to_tuple r) = length (input_quantizers (self w))
  /\ stacked_dtype (to_tuple r) = Ok int64
  /\ (forall q, to_tuple r = [q] -> dtype q = int64 /\ invalid_inputs_of [q] = []).
Proof.
  unfold quantize_input, bind, get_self, lift, ret, assert_true.
  destruct (Nat.eqb_spec (length values) (length (input_quantizers (self w))))
    as [Hlen|]; [|done]. cbn [fst snd].
  destruct (stacked_dtype (zip_with quant (input_quantizers (self w)) values))
    as [stacked|e] eqn:Hdtype; [|done]. cbn [fst snd].
  destruct (bool_decide_reflect (stacked = int64)) as [->|]; [|done].
  intros [= <- <-].
  assert (Htuple : to_tuple (match zip_with quant (input_quantizers (self w)) values with
                             | [q] => Single q
                             | _ => Tuple (zip_with quant (input_quantizers (self w)) values)
                             end)
                   = zip_with quant (input_quantizers (self w)) values).
  { by destruct (zip_with quant _ _) as [|q [|q2 qs]]. }
  rewrite Htuple. split; [done|]. split.
  { intros ->. destruct (input_quantizers (self w)); done. }
  split; [rewrite length_zip_with; lia|]. split; [done|].
  intros q Hq. rewrite Hq in Hdtype. simpl in Hdtype. injection Hdtype as Hdtype.
  split; [done|]. unfold invalid_inputs_of. simpl. by rewrite Hdtype.
Qed.

(** ** Seeding of the results *)

Lemma dict_fold_lookup_notin {V} (pairs : list (string * V)) (acc : gmap string V)
    (k : string) :
  ~ In k (map fst pairs) ->
  fold_left (fun d kv => <[kv.1 := kv.2]> d) pairs acc !! k = acc !! k.
Proof.
  revert acc. induction pairs as [|[k0 v0] rest IH]; intros acc Hnot; simpl; [done|].
  rewrite IH by (intros Hin; apply Hnot; by right).
  apply lookup_insert_ne. intros ->. apply Hnot. by left.
Qed.

Lemma dict_fold_lookup_in {V} (pairs : list (string * V)) (acc : gmap string V)
    (k : string) (v : V) :
  NoDup (map fst pairs) -> In (k, v) pairs ->
  fold_left (fun d kv => <[kv.1 := kv.2]> d) pairs acc !! k = Some v.
Proof.
  revert acc. induction pairs as [|[k0 v0] rest IH]; intros acc Hnodup Hin; [done|].
  simpl in Hnodup. apply NoDup_cons in Hnodup as [Hfresh Hnodup].
  destruct Hin as [[= -> ->]|Hin]; simpl.
  - rewrite dict_fold_lookup_notin by (by rewrite <- list_elem_of_In).
    apply lookup_insert_eq.
  - by apply IH.
Qed.

Lemma zip_keys {A B} (l : list A) (k : list B) (x : A) :
  In x (map fst (zip l k)) -> In x l.
Proof.
  revert k. induction l as [|a l IH]; intros [|b k]; simpl; try done.
  intros [->|Hin]; eauto.
Qed.

Lemma zip_keys_NoDup {A B} (l : list A) (k : list B) :
  NoDup l -> NoDup (map fst (zip l k)).
Proof.
  revert k. induction l as [|a l IH]; intros [|b k] Hl; simpl; try constructor.
  - apply NoDup_cons in Hl as [Hfresh _]. rewrite list_elem_of_In.
    intros Hin. apply Hfresh, list_elem_of_In. eapply zip_keys, Hin.
  - apply IH. by apply NoDup_cons in Hl as [_ ?].
Qed.

(** X8. [_forward] seeds its results position by position: when the
    declared input names are distinct, input name [i] is bound to input
    [i] wrapped with the parameters of input quantizer [i], and a name
    that is not a declared input is not bound at all. *)
Theorem initial_layer_results_aligned
    (m : QuantizedModule) (qvalues_ : list ndarray) :
  NoDup (ordered_module_input_names m) ->
  (forall i name quantizer values,
     ordered_module_input_names m !! i = Some name ->
     input_quantizers m !! i = Some quantizer ->
     qvalues_ !! i = Some values ->
     initial_layer_results m qvalues_ !! name
     = Some (Quantized (make_q_input quantizer values)))
  /\ (forall name,
        ~ In name (ordered_module_input_names m) ->
        initial_layer_results m qvalues_ !! name = None).
Proof.
  intros Hnodup. unfold initial_layer_results, dict_of_pairs. split.
  - intros i name quantizer values Hname Hq Hv.
    apply dict_fold_lookup_in; [by apply zip_keys_NoDup|].
    apply list_elem_of_In, list_elem_of_lookup. exists i.
    apply lookup_zip_Some. split; [done|].
    rewrite list_lookup_fmap.
    assert (Hi : zip_with make_q_input (input_quantizers m) qvalues_ !! i
                 = Some (make_q_input quantizer values))
      by (apply lookup_zip_with_Some; eauto).
    by rewrite Hi.
  - intros name Hnot. rewrite dict_fold_lookup_notin; [apply lookup_empty|].
    intros Hin. eapply Hnot, zip_keys, Hin.
Qed.

(** ** Dequantization *)

Lemma dequantize_output_single (q_values : ndarray) (w : world)
    (output_quantizer : UniformQuantizer) :
  output_quantizers (self w) = [output_quantizer] ->
  dequantize_output q_values w = (Ok (dequant output_quantizer q_values), w).
Proof.
  intros Hq. unfold dequantize_output, bind, get_self, lift. by rewrite Hq.
Qed.

(** X9. [forward_and_dequant] is the pass followed by the inverse
    mapping of the single output quantizer: on integral inputs it returns
    the dequantized result of [_forward], fails as [_forward] fails, and
    leaves the world as [_forward] leaves it; on an input that is not
    integral it raises the [ValueError] of [forward] and touches nothing. *)
Theorem forward_and_dequant_composes
    (q_x : list ndarray) (w : world) (output_quantizer : UniformQuantizer) :
  output_quantizers (self w) = [output_quantizer] ->
  (invalid_inputs_of q_x = [] ->
   forward_and_dequant q_x w
   = (bind_result (_forward q_x w).1 (fun q_out => Ok (dequant output_quantizer q_out)),
      (_forward q_x w).2))
  /\ (invalid_inputs_of q_x <> [] ->
      forward_and_dequant q_x w
      = (Err (Raise ValueError (not_integer_message (invalid_inputs_of q_x))), w)).
Proof.
  intros Hq. split.
  - intros Hvalid. unfold forward_and_dequant, forward, bind, lift, ret.
    rewrite Hvalid. cbn [length Nat.eqb assert_true fst snd].
    pose proof (_forward_same_boundary q_x w) as (_ & _ & _ & Hout & _).
    destruct (_forward q_x w) as [[q_out|e] w1]; [|done].
    cbn [fst snd prediction bind_result] in *.
    apply dequantize_output_single. congruence.
  - intros Hbad. unfold forward_and_dequant, forward, bind, lift.
    by destruct (invalid_inputs_of q_x).
Qed.

(** ** The adapter to the compiled circuit *)

Lemma take_sample_value (q : ndarray) (i : nat) (x : ndarray) :
  take_sample q i = Ok x -> x = one_sample q i.
Proof.
  unfold take_sample, one_sample. destruct (shape q) as [|n s]; [done|].
  destruct (i <? n); [|done]. by intros [= <-].
Qed.

Lemma take_sample_error (q : ndarray) (i : nat) (e : exception) :
  take_sample q i = Err e -> exc_type e = IndexError.
Proof.
  unfold take_sample. destruct (shape q) as [|n s]; [by intros [= <-]|].
  destruct (i <? n); [done|]. by intros [= <-].
Qed.

Lemma sample_at_value (qvalues_ : list ndarray) (i : nat) (q_value : list ndarray) :
  map_result (fun q => take_sample q i) qvalues_ = Ok q_value ->
  q_value = sample_at qvalues_ i.
Proof.
  revert q_value. induction qvalues_ as [|q rest IH]; intros q_value; simpl.
  - by intros [= <-].
  - destruct (take_sample q i) as [x|e] eqn:Hx; [|done].
    destruct (map_result _ rest) as [xs|e]; [|done].
    intros [= <-]. by rewrite (take_sample_value _ _ _ Hx), (IH xs eq_refl).
Qed.

Lemma sample_at_error (qvalues_ : list ndarray) (i : nat) (e : exception) :
  map_result (fun q => take_sample q i) qvalues_ = Err e -> exc_type e = IndexError.
Proof.
  induction qvalues_ as [|q rest IH]; simpl; [done|].
  destruct (take_sample q i) as [x|e'] eqn:Hx.
  - destruct (map_result _ rest) as [xs|e']; [done|]. intros [= <-]. by apply IH.
  - intros [= <-]. eapply take_sample_error, Hx.
Qed.

(** However it ends, the loop has called the backend on the samples of a
    first stretch of its positions, in order, and done nothing else; it
    stops short only on an [IndexError]. *)
Lemma fhe_loop_calls (c : Circuit) (simulate_flag : bool) (qvalues_ : list ndarray)
    (indices : list nat) (results : list ndarray) (w : world) :
  exists k,
    k <= length indices
    /\ (fhe_loop c simulate_flag qvalues_ indices results w).2
       = with_backend_calls
           (backend_calls w
            ++ map (fun i => backend_event_of simulate_flag (sample_at qvalues_ i))
                   (take k indices))
           w
    /\ match (fhe_loop c simulate_flag qvalues_ indices results w).1 with
       | Ok out =>
           k = length indices
           /\ out = results
                    ++ map (fun i => circuit_call c simulate_flag (sample_at qvalues_ i))
                           indices
       | Err e => exc_type e = IndexError
       end.
Proof.
  revert results w. induction indices as [|i rest IH]; intros results w.
  - exists 0. simpl. unfold ret. cbn [fst snd].
    rewrite with_backend_calls_nil, app_nil_r. auto.
  - simpl. unfold bind at 1, lift.
    destruct (map_result _ qvalues_) as [q_value|e] eqn:Hsample.
    + apply sample_at_value in Hsample as ->.
      unfold bind, backend_call, circuit_call, backend_event_of in *.
      destruct simulate_flag.
      * destruct (IH (results ++ [simulate c (sample_at qvalues_ i)])
                     (with_backend_calls
                        (backend_calls w ++ [Simulate (sample_at qvalues_ i)]) w))
          as (k & Hk & Hworld & Hout).
        exists (S k). split; [simpl; lia|]. rewrite Hworld. split.
        -- cbn [take map with_backend_calls backend_calls self traces].
           by rewrite <- app_assoc.
        -- destruct (fhe_loop _ _ _ _ _ _).1 as [out|e]; [|done].
           destruct Hout as [-> ->]. split; [done|]. by rewrite <- app_assoc.
      * destruct (IH (results ++ [encrypt_run_decrypt c (sample_at qvalues_ i)])
                     (with_backend_calls
                        (backend_calls w ++ [EncryptRunDecrypt (sample_at qvalues_ i)]) w))
          as (k & Hk & Hworld & Hout).
        exists (S k). split; [simpl; lia|]. rewrite Hworld. split.
        -- cbn [take map with_backend_calls backend_calls self traces].
           by rewrite <- app_assoc.
        -- destruct (fhe_loop _ _ _ _ _ _).1 as [out|e]; [|done].
           destruct Hout as [-> ->]. split; [done|]. by rewrite <- app_assoc.
    + exists 0. cbn [fst snd take map]. split; [lia|].
      rewrite with_backend_calls_nil. split; [done|].
      eapply sample_at_error, Hsample.
Qed.

Lemma joinable_from_error (s : list nat) (index : nat) (arrays : list ndarray)
    (e : exception) :
  joinable_from s index arrays = Err e -> exc_type e = ValueError.
Proof.
  revert index. induction arrays as [|a rest IH]; intros index; simpl; [done|].
  destruct (joinable s index a) as [n|e'] eqn:Ha.
  - destruct (joinable_from s (S index) rest) as [ns|e'] eqn:Hrest; [done|].
    intros [= <-]. eapply IH, Hrest.
  - intros [= <-]. unfold joinable in Ha.
    repeat case_match; by simplify_eq/=.
Qed.

Lemma concatenate_error (arrays : list ndarray) (e : exception) :
  concatenate arrays = Err e -> exc_type e = ValueError.
Proof.
  unfold concatenate. destruct arrays as [|a0 rest]; [by intros [= <-]|].
  destruct (shape a0) as [|n0 s]; [by intros [= <-]|].
  destruct (joinable_from s 1 rest) as [ns|e'] eqn:Hjoin; [done|].
  intros [= <-]. eapply joinable_from_error, Hjoin.
Qed.

Lemma concatenate_data (arrays : list ndarray) (out : ndarray) :
  concatenate arrays = Ok out -> data out = concat (map data arrays).
Proof.
  unfold concatenate. destruct arrays as [|a0 rest]; [done|].
  destruct (shape a0) as [|n0 s]; [done|].
  destruct (joinable_from s 1 rest) as [ns|e']; [|done]. by intros [= <-].
Qed.

Lemma concatenate_dtype (arrays : list ndarray) (out : ndarray) (d : DType) :
  concatenate arrays = Ok out ->
  Forall (fun a => dtype a = d) arrays -> dtype out = d.
Proof.
  unfold concatenate. destruct arrays as [|a0 rest]; [done|].
  destruct (shape a0) as [|n0 s]; [done|].
  destruct (joinable_from s 1 rest) as [ns|e']; [|done].
  intros [= <-] [-> Hrest]%Forall_cons. simpl.
  apply result_type_same, Forall_map, Hrest.
Qed.

Lemma py_index_error {A} (l : list A) (idx : Z) (e : exception) :
  py_index l idx = Err e -> exc_type e = IndexError.
Proof. unfold py_index. repeat case_match; by intros [= <-]. Qed.

Lemma shape0_error (a : ndarray) (e : exception) :
  shape0 a = Err e -> exc_type e = IndexError.
Proof. unfold shape0. destruct (shape a); [by intros [= <-]|done]. Qed.

(** X10. [forward_in_fhe] never touches the module nor the debug
    dictionaries; what it adds to the calls made to the backend is, in
    order, the calls for samples [0], [1], ... of the inputs, up to some
    position and through the entry point of the chosen mode only. When it
    returns, that position is the number of samples of the first input,
    there is at least one sample, and, the answers being of one dtype,
    the result is their concatenation in the order of the samples: an
    array of that dtype whose values are the values of the answers, one
    answer after the other. *)
Theorem forward_in_fhe_calls
    (qvalues_ : list ndarray) (simulate_flag : bool) (w : world) :
  exists k,
    self (forward_in_fhe qvalues_ simulate_flag w).2 = self w
    /\ traces (forward_in_fhe qvalues_ simulate_flag w).2 = traces w
    /\ backend_calls (forward_in_fhe qvalues_ simulate_flag w).2
       = backend_calls w
         ++ map (fun i => backend_event_of simulate_flag (sample_at qvalues_ i))
                (seq 0 k)
    /\ forall out,
         (forward_in_fhe qvalues_ simulate_flag w).1 = Ok out ->
         exists first c,
           qvalues_ !! 0 = Some first /\ shape0 first = Ok k
           /\ fhe_circuit (self w) = Some c
           /\ 0 < k
           /\ forall d,
                (forall i, i < k ->
                   dtype (circuit_call c simulate_flag (sample_at qvalues_ i)) = d) ->
                concatenate
                  (map (fun i => circuit_call c simulate_flag (sample_at qvalues_ i))
                       (seq 0 k))
                = Ok out
                /\ dtype out = d
                /\ data out
                   = concat
                       (map (fun i => data (circuit_call c simulate_flag
                                              (sample_at qvalues_ i)))
                            (seq 0 k)).
Proof.
  unfold forward_in_fhe, bind, get_self, lift, raise, assert_true.
  destruct (fhe_circuit (self w)) as [c|] eqn:Hc; cbn [bool_decide fst snd];
    [|exists 0; simpl; by rewrite app_nil_r].
  rewrite bool_decide_true by eauto. cbn [fst snd].
  destruct (py_index qvalues_ 0) as [first|e] eqn:Hfirst;
    [|exists 0; simpl; by rewrite app_nil_r].
  destruct (shape0 first) as [n|e] eqn:Hn;
    [|exists 0; simpl; by rewrite app_nil_r].
  destruct (fhe_loop_calls c simulate_flag qvalues_ (seq 0 n) [] w)
    as (k & Hk & Hworld & Hout).
  rewrite length_seq in Hk.
  destruct (fhe_loop c simulate_flag qvalues_ (seq 0 n) [] w) as [[results|e] w1];
    cbn [fst snd] in *; subst w1.
  - destruct Hout as [-> ->]. rewrite length_seq, firstn_all2 by (rewrite length_seq; lia).
    exists n. split; [done|]. split; [done|]. split; [done|].
    intros out Hcat. exists first, c.
    split.
    { unfold py_index in Hfirst. destruct qvalues_ as [|q0 qs]; [done|].
      simpl in Hfirst. by injection Hfirst as ->. }
    split; [done|]. split; [done|]. simpl in Hcat. split.
    { destruct n; [done|lia]. }
    intros d Hsame. split; [done|]. split.
    + apply (concatenate_dtype _ _ _ Hcat), Forall_map, Forall_forall.
      intros i Hi%elem_of_seq. apply Hsame. lia.
    + apply concatenate_data in Hcat. rewrite Hcat. by rewrite map_map.
  - exists k. replace (take k (seq 0 n)) with (seq 0 k)
      by (rewrite take_seq; f_equal; lia).
    split; [done|]. split; [done|]. split; [done|]. done.
Qed.

(** X11. The mode only selects the entry point: on a compiled module
    whose circuit answers every sample of the inputs the same through
    [simulate] and through [encrypt_run_decrypt], [forward_in_fhe] returns
    the same array, or raises the same exception, in both modes. *)
Theorem forward_in_fhe_modes_agree
    (qvalues_ : list ndarray) (w : world) (c : Circuit) :
  fhe_circuit (self w) = Some c ->
  (forall i, simulate c (sample_at qvalues_ i)
             = encrypt_run_decrypt c (sample_at qvalues_ i)) ->
  (forward_in_fhe qvalues_ true w).1 = (forward_in_fhe qvalues_ false w).1.
Proof.
  intros Hc Hagree.
  assert (Hloop : forall indices results w1 w2,
             (fhe_loop c true qvalues_ indices results w1).1
             = (fhe_loop c false qvalues_ indices results w2).1).
  { induction indices as [|i rest IH]; intros results w1 w2; [done|].
    simpl. unfold bind at 1 3, lift.
    destruct (map_result _ qvalues_) as [q_value|e] eqn:Hsample; [|done].
    apply sample_at_value in Hsample as ->.
    unfold bind, backend_call. rewrite Hagree. apply IH. }
  unfold forward_in_fhe, bind, get_self, lift, assert_true. rewrite Hc.
  rewrite bool_decide_true by eauto. cbn [fst snd].
  destruct (py_index qvalues_ 0) as [first|e]; [|done].
  destruct (shape0 first) as [n|e]; [|done].
  specialize (Hloop (seq 0 n) [] w w).
  destruct (fhe_loop c true _ _ _ _) as [[r1|e1] w1];
    destruct (fhe_loop c false _ _ _ _) as [[r2|e2] w2];
    cbn [fst snd] in *; congruence.
Qed.

(** X12. [forward_in_fhe] raises the not-compiled failure exactly when the
    module has no circuit, which is exactly when
    [check_model_is_compiled] raises: the two agree on what a compiled
    module is. *)
Theorem not_compiled_failures_agree
    (qvalues_ : list ndarray) (simulate_flag : bool) (w : world) :
  ((forward_in_fhe qvalues_ simulate_flag w).1
   = Err (Raise AssertionError not_compiled_message)
   <-> fhe_circuit (self w) = None)
  /\ ((check_model_is_compiled w).1 = Err (Raise AttributeError not_compiled_message)
      <-> fhe_circuit (self w) = None)
  /\ ((check_model_is_compiled w).1 = Ok tt <-> is_Some (fhe_circuit (self w))).
Proof.
  split; [|split].
  - split.
    + intros Hfail. destruct (fhe_circuit (self w)) as [c|] eqn:Hc; [|done].
      exfalso. revert Hfail.
      unfold forward_in_fhe, bind, get_self, lift, assert_true. rewrite Hc.
      rewrite bool_decide_true by eauto. cbn [fst snd].
      destruct (py_index qvalues_ 0) as [first|e] eqn:Hfirst;
        [|intros [= ->]; by apply py_index_error in Hfirst].
      destruct (shape0 first) as [n|e] eqn:Hn;
        [|intros [= ->]; by apply shape0_error in Hn].
      destruct (fhe_loop_calls c simulate_flag qvalues_ (seq 0 n) [] w)
        as (k & _ & _ & Hout).
      destruct (fhe_loop c simulate_flag qvalues_ (seq 0 n) [] w) as [[results|e] w1];
        cbn [fst snd] in *.
      * destruct (concatenate results) as [out|e] eqn:Hcat; [done|].
        intros [= ->]. by apply concatenate_error in Hcat.
      * intros [= ->]. done.
    + intros Hnone. unfold forward_in_fhe, bind, get_self, lift. by rewrite Hnone.
  - unfold check_model_is_compiled, bind, get_self, raise, ret.
    destruct (fhe_circuit (self w)); split; done.
  - unfold check_model_is_compiled, bind, get_self, raise, ret.
    destruct (fhe_circuit (self w)) as [c|]; cbn [fst]; split; try done;
      try (intros _; eauto); by intros [? [=]].
Qed.

(** ** The compilation driver, step by step *)

Section CompileSteps.

Variables Configuration DebugArtifacts Probability ProxyFunction CompilerObject : Type.
Variable check_configuration : option Configuration -> result unit.
Variable manage_errors :
  option Probability -> option Probability ->
  result (option Probability * option Probability).
Variable generate_proxy_function :
  QuantizedModule -> list string -> ProxyFunction * list (string * string).
Variable Compiler : ProxyFunction -> list (string * string) -> CompilerObject.
Variable compiler_compile :
  CompilerObject -> inputset ->
  compile_options Configuration DebugArtifacts Probability -> result Circuit.

Variable inputs : array_or_tuple.
Variable configuration : option Configuration.
Variable artifacts : option DebugArtifacts.
Variables show_mlir use_virtual_lib : bool.
Variables p_error global_p_error : option Probability.
Variable verbose : bool.

(** The options the compiler receives, given the two error probabilities
    that [manage_parameters_for_pbs_errors] settled on. *)
Let options (errors : option Probability * option Probability) :
    compile_options Configuration DebugArtifacts Probability :=
  {| opt_configuration := configuration; opt_artifacts := artifacts;
     opt_show_mlir := show_mlir; opt_virtual := use_virtual_lib;
     opt_p_error := errors.1; opt_global_p_error := errors.2;
     opt_verbose := verbose |}.

(** The compiler [compile] builds for a module: the one on the proxy of its
    [_forward], over its ordered input names, every argument encrypted. *)
Let compiler (m : QuantizedModule) : CompilerObject :=
  Compiler (generate_proxy_function m (ordered_module_input_names m)).1
    (map (fun arg : string * string => (arg.2, "encrypted"))
         (generate_proxy_function m (ordered_module_input_names m)).2).

(** [compile] as the sequence of its steps. *)
Lemma compile_steps (w : world) :
  compile Configuration DebugArtifacts Probability ProxyFunction CompilerObject
    check_configuration manage_errors generate_proxy_function Compiler
    compiler_compile inputs configuration artifacts
    show_mlir use_virtual_lib p_error global_p_error verbose w
  = match compile_checks (to_tuple inputs) with
    | Err e => (Err e, w)
    | Ok _ =>
        match (quantize_input (to_tuple inputs) w).1 with
        | Err e => (Err e, w)
        | Ok q_inputs =>
            match _get_inputset_generator q_inputs with
            | Err e => (Err e, w)
            | Ok samples =>
                match check_configuration configuration with
                | Err e => (Err e, w)
                | Ok _ =>
                    match manage_errors p_error global_p_error with
                    | Err e => (Err e, w)
                    | Ok errors =>
                        let called :=
                          with_backend_calls
                            (backend_calls w ++ [CompilerCompile samples]) w in
                        match compiler_compile (compiler (self w)) samples
                                (options errors) with
                        | Err e => (Err e, called)
                        | Ok c =>
                            (Ok c,
                             with_self (set_fhe_circuit (Some c) (self w)) called)
                        end
                    end
                end
            end
        end
    end.
Proof.
  unfold compile, compiler_of, bind, lift, get_self, ret, invoke_compiler.
  destruct (compile_checks (to_tuple inputs)) as [[]|e]; [|done]. cbn [fst snd].
  pose proof (quantize_input_world (to_tuple inputs) w) as Hworld.
  destruct (quantize_input (to_tuple inputs) w) as [[q_inputs|e] w1];
    cbn [fst snd] in *; subst w1; [|done].
  destruct (_get_inputset_generator q_inputs) as [samples|e]; [|done].
  destruct (check_configuration configuration) as [[]|e]; [|done].
  destruct (manage_errors p_error global_p_error) as [errors|e]; [|done].
  cbn [self with_backend_calls].
  by destruct (compiler_compile _ _ _) as [c|e].
Qed.

(** X13. A [compile] that returns has passed its checks, quantized the
    calibration inputs with the input quantizers of the module, built the
    input set from them, passed the configuration check, settled the two
    error probabilities and called the compiler once, on that input set
    and with those probabilities; the compiler is the one built on the
    proxy of the module over its ordered input names; the circuit the
    compiler gave is what is returned and what the module now holds, in
    place of any circuit it held; nothing else of the module has changed,
    and [check_model_is_compiled] passes from then on. *)
Theorem compile_stores_the_circuit (w w' : world) (c : Circuit) :
  compile Configuration DebugArtifacts Probability ProxyFunction CompilerObject
    check_configuration manage_errors generate_proxy_function Compiler
    compiler_compile inputs configuration artifacts
    show_mlir use_virtual_lib p_error global_p_error verbose w
  = (Ok c, w') ->
  self w' = set_fhe_circuit (Some c) (self w)
  /\ traces w' = traces w
  /\ (check_model_is_compiled w').1 = Ok tt
  /\ compile_checks (to_tuple inputs) = Ok tt
  /\ check_configuration configuration = Ok tt
  /\ exists q_inputs samples errors,
       (quantize_input (to_tuple inputs) w).1 = Ok q_inputs
       /\ _get_inputset_generator q_inputs = Ok samples
       /\ manage_errors p_error global_p_error = Ok errors
       /\ compiler_compile (compiler (self w)) samples (options errors) = Ok c
       /\ backend_calls w' = backend_calls w ++ [CompilerCompile samples].
Proof.
  rewrite compile_steps.
  destruct (compile_checks (to_tuple inputs)) as [[]|e]; [|done].
  destruct (quantize_input (to_tuple inputs) w).1 as [q_inputs|e]; [|done].
  destruct (_get_inputset_generator q_inputs) as [samples|e] eqn:Hgen; [|done].
  destruct (check_configuration configuration) as [[]|e]; [|done].
  destruct (manage_errors p_error global_p_error) as [errors|e]; [|done].
  cbn zeta. destruct (compiler_compile _ _ _) as [c'|e] eqn:Hcompiler; [|done].
  intros [= -> <-]. repeat split; try done.
  exists q_inputs, samples, errors. by repeat split.
Qed.

(** X14. A [compile] that fails leaves the module as it was, circuit
    included, and the debug dictionaries too. Either it failed before the
    compiler was reached (in its checks, in the quantization, in the input
    set, in the configuration check or in the choice of the error
    probabilities, as when both are given), and the world is untouched, or
    the compiler was called once and the failure is the compiler's own. *)
Theorem compile_failure_keeps_the_module (w w' : world) (e : exception) :
  compile Configuration DebugArtifacts Probability ProxyFunction CompilerObject
    check_configuration manage_errors generate_proxy_function Compiler
    compiler_compile inputs configuration artifacts
    show_mlir use_virtual_lib p_error global_p_error verbose w
  = (Err e, w') ->
  self w' = self w
  /\ traces w' = traces w
  /\ (w' = w
      \/ exists samples errors,
           backend_calls w' = backend_calls w ++ [CompilerCompile samples]
           /\ manage_errors p_error global_p_error = Ok errors
           /\ compiler_compile (compiler (self w)) samples (options errors)
              = Err e).
Proof.
  rewrite compile_steps.
  destruct (compile_checks (to_tuple inputs)) as [[]|e1];
    [|intros [= <- <-]; auto].
  destruct (quantize_input (to_tuple inputs) w).1 as [q_inputs|e1];
    [|intros [= <- <-]; auto].
  destruct (_get_inputset_generator q_inputs) as [samples|e1];
    [|intros [= <- <-]; auto].
  destruct (check_configuration configuration) as [[]|e1];
    [|intros [= <- <-]; auto].
  destruct (manage_errors p_error global_p_error) as [errors|e1];
    [|intros [= <- <-]; auto].
  cbn zeta. destruct (compiler_compile _ _ _) as [c'|e1] eqn:Hcompiler; [done|].
  intros [= <- <-]. split; [done|]. split; [done|]. right.
  by exists samples, errors.
Qed.

(** X15. The compiler is not reached when the module cannot quantize the
    calibration inputs, when the configuration check refuses or when the
    two error probabilities are refused: with inputs that pass the two
    checks but are not as many as the input quantizers (none at all when
    they were never set), [compile] raises the arity [TypeError] of
    [quantize_input]; with a configuration the check refuses, [compile]
    fails; with error probabilities [manage_parameters_for_pbs_errors]
    refuses, [compile] fails; in all cases the world is untouched. *)
Theorem compile_stops_before_the_compiler (w : world) :
  (compile_checks (to_tuple inputs) = Ok tt ->
   length (to_tuple inputs) <> length (input_quantizers (self w)) ->
   compile Configuration DebugArtifacts Probability ProxyFunction CompilerObject
     check_configuration manage_errors generate_proxy_function Compiler
     compiler_compile inputs configuration artifacts
     show_mlir use_virtual_lib p_error global_p_error verbose w
   = (Err (Raise TypeError
             (arity_message (length (to_tuple inputs))
                            (length (input_quantizers (self w))))), w))
  /\ (forall e, check_configuration configuration = Err e ->
        exists e',
          compile Configuration DebugArtifacts Probability ProxyFunction
            CompilerObject check_configuration manage_errors
            generate_proxy_function Compiler
            compiler_compile inputs configuration artifacts
            show_mlir use_virtual_lib p_error global_p_error verbose w
          = (Err e', w))
  /\ (forall e, manage_errors p_error global_p_error = Err e ->
        exists e',
          compile Configuration DebugArtifacts Probability ProxyFunction
            CompilerObject check_configuration manage_errors
            generate_proxy_function Compiler
            compiler_compile inputs configuration artifacts
            show_mlir use_virtual_lib p_error global_p_error verbose w
          = (Err e', w)).
Proof.
  split; [|split].
  - intros Hchecks Hne. rewrite compile_steps, Hchecks.
    unfold quantize_input, bind, get_self, lift.
    by rewrite (eqb_length_ne _ _ Hne).
  - intros e Hconf. rewrite compile_steps, Hconf.
    destruct (compile_checks (to_tuple inputs)) as [[]|e1]; [|eauto].
    destruct (quantize_input (to_tuple inputs) w).1 as [q_inputs|e1]; [|eauto].
    destruct (_get_inputset_generator q_inputs) as [samples|e1]; eauto.
  - intros e Herrors. rewrite compile_steps, Herrors.
    destruct (compile_checks (to_tuple inputs)) as [[]|e1]; [|eauto].
    destruct (quantize_input (to_tuple inputs) w).1 as [q_inputs|e1]; [|eauto].
    destruct (_get_inputset_generator q_inputs) as [samples|e1]; [|eauto].
    destruct (check_configuration configuration) as [[]|e1]; eauto.
Qed.

End CompileSteps.

(** ** Construction *)

Lemma truthy_spec {A} (x : option (list A)) :
  truthy x = true <-> exists a l, x = Some (a :: l).
Proof.
  destruct x as [[|a l]|]; simpl; split; try done; eauto; by intros (? & ? & [=]).
Qed.

Lemma dict_getitem_error (d : list node) (name : string) (e : exception) :
  dict_getitem d name = Err e -> e = Raise KeyError name.
Proof. unfold dict_getitem. repeat case_match; by intros [= <-]. Qed.

Lemma dict_getitem_missing (d : list node) (name : string) :
  (forall entry : node, In entry d -> entry.1 <> name) ->
  dict_getitem d name = Err (Raise KeyError name).
Proof.
  intros Hmissing. unfold dict_getitem.
  destruct (list_find _ d) as [[i entry]|] eqn:Hfind; [|done].
  apply list_find_Some in Hfind as (Hi & Hname & _).
  exfalso. apply (Hmissing entry); [|done].
  by eapply list_elem_of_In, list_elem_of_lookup_2.
Qed.

Lemma dict_getitem_found (d : list node) (name : string)
    (entry : list string * QuantizedOp) :
  dict_getitem d name = Ok entry -> In (name, entry) d.
Proof.
  unfold dict_getitem.
  destruct (list_find _ d) as [[i [key value]]|] eqn:Hfind; [|done].
  apply list_find_Some in Hfind as (Hi & Hname & _). simpl in Hname. subst key.
  intros [= <-]. by eapply list_elem_of_In, list_elem_of_lookup_2.
Qed.

Section ConstructionProperties.

Variable output_quantizer_of : QuantizedOp -> UniformQuantizer.

(** What the constructor leaves when it builds a module. *)
Lemma constructed_module
    (input_names output_names : option (list string))
    (d : option (list node)) (m : QuantizedModule) :
  __init__ output_quantizer_of input_names output_names d = Ok (Some m) ->
  input_names = Some (ordered_module_input_names m)
  /\ ordered_module_input_names m <> []
  /\ output_names = Some (ordered_module_output_names m)
  /\ d = Some (quant_layers_dict m)
  /\ quant_layers_dict m <> []
  /\ input_quantizers m = []
  /\ fhe_circuit m = None
  /\ exists name entry,
       ordered_module_output_names m = [name]
       /\ In (name, entry) (quant_layers_dict m)
       /\ output_quantizers m = [output_quantizer_of entry.2].
Proof.
  unfold __init__.
  destruct (truthy input_names) eqn:Hin; [|done].
  destruct (truthy output_names) eqn:Hout; [|done].
  destruct (truthy d) eqn:Hd; [|done]. cbn [andb negb].
  apply truthy_spec in Hin as (i0 & ins & ->).
  apply truthy_spec in Hout as (o0 & outs & ->).
  apply truthy_spec in Hd as (n0 & nodes & ->).
  unfold assert_true. destruct outs as [|o1 outs]; [|done].
  cbn [length Nat.eqb bind_result]. unfold _set_output_quantizers. cbn [map_result].
  destruct (dict_getitem (n0 :: nodes) o0) as [entry|e] eqn:Hentry; [|done].
  cbn [bind_result]. intros [= <-].
  cbn [ordered_module_input_names ordered_module_output_names quant_layers_dict
       input_quantizers output_quantizers fhe_circuit].
  do 7 (split; [done|]).
  exists o0, entry. split; [done|]. split; [|done].
  by apply dict_getitem_found.
Qed.

(** X16. A module that the constructor builds from its three arguments
    has exactly one output name, bound in the graph, and exactly one
    output quantizer, the one of the operation that produces the output;
    it has the names and the graph it was given, none of them empty, and
    starts with no input quantizer and no circuit. *)
Theorem __init___invariants
    (input_names output_names : option (list string))
    (d : option (list node)) (m : QuantizedModule) :
  __init__ output_quantizer_of input_names output_names d = Ok (Some m) ->
  (input_names = Some (ordered_module_input_names m)
   /\ output_names = Some (ordered_module_output_names m)
   /\ d = Some (quant_layers_dict m))
  /\ (ordered_module_input_names m <> [] /\ quant_layers_dict m <> [])
  /\ (input_quantizers m = [] /\ fhe_circuit m = None)
  /\ exists name entry,
       ordered_module_output_names m = [name]
       /\ In (name, entry) (quant_layers_dict m)
       /\ output_quantizers m = [output_quantizer_of entry.2].
Proof.
  intros Hinit.
  apply constructed_module in Hinit
    as (Hin & Hne & Hout & Hd & Hnodes & Hq & Hc & Hquant).
  auto 10.
Qed.

(** X17. The constructor refuses a graph with several outputs: given
    names and a graph, with two output names or more it raises an
    [AssertionError] whose message gives their number; with one output
    name that the graph does not bind it raises a [KeyError] on that name;
    and when an argument is missing or empty it stops early and leaves the
    bare module. *)
Theorem __init___failures
    (input_names output_names : option (list string)) (d : option (list node)) :
  (forall outs,
     truthy input_names = true -> truthy d = true ->
     output_names = Some outs -> 2 <= length outs ->
     __init__ output_quantizer_of input_names output_names d
     = Err (Raise AssertionError (single_output_message (length outs)))
     /\ mentions (single_output_message (length outs)) (str_of_nat (length outs)))
  /\ (forall name nodes,
        truthy input_names = true -> truthy d = true ->
        output_names = Some [name] -> d = Some nodes ->
        (forall entry : node, In entry nodes -> entry.1 <> name) ->
        __init__ output_quantizer_of input_names output_names d
        = Err (Raise KeyError name))
  /\ (truthy input_names = false \/ truthy output_names = false \/ truthy d = false ->
      __init__ output_quantizer_of input_names output_names d = Ok None).
Proof.
  split; [|split].
  - intros outs Hin Hd -> Hlen. split.
    + unfold __init__. rewrite Hin, Hd.
      destruct outs as [|o0 [|o1 outs]]; simpl in Hlen; try lia.
      apply truthy_spec in Hin as (i0 & ins & ->).
      apply truthy_spec in Hd as (n0 & nodes & ->). reflexivity.
    + unfold single_output_message. do 2 apply mentions_app_r. apply mentions_self.
  - intros name nodes Hin Hd -> -> Hmissing. unfold __init__. rewrite Hin, Hd.
    apply truthy_spec in Hin as (i0 & ins & ->).
    cbn [truthy andb negb length Nat.eqb assert_true bind_result].
    unfold _set_output_quantizers. cbn [map_result].
    by rewrite (dict_getitem_missing _ _ Hmissing).
  - intros Hfalsy. unfold __init__.
    destruct Hfalsy as [-> | [-> | ->]]; rewrite ?andb_false_r; done.
Qed.

(** X18. On a module fresh from the constructor: [dequantize_output]
    always returns, applying the quantizer of the output operation;
    [quantize_input] refuses any input, with the arity [TypeError] naming
    zero expected inputs, until [set_inputs_quantization_parameters] has
    been called; [forward_in_fhe] raises the not-compiled failure and the
    report is absent. *)
Theorem fresh_module_behaviour
    (input_names output_names : option (list string))
    (d : option (list node)) (w : world) :
  __init__ output_quantizer_of input_names output_names d = Ok (Some (self w)) ->
  (exists quantizer,
     output_quantizers (self w) = [quantizer]
     /\ forall q_values,
          dequantize_output q_values w = (Ok (dequant quantizer q_values), w))
  /\ (forall values, values <> [] ->
        quantize_input values w
        = (Err (Raise TypeError (arity_message (length values) 0)), w))
  /\ (forall qvalues_ simulate_flag,
        forward_in_fhe qvalues_ simulate_flag w
        = (Err (Raise AssertionError not_compiled_message), w))
  /\ bitwidth_and_range_report w = (Ok None, w).
Proof.
  intros Hinit.
  apply constructed_module in Hinit
    as (_ & _ & _ & _ & _ & Hq & Hc & name & entry & _ & _ & Hout).
  split; [|split; [|split]].
  - exists (output_quantizer_of entry.2). split; [done|].
    intros q_values. by apply dequantize_output_single.
  - intros values Hne. unfold quantize_input, bind, get_self, lift. rewrite Hq.
    destruct values; done.
  - intros qvalues_ simulate_flag.
    unfold forward_in_fhe, bind, get_self, lift. by rewrite Hc.
  - unfold bitwidth_and_range_report, bind, get_self, ret. by rewrite Hc.
Qed.

End ConstructionProperties.

(** ** The input set at its edges *)






(** ** The report when nothing is tagged *)

(** X21. With a compiled circuit, the report is empty exactly when no
    operation of the graph has both a range and a bit-width that is not
    negative for its tag pattern: operations fused away are left out
    without an error, and one operation that kept its tag is enough for a
    report that is not empty. *)
Theorem bitwidth_and_range_report_empty (w : world) (c : Circuit) :
  fhe_circuit (self w) = Some c ->
  exists report,
    bitwidth_and_range_report w = (Ok (Some report), w)
    /\ (report = ∅
        <-> forall entry : node,
              In entry (quant_layers_dict (self w)) ->
              integer_range (graph c) (tag_pattern (op_instance_name entry.2.2)) = None
              \/ (maximum_integer_bit_width (graph c)
                    (tag_pattern (op_instance_name entry.2.2)) < 0)%Z).
Proof.
  intros Hc. unfold bitwidth_and_range_report, bind, get_self, ret. rewrite Hc.
  eexists. split; [reflexivity|].
  assert (Hcons : forall k v, (∅ : gmap string report_entry) !! k = Some v ->
                              reported_by c k v) by (intros k v; by rewrite lookup_empty).
  split.
  - intros Hempty entry Hin.
    destruct (integer_range (graph c) (tag_pattern (op_instance_name entry.2.2)))
      as [value_range|] eqn:Hrange; [|by left].
    right. destruct (Z.ltb_spec (maximum_integer_bit_width (graph c)
                       (tag_pattern (op_instance_name entry.2.2))) 0) as [|Hbw]; [done|].
    exfalso.
    assert (Hsome : fold_left (report_step c) (quant_layers_dict (self w)) ∅
                    !! op_instance_name entry.2.2
                    = Some {| range := value_range;
                              bitwidth := maximum_integer_bit_width (graph c)
                                (tag_pattern (op_instance_name entry.2.2)) |}).
    { apply report_fold_lookup; [done|]. left. split; [by exists entry|].
      by repeat split. }
    by rewrite Hempty, lookup_empty in Hsome.
  - intros Hnone. apply map_empty. intros name.
    destruct (fold_left _ _ _ !! name) as [e|] eqn:Hname; [|done].
    exfalso. apply report_fold_lookup in Hname as [[(entry & Hin & <-) Hrep]|Hold];
      [|by rewrite lookup_empty in Hold|done].
    destruct Hrep as (Hrange & Hbw & Hpos).
    destruct (Hnone entry Hin) as [Hno|Hneg]; [congruence|lia].
Qed.

(** ** Tag patterns *)

Lemma is_re_special_backslash : is_re_special "\" = true.
Proof. reflexivity. Qed.

Lemma re_escape_inj (s1 s2 : string) : re_escape s1 = re_escape s2 -> s1 = s2.
Proof.
  revert s2. induction s1 as [|c1 s1 IH]; intros [|c2 s2]; simpl; try done.
  - by destruct (is_re_special c2).
  - by destruct (is_re_special c1).
  - destruct (is_re_special c1) eqn:H1, (is_re_special c2) eqn:H2.
    + intros [= -> Hrest]. by rewrite (IH _ Hrest).
    + intros [= <- _]. by rewrite is_re_special_backslash in H2.
    + intros [= -> _]. by rewrite is_re_special_backslash in H1.
    + intros [= -> Hrest]. by rewrite (IH _ Hrest).
Qed.

Lemma string_length_app (a b : string) :
  String.length (a +:+ b) = String.length a + String.length b.
Proof.
  induction a as [|x a IH]; [done|].
  unfold String.app in *. simpl. by rewrite IH.
Qed.

Lemma string_app_inv_tail (a b t : string) : a +:+ t = b +:+ t -> a = b.
Proof.
  revert b. induction a as [|x a IH]; intros [|y b] Heq; [done| | |].
  - apply (f_equal String.length) in Heq.
    rewrite (string_length_app (String y b) t) in Heq.
    unfold String.app in Heq. simpl in Heq. lia.
  - apply (f_equal String.length) in Heq.
    rewrite (string_length_app (String x a) t) in Heq.
    unfold String.app in Heq. simpl in Heq. lia.
  - unfold String.app in Heq. simpl in Heq. injection Heq as -> Heq.
    f_equal. by apply IH.
Qed.

(** X22. The pattern an operation is looked up with determines its
    instance name: two operations are queried with the same pattern only
    if they have the same instance name, so the range and bit-width of one
    operation are never reported under the name of another; and an
    instance name made of letters, digits and underscores is its own
    escaped form. *)
Theorem tag_pattern_inj (name1 name2 : string) :
  (tag_pattern name1 = tag_pattern name2 -> name1 = name2)
  /\ (forallb (fun c => negb (is_re_special c)) (list_ascii_of_string name1) = true ->
      tag_pattern name1 = name1 +:+ "(\..*)?").
Proof.
  split.
  - unfold tag_pattern. intros Heq.
    by apply re_escape_inj, (string_app_inv_tail _ _ "(\..*)?").
  - unfold tag_pattern. intros Hplain. f_equal.
    induction name1 as [|c rest IH]; [done|]. simpl in *.
    apply andb_true_iff in Hplain as [Hc Hrest].
    apply negb_true_iff in Hc. rewrite Hc. f_equal. by apply IH.
Qed.

(** ** The output of a pass is always found *)

(** X23. When the single declared output name is bound in the graph, as
    the constructor makes sure it is, [_forward] never raises a
    [KeyError]: a loop that ran to its end has stored the output of every
    operation, so the declared output is among the results. *)
Theorem _forward_finds_the_output
    (qvalues_ : list ndarray) (w : world) (name : string)
    (entry : list string * QuantizedOp) (e : exception) :
  ordered_module_output_names (self w) = [name] ->
  In (name, entry) (quant_layers_dict (self w)) ->
  (_forward qvalues_ w).1 = Err e ->
  exc_type e <> KeyError.
Proof.
  intros Hnames Hbound.
  destruct (decide (length qvalues_ = length (input_quantizers (self w)))) as [Hlen|Hne];
    [|rewrite (_forward_arity _ _ Hne); by intros [= <-]].
  rewrite (_forward_unfold _ _ Hlen). cbn zeta.
  destruct (run_layers _ _ _ _) as [[outcome layers] dicts] eqn:Hloop. cbn [fst snd].
  destruct outcome as [[layer_results bad_qat_ops]|e'].
  - cbn [fst snd]. unfold graph_output. rewrite Hnames.
    destruct (0 <? length bad_qat_ops); [by intros [= <-]|].
    cbn [map_result].
    destruct (proj2 (run_layers_results _ _ _ _ _ _ _ _ Hloop) (name, entry) Hbound)
      as [v Hv].
    cbn [fst] in Hv. rewrite Hv. cbn.
    destruct v as [|a|q]; [by intros [= <-]..|done].
  - intros [= <-]. apply run_layers_error in Hloop. by rewrite Hloop.
Qed.

(** * The further properties at work on the small module *)

Lemma _forward_clears_error_trackers_witness :
  Forall (fun slot => slot = None)
    (error_slots (self (_forward [Sample.batch] (Sample.fresh Sample.qmodule)).2)).
Proof.
  eapply (_forward_clears_error_trackers [Sample.batch] (Sample.fresh Sample.qmodule)).
  - vm_compute. reflexivity.
  - left. eexists. reflexivity.
Defined.

Lemma _forward_returns_the_single_output_witness :
  _forward [Sample.batch] (Sample.fresh Sample.qmodule)
  = (Ok Sample.batch, Sample.fresh Sample.qmodule)
  /\ exists name, ordered_module_output_names Sample.qmodule = [name].
Proof.
  assert (Hrun : _forward [Sample.batch] (Sample.fresh Sample.qmodule)
                 = (Ok Sample.batch, Sample.fresh Sample.qmodule))
    by (vm_compute; reflexivity).
  split; [exact Hrun|].
  destruct (_forward_returns_the_single_output _ _ _ _ Hrun)
    as (_ & name & _ & _ & _ & _ & Hname & _).
  exists name. exact Hname.
Defined.

Lemma forward_debug_trace_keys_witness :
  exists out trace_,
    (forward [Sample.batch] true (Sample.fresh Sample.qmodule)).1
    = Ok (WithTrace out trace_)
    /\ is_Some (trace_ !! "identity_0").
Proof.
  destruct (forward [Sample.batch] true (Sample.fresh Sample.qmodule))
    as [r w'] eqn:Hrun.
  assert (Hok : exists x, r = Ok x).
  { apply (f_equal fst) in Hrun. vm_compute in Hrun. rewrite <- Hrun. eauto. }
  destruct Hok as [x ->].
  destruct (forward_debug_trace_keys _ _ _ _ Hrun) as (out & trace_ & -> & _ & Hkeys).
  exists out, trace_. split; [reflexivity|].
  apply Hkeys. exists ("y", (["x"], Sample.identity)). split; [by left|reflexivity].
Defined.

Lemma set_inputs_quantization_parameters_replaces_witness :
  exists w',
    set_inputs_quantization_parameters [Sample.quantizer]
      (Sample.fresh Sample.constructed) = (Ok tt, w')
    /\ input_quantizers (self w') = [Sample.quantizer].
Proof.
  destruct (set_inputs_quantization_parameters_replaces
              (Sample.fresh Sample.constructed) [Sample.quantizer])
    as (w' & Hrun & Hq & _); [reflexivity|].
  exists w'. split; [exact Hrun|exact Hq].
Defined.

Lemma quantize_input_to_tuple_witness :
  quantize_input [Sample.raw_batch] (Sample.fresh Sample.qmodule)
  = (Ok (Single Sample.batch), Sample.fresh Sample.qmodule)
  /\ to_tuple (Single Sample.batch)
     = zip_with quant (input_quantizers Sample.qmodule) [Sample.raw_batch].
Proof.
  assert (Hrun : quantize_input [Sample.raw_batch] (Sample.fresh Sample.qmodule)
                 = (Ok (Single Sample.batch), Sample.fresh Sample.qmodule))
    by (vm_compute; reflexivity).
  split; [exact Hrun|].
  exact (proj1 (quantize_input_to_tuple _ _ _ _ Hrun)).
Defined.

Lemma initial_layer_results_aligned_witness :
  NoDup (ordered_module_input_names Sample.qmodule)
  /\ initial_layer_results Sample.qmodule [Sample.batch] !! "x"
     = Some (Quantized (make_q_input Sample.quantizer Sample.batch)).
Proof.
  assert (Hnodup : NoDup (ordered_module_input_names Sample.qmodule)).
  { simpl. apply NoDup_cons. split; [apply not_elem_of_nil|apply NoDup_nil_2]. }
  split; [exact Hnodup|].
  apply (proj1 (initial_layer_results_aligned Sample.qmodule [Sample.batch] Hnodup) 0);
    reflexivity.
Defined.

Lemma forward_and_dequant_composes_witness :
  forward_and_dequant [Sample.batch] (Sample.fresh Sample.qmodule)
  = (Ok Sample.raw_batch, Sample.fresh Sample.qmodule)
  /\ (forward_and_dequant [Sample.raw_batch] (Sample.fresh Sample.qmodule)).1
     = Err (Raise ValueError (not_integer_message [(0, Sample.raw_batch)])).
Proof.
  destruct (forward_and_dequant_composes [Sample.batch] (Sample.fresh Sample.qmodule)
              Sample.quantizer eq_refl) as [Hok _].
  destruct (forward_and_dequant_composes [Sample.raw_batch] (Sample.fresh Sample.qmodule)
              Sample.quantizer eq_refl) as [_ Hbad].
  split.
  - rewrite Hok by reflexivity. vm_compute. reflexivity.
  - rewrite Hbad by discriminate. reflexivity.
Defined.

Lemma forward_in_fhe_calls_witness :
  backend_calls (forward_in_fhe [Sample.batch] false Sample.compiled).2
  = [EncryptRunDecrypt [Ndarray int64 [1] [1%Z]];
     EncryptRunDecrypt [Ndarray int64 [1] [2%Z]];
     EncryptRunDecrypt [Ndarray int64 [1] [3%Z]]]
  /\ dtype Sample.batch = int64
  /\ data Sample.batch = [1; 2; 3]%Z.
Proof.
  destruct (forward_in_fhe_calls [Sample.batch] false Sample.compiled)
    as (k & _ & _ & Hcalls & Hout).
  destruct (Hout Sample.batch) as (first & c & Hfirst & Hk & Hc & _ & Hresult);
    [vm_compute; reflexivity|].
  injection Hfirst as <-. injection Hk as <-. injection Hc as <-.
  split; [rewrite Hcalls; vm_compute; reflexivity|].
  destruct (Hresult int64) as (_ & Hdtype & Hdata).
  - intros i Hi. destruct i as [|[|[|i]]]; [reflexivity..|lia].
  - split; [exact Hdtype|]. rewrite Hdata. vm_compute. reflexivity.
Defined.

Lemma forward_in_fhe_modes_agree_witness :
  (forward_in_fhe [Sample.batch] true Sample.compiled).1
  = (forward_in_fhe [Sample.batch] false Sample.compiled).1.
Proof.
  apply (forward_in_fhe_modes_agree [Sample.batch] Sample.compiled Sample.circuit).
  - reflexivity.
  - intros i. reflexivity.
Defined.

Lemma not_compiled_failures_agree_witness :
  (forward_in_fhe [Sample.batch] true (Sample.fresh Sample.qmodule)).1
  = Err (Raise AssertionError not_compiled_message)
  /\ (check_model_is_compiled Sample.compiled).1 = Ok tt.
Proof.
  split.
  - apply (proj1 (not_compiled_failures_agree [Sample.batch] true
                    (Sample.fresh Sample.qmodule))).
    reflexivity.
  - apply (proj2 (proj2 (not_compiled_failures_agree [] true Sample.compiled))).
    simpl. eauto.
Defined.

Lemma compile_stores_the_circuit_witness :
  exists w',
    compile unit unit nat (list string) (list (string * string))
      Sample.no_conflict Sample.keep_errors Sample.proxy_of Sample.compiler_on
      Sample.compiler
      (Single Sample.raw_batch) None None false false None None false
      (Sample.fresh Sample.qmodule)
    = (Ok Sample.circuit, w')
    /\ fhe_circuit (self w') = Some Sample.circuit
    /\ length (backend_calls w') = 1.
Proof.
  destruct (compile unit unit nat (list string) (list (string * string))
              Sample.no_conflict Sample.keep_errors Sample.proxy_of
              Sample.compiler_on Sample.compiler
              (Single Sample.raw_batch) None None false false None None false
              (Sample.fresh Sample.qmodule)) as [r w'] eqn:Hrun.
  assert (Hr : r = Ok Sample.circuit).
  { apply (f_equal fst) in Hrun. vm_compute in Hrun. by rewrite <- Hrun. }
  subst r. exists w'. split; [reflexivity|].
  destruct (compile_stores_the_circuit
              _ _ _ _ _ _ _ _ _ _ _ _ _ _ _ _ _ _ _ _ _ Hrun)
    as (Hself & _ & _ & _ & _ & q_inputs & samples & errors
        & _ & _ & _ & _ & Hcalls).
  split; [by rewrite Hself|]. by rewrite Hcalls.
Defined.

Lemma compile_failure_keeps_the_module_witness :
  (exists e w',
     compile unit unit nat (list string) (list (string * string))
       Sample.no_conflict Sample.keep_errors Sample.proxy_of Sample.compiler_on
       Sample.compiler
       (Single Sample.batch) None None false false None None false
       Sample.compiled
     = (Err e, w')
     /\ fhe_circuit (self w') = Some Sample.circuit)
  /\ (exists w',
        compile unit unit nat (list string) (list (string * string))
          Sample.no_conflict Sample.keep_errors Sample.proxy_of
          Sample.compiler_on Sample.compiler
          (Single Sample.raw_batch) None None false false (Some 1) (Some 2)
          false Sample.compiled
        = (Err (Raise ValueError
                  "Please only set one of (p_error, global_p_error) values"),
           w')
        /\ fhe_circuit (self w') = Some Sample.circuit
        /\ backend_calls w' = backend_calls Sample.compiled).
Proof.
  split.
  - destruct (compile unit unit nat (list string) (list (string * string))
                Sample.no_conflict Sample.keep_errors Sample.proxy_of
                Sample.compiler_on Sample.compiler
                (Single Sample.batch) None None false false None None false
                Sample.compiled) as [r w'] eqn:Hrun.
    assert (Hr : exists e, r = Err e).
    { apply (f_equal fst) in Hrun. vm_compute in Hrun. rewrite <- Hrun. eauto. }
    destruct Hr as [e ->]. exists e, w'. split; [reflexivity|].
    destruct (compile_failure_keeps_the_module
                _ _ _ _ _ _ _ _ _ _ _ _ _ _ _ _ _ _ _ _ _ Hrun)
      as (Hself & _). by rewrite Hself.
  - destruct (compile unit unit nat (list string) (list (string * string))
                Sample.no_conflict Sample.keep_errors Sample.proxy_of
                Sample.compiler_on Sample.compiler
                (Single Sample.raw_batch) None None false false
                (Some 1) (Some 2) false
                Sample.compiled) as [r w'] eqn:Hrun.
    assert (Hr : r = Err (Raise ValueError
                   "Please only set one of (p_error, global_p_error) values")).
    { apply (f_equal fst) in Hrun. vm_compute in Hrun. by rewrite <- Hrun. }
    subst r. exists w'. split; [reflexivity|].
    destruct (compile_failure_keeps_the_module
                _ _ _ _ _ _ _ _ _ _ _ _ _ _ _ _ _ _ _ _ _ Hrun)
      as (Hself & _ & [->|(samples & errors & _ & Herrors & _)]).
    + done.
    + discriminate Herrors.
Defined.

Lemma compile_stops_before_the_compiler_witness :
  compile unit unit nat (list string) (list (string * string))
    Sample.no_conflict Sample.keep_errors Sample.proxy_of Sample.compiler_on
    Sample.compiler
    (Single Sample.raw_batch) None None false false None None false
    (Sample.fresh Sample.constructed)
  = (Err (Raise TypeError (arity_message 1 0)), Sample.fresh Sample.constructed)
  /\ exists e',
       compile unit unit nat (list string) (list (string * string))
         Sample.no_conflict Sample.keep_errors Sample.proxy_of
         Sample.compiler_on Sample.compiler
         (Single Sample.raw_batch) None None false false (Some 1) (Some 2)
         false Sample.compiled
       = (Err e', Sample.compiled).
Proof.
  split.
  - apply (proj1 (compile_stops_before_the_compiler unit unit nat (list string)
                    (list (string * string)) Sample.no_conflict
                    Sample.keep_errors Sample.proxy_of Sample.compiler_on
                    Sample.compiler (Single Sample.raw_batch)
                    None None false false None None false
                    (Sample.fresh Sample.constructed))).
    + vm_compute. reflexivity.
    + simpl. lia.
  - apply (proj2 (proj2 (compile_stops_before_the_compiler unit unit nat
                    (list string) (list (string * string)) Sample.no_conflict
                    Sample.keep_errors Sample.proxy_of Sample.compiler_on
                    Sample.compiler (Single Sample.raw_batch)
                    None None false false (Some 1) (Some 2) false
                    Sample.compiled))
             (Raise ValueError
                "Please only set one of (p_error, global_p_error) values")).
    reflexivity.
Defined.

Lemma __init___invariants_witness :
  __init__ Sample.quantizer_of (Some ["x"]) (Some ["y"])
    (Some [("y", (["x"], Sample.identity))])
  = Ok (Some Sample.constructed)
  /\ input_quantizers Sample.constructed = []
  /\ fhe_circuit Sample.constructed = None.
Proof.
  assert (Hinit : __init__ Sample.quantizer_of (Some ["x"]) (Some ["y"])
                    (Some [("y", (["x"], Sample.identity))])
                  = Ok (Some Sample.constructed)) by (vm_compute; reflexivity).
  split; [exact Hinit|].
  exact (proj1 (proj2 (proj2 (__init___invariants _ _ _ _ _ Hinit)))).
Defined.

Lemma __init___failures_witness :
  __init__ Sample.quantizer_of (Some ["x"]) (Some ["y"; "z"])
    (Some [("y", (["x"], Sample.identity))])
  = Err (Raise AssertionError (single_output_message 2))
  /\ single_output_message 2 = "type only supports a single output for now, got 2"
  /\ __init__ Sample.quantizer_of (Some ["x"]) (Some ["z"])
       (Some [("y", (["x"], Sample.identity))])
     = Err (Raise KeyError "z")
  /\ __init__ Sample.quantizer_of None None None = Ok None.
Proof.
  destruct (__init___failures Sample.quantizer_of (Some ["x"]) (Some ["y"; "z"])
              (Some [("y", (["x"], Sample.identity))])) as (Hmany & _ & _).
  destruct (__init___failures Sample.quantizer_of (Some ["x"]) (Some ["z"])
              (Some [("y", (["x"], Sample.identity))])) as (_ & Hmissing & _).
  destruct (__init___failures Sample.quantizer_of None None None) as (_ & _ & Hbare).
  split; [apply (Hmany ["y"; "z"]); try reflexivity; simpl; lia|].
  split; [vm_compute; reflexivity|].
  split.
  - apply (Hmissing "z" [("y", (["x"], Sample.identity))]); try reflexivity.
    intros entry [<-|[]]. discriminate.
  - apply Hbare. by left.
Defined.

Lemma fresh_module_behaviour_witness :
  quantize_input [Sample.raw_batch] (Sample.fresh Sample.constructed)
  = (Err (Raise TypeError (arity_message 1 0)), Sample.fresh Sample.constructed)
  /\ bitwidth_and_range_report (Sample.fresh Sample.constructed)
     = (Ok None, Sample.fresh Sample.constructed).
Proof.
  destruct (fresh_module_behaviour Sample.quantizer_of (Some ["x"]) (Some ["y"])
              (Some [("y", (["x"], Sample.identity))])
              (Sample.fresh Sample.constructed))
    as (_ & Hquantize & _ & Hreport); [vm_compute; reflexivity|].
  split; [apply Hquantize; discriminate|exact Hreport].
Defined.



Lemma bitwidth_and_range_report_empty_witness :
  exists report,
    bitwidth_and_range_report Sample.compiled = (Ok (Some report), Sample.compiled)
    /\ report <> ∅.
Proof.
  destruct (bitwidth_and_range_report_empty Sample.compiled Sample.circuit eq_refl)
    as (report & Hrun & Hempty).
  exists report. split; [exact Hrun|].
  intros Hnone. pose proof (proj1 Hempty Hnone) as Hall.
  destruct (Hall ("y", (["x"], Sample.identity))) as [Hrange|Hbw]; [by left| |].
  - vm_compute in Hrange. discriminate.
  - vm_compute in Hbw. discriminate.
Defined.

Lemma tag_pattern_inj_witness :
  tag_pattern "identity_0" = "identity_0(\..*)?"
  /\ tag_pattern "conv.1" = "conv\.1(\..*)?".
Proof.
  split; [|vm_compute; reflexivity].
  apply (proj2 (tag_pattern_inj "identity_0" "identity_0")). reflexivity.
Defined.

Lemma _forward_finds_the_output_witness :
  exists e,
    (_forward [Sample.batch] (Sample.fresh Sample.faulty_qmodule)).1 = Err e
    /\ exc_type e <> KeyError.
Proof.
  destruct (_forward [Sample.batch] (Sample.fresh Sample.faulty_qmodule)).1
    as [out|e] eqn:Hrun; [vm_compute in Hrun; discriminate|].
  exists e. split; [reflexivity|].
  apply (_forward_finds_the_output [Sample.batch] (Sample.fresh Sample.faulty_qmodule)
           "z" (["y"], Sample.suspicious) e).
  - reflexivity.
  - right. by left.
  - exact Hrun.
Defined.
